(** * Concordia: a shallow embedding of [concordia/Concordia_logic.py]

    The development models the [Concordia] class: the model registry
    ([add_model], [_get_model]), the identity checks ([check_row_id],
    [check_model_id]), the ingestion pipeline ([insert_into_persistent_db],
    [_insert_df_into_db]), the query helper ([retrieve_from_persistent_db]),
    the prediction path ([_predict], [predict], [predict_proba]), [add_label]
    and [match_training_and_live].

    Python objects that the code mutates (dicts and DataFrames) live in an
    explicit heap and are passed by reference; the Redis cache, the MongoDB
    store and the clock are components of the program state; a raised
    exception keeps the state reached so far. *)

From Stdlib Require Import ZArith List Bool Lia Ascii.
From stdpp Require Import base option list gmap strings pretty.

Set Warnings "-register-all".

(** ** Python values *)

(** Scalars and sequences that appear as arguments, record fields and table
    cells.  [VNp] is a numpy scalar ([np.generic]), [VArray] an [np.ndarray],
    [VSeries] a pandas Series (with the default positional index), [VTime] a
    [datetime] read from the clock. *)
Inductive value : Type :=
| VNone
| VNaN
| VInt (z : Z)
| VStr (s : string)
| VTime (t : nat)
| VNp (z : Z)
| VList (l : list value)
| VSeries (l : list value)
| VArray (l : list value).

Abbreviation record := (gmap string value).

Definition is_none (v : value) : bool :=
  match v with VNone => true | _ => false end.

(** [isinstance(v, list)] *)
Definition is_list (v : value) : bool :=
  match v with VList _ => true | _ => false end.

(** [isinstance(v, np.generic)] *)
Definition is_np_generic (v : value) : bool :=
  match v with VNp _ => true | _ => false end.

(** [isinstance(v, numbers.Number) or isinstance(v, np.generic) or
    isinstance(v, str)], the test [add_label] uses to tell one identifier
    from a sequence of them. *)
Definition is_number_or_str (v : value) : bool :=
  match v with VInt _ | VNp _ | VStr _ | VNaN => true | _ => false end.

(** The items of a list-like value; [None] for everything pandas broadcasts. *)
Definition seq_items (v : value) : option (list value) :=
  match v with
  | VList l | VSeries l | VArray l => Some l
  | _ => None
  end.

(** [np.asscalar(v)] on a numpy scalar, applied only where
    [isinstance(v, np.generic)] holds. *)
Definition asscalar (v : value) : value :=
  match v with VNp z => VInt z | _ => v end.

(** The pass [for k, v in d.items(): if isinstance(v, np.generic): d[k] =
    np.asscalar(v)]. *)
Definition asscalar_items (d : record) : record :=
  (λ v, if is_np_generic v then asscalar v else v) <$> d.

Fixpoint value_eqb (a b : value) : bool :=
  let fix all2 (l l' : list value) : bool :=
    match l, l' with
    | [], [] => true
    | x :: l, y :: l' => value_eqb x y && all2 l l'
    | _, _ => false
    end in
  match a, b with
  | VNone, VNone => true
  | VNaN, VNaN => true
  | VInt x, VInt y => Z.eqb x y
  | VStr x, VStr y => String.eqb x y
  | VTime x, VTime y => Nat.eqb x y
  | VNp x, VNp y => Z.eqb x y
  | VList l, VList l' => all2 l l'
  | VSeries l, VSeries l' => all2 l l'
  | VArray l, VArray l' => all2 l l'
  | _, _ => false
  end.

(** Order used by the store's [$gte] filter: timestamps with timestamps,
    integers with integers.  The order that MongoDB has on text, and its
    reading of the filter on a field that is an array, are left out: the
    statements that depend on the order take [min_date] to be a time
    stamp. *)
Definition value_leb (a b : value) : bool :=
  match a, b with
  | VTime x, VTime y => Nat.leb x y
  | VInt x, VInt y => Z.leb x y
  | _, _ => false
  end.

(** [str(v)] as [str.format] renders it.  Identifiers are strings or
    integers in practice; sequences are rendered item by item, without the
    quotes that Python puts around the text items of a list and without the
    layout of arrays and Series: the statements that depend on the rendering
    are about identifiers that are not sequences. *)
Fixpoint py_str (v : value) : string :=
  let fix items (l : list value) : string :=
    match l with
    | [] => ""
    | [x] => py_str x
    | x :: l => py_str x +:+ ", " +:+ items l
    end in
  match v with
  | VNone => "None"
  | VNaN => "nan"
  | VInt z => pretty z
  | VStr s => s
  | VTime t => pretty t
  | VNp z => pretty z
  | VList l => "[" +:+ items l +:+ "]"
  | VSeries l => "[" +:+ items l +:+ "]"
  | VArray l => "[" +:+ items l +:+ "]"
  end.

(** ** Tables *)

(** A pandas DataFrame: the column labels and the rows in index order, each
    row holding the cells of that row by column label. *)
Record dataframe : Type := mkFrame {
  columns : list string;
  rows : list record
}.

(** [df.shape[0]] *)
Definition nrows (df : dataframe) : nat := length (rows df).

(** Exceptions the modelled code can raise. *)
Inductive message : Type :=
| MissingRowId            (* 'Missing "row_id" field' *)
| MissingModelId          (* 'Missing "model_id" field' *)
| MissingRowIdPredict     (* 'Missing row_id. Please pass in a value ...' *)
| ModelNotFound (model_id : value)
                          (* 'We could not find a corresponding model for model_id {}' *)
| LengthMismatch          (* pandas: length of values does not match *)
| AllScalars.             (* pandas: all scalar values and no index *)

Inductive exn : Type :=
| ValueError (m : message)
| AttributeError
| KeyError (k : string)
| TypeError
| IndexError
| UnboundLocalError (name : string)
| NameError (name : string)
| DataError            (* redis: value of a type the client cannot encode *)
| InvalidOperation     (* pymongo: insert_many of an empty list *)
| DecodeError          (* the codec rejects the blob *)
| AssertionError
| LoopBound.           (* not a Python exception: the iteration bound of the
                          model of a [while] loop was reached *)

Inductive result (A : Type) : Type :=
| Ok (a : A)
| Raise (e : exn).
Arguments Ok {A} a.
Arguments Raise {A} e.

Definition nan_row (cols : list string) : record :=
  list_to_map ((λ c, (c, VNaN)) <$> cols).

Definition add_column (cols : list string) (c : string) : list string :=
  if bool_decide (c ∈ cols) then cols else cols ++ [c].

(** [df[c] = v].  A value that is not list-like is broadcast to every row.
    A list or array must have one item per row; a Series is aligned on the
    index, here positional, missing positions becoming NaN.  On a frame
    without rows a non-empty list-like value defines the index and the
    existing columns are filled with NaN. *)
Definition set_column (df : dataframe) (c : string) (v : value) : result dataframe :=
  let cols := add_column (columns df) c in
  match seq_items v with
  | None => Ok (mkFrame cols ((λ r, <[c := v]> r) <$> rows df))
  | Some l =>
      if Nat.eqb (length l) (nrows df)
      then Ok (mkFrame cols (zip_with (λ r x, <[c := x]> r) (rows df) l))
      else if Nat.eqb (nrows df) 0
      then Ok (mkFrame cols ((λ x, <[c := x]> (nan_row (columns df))) <$> l))
      else match v with
           | VSeries _ =>
               Ok (mkFrame cols
                     (zip_with (λ r x, <[c := x]> r) (rows df)
                        (take (nrows df) (l ++ replicate (nrows df) VNaN))))
           | _ => Raise (ValueError LengthMismatch)
           end
  end.

(** [del df[c]] *)
Definition del_column (df : dataframe) (c : string) : dataframe :=
  mkFrame (filter (λ c', c' ≠ c) (columns df)) (delete c <$> rows df).

(** [df[c]] as a Series of the cells of column [c]. *)
Definition get_column (df : dataframe) (c : string) : value :=
  VSeries ((λ r, default VNaN (r !! c)) <$> rows df).

(** [pd.DataFrame(d)] for a dict literal [d] given in source order: the
    list-like entries fix the number of rows and must agree on it, the others
    are broadcast; a dict of scalars only is refused. *)
Definition frame_lengths (d : list (string * value)) : list nat :=
  omap (λ kv, length <$> seq_items kv.2) d.

Fixpoint frame_fill (d : list (string * value)) (df : dataframe) : result dataframe :=
  match d with
  | [] => Ok df
  | (c, v) :: d =>
      match set_column df c v with
      | Ok df' => frame_fill d df'
      | Raise e => Raise e
      end
  end.

Definition frame_of_dict (d : list (string * value)) : result dataframe :=
  match frame_lengths d with
  | [] => Raise (ValueError AllScalars)
  | n :: ns =>
      if forallb (Nat.eqb n) ns
      then match n with
           | O => Ok (mkFrame (d.*1) [])
           | S _ => frame_fill d (mkFrame [] (replicate n ∅))
           end
      else Raise (ValueError LengthMismatch)
  end.

(** ** Heap objects *)

(** The two payload shapes the code tells apart with [isinstance(val, dict)]:
    a flat dict and a DataFrame. *)
Inductive object : Type :=
| ODict (d : record)
| OFrame (df : dataframe).

(** [k in o] *)
Definition obj_contains (o : object) (k : string) : bool :=
  match o with
  | ODict d => bool_decide (is_Some (d !! k))
  | OFrame df => bool_decide (k ∈ columns df)
  end.

(** [del o[k]], used only under [k in o]. *)
Definition obj_del (o : object) (k : string) : object :=
  match o with
  | ODict d => ODict (delete k d)
  | OFrame df => OFrame (del_column df k)
  end.

(** [o[k] = v] *)
Definition obj_setitem (o : object) (k : string) (v : value) : result object :=
  match o with
  | ODict d => Ok (ODict (<[k := v]> d))
  | OFrame df =>
      match set_column df k v with
      | Ok df' => Ok (OFrame df')
      | Raise e => Raise e
      end
  end.

(** [o.get(k, None)]; the key may itself be [None], which no payload has. *)
Definition obj_get (o : object) (k : option string) : value :=
  match k with
  | None => VNone
  | Some k =>
      match o with
      | ODict d => default VNone (d !! k)
      | OFrame df => if bool_decide (k ∈ columns df) then get_column df k else VNone
      end
  end.

(** [o[k]] *)
Definition obj_getitem (o : object) (k : option string) : result value :=
  match k with
  | None => Raise (KeyError "None")
  | Some k =>
      match o with
      | ODict d => match d !! k with Some v => Ok v | None => Raise (KeyError k) end
      | OFrame df =>
          if bool_decide (k ∈ columns df) then Ok (get_column df k) else Raise (KeyError k)
      end
  end.

(** ** Collaborators outside the repository *)

(** The model object ([predict], [predict_proba]), the codec
    [codecs.encode(dill.dumps(m), 'base64').decode()] with its inverse
    [dill.loads(codecs.decode(s, 'base64'))] (which raises on a blob it cannot
    read), and [json.dumps]. *)
Class Externals : Type := {
  Model : Type;
  model_predict : Model → object → value;
  model_predict_proba : Model → object → value;
  dumps_base64 : Model → string;
  loads_base64 : string → option Model;
  json_dumps : record → string
}.

(** Same predictions on the same inputs. *)
Definition model_equiv `{Externals} (m m' : Model) : Prop :=
  ∀ x, model_predict m x = model_predict m' x
       ∧ model_predict_proba m x = model_predict_proba m' x.

(** The codec round-trips up to functional equivalence. *)
Definition codec_round_trips `{Externals} : Prop :=
  ∀ m, ∃ m', loads_base64 (dumps_base64 m) = Some m' ∧ model_equiv m' m.

(** ** Program state *)

Definition loc : Type := nat.

(** Filters of a store query: [{k: v}] and [{k: {'$gte': v}}]. *)
Inductive cond : Type :=
| Equals (v : value)
| AtLeast (v : value).

Abbreviation query := (gmap string cond).

(** What the program did to its two stores and to the model, in order: a
    record kept next to the stores, which no method reads, so that the order
    of the effects of a call can be stated. *)
Inductive event : Type :=
| EvCacheGet (key : string)
| EvCacheSet (key : string)
| EvFind (collection : string)
| EvInsert (collection : string) (n : nat)
| EvInvoke (proba : bool).

(** [rdb] is the Redis database behind [self.rdb], [mdb] the MongoDB database
    behind [self.mdb], one list of documents per collection in insertion
    order. *)
Record state : Type := mkState {
  heap : gmap loc object;
  rdb : gmap string string;
  mdb : gmap string (list record);
  clock : nat;
  trace : list event
}.

Definition set_heap (h : gmap loc object) (s : state) : state :=
  mkState h (rdb s) (mdb s) (clock s) (trace s).
Definition set_rdb (r : gmap string string) (s : state) : state :=
  mkState (heap s) r (mdb s) (clock s) (trace s).
Definition set_mdb (m : gmap string (list record)) (s : state) : state :=
  mkState (heap s) (rdb s) m (clock s) (trace s).
Definition tick (s : state) : state :=
  mkState (heap s) (rdb s) (mdb s) (S (clock s)) (trace s).
Definition log (e : event) (s : state) : state :=
  mkState (heap s) (rdb s) (mdb s) (clock s) (trace s ++ [e]).

(** The documents of a collection. *)
Definition collection (s : state) (val_type : string) : list record :=
  default [] (mdb s !! val_type).

(** ** The state-and-exception monad *)

Definition M (A : Type) : Type := state → result A * state.

Definition ret {A} (a : A) : M A := λ s, (Ok a, s).
Definition raise {A} (e : exn) : M A := λ s, (Raise e, s).
Definition bind {A B} (m : M A) (k : A → M B) : M B :=
  λ s, match m s with
       | (Ok a, s') => k a s'
       | (Raise e, s') => (Raise e, s')
       end.
Definition lift {A} (r : result A) : M A :=
  match r with Ok a => ret a | Raise e => raise e end.

Notation "'let*' x ':=' m 'in' k" := (bind m (λ x, k))
  (at level 10, x name, m at level 100, k at level 200).

(** *** Heap *)

(** A new object; Python never reuses the identity of a live object. *)
Definition alloc (o : object) : M loc :=
  λ s, let l := fresh (dom (heap s)) in (Ok l, set_heap (<[l := o]> (heap s)) s).

(** Dereference; a reference that denotes no payload has none of the
    methods the code calls on it. *)
Definition load (l : loc) : M object :=
  λ s, match heap s !! l with
       | Some o => (Ok o, s)
       | None => (Raise AttributeError, s)
       end.

Definition write (l : loc) (o : object) : M unit :=
  λ s, (Ok tt, set_heap (<[l := o]> (heap s)) s).

(** [val.copy()]: a new object with the items of the old one.  The modelled
    methods assign and delete keys and columns, and never change an item in
    place, so the items are values. *)
Definition copy (l : loc) : M loc :=
  let* o := load l in alloc o.

(** [val[k] = v] through a reference. *)
Definition setitem (l : loc) (k : string) (v : value) : M unit :=
  let* o := load l in
  let* o' := lift (obj_setitem o k v) in
  write l o'.

(** [if k in val: del val[k]] through a reference. *)
Definition del_if_present (l : loc) (k : string) : M unit :=
  let* o := load l in
  if obj_contains o k then write l (obj_del o k) else ret tt.

(** *** Clock *)

(** [datetime.datetime.now()] and [datetime.datetime.utcnow()] *)
Definition now : M value :=
  λ s, (Ok (VTime (clock s)), tick s).

(** *** Redis *)

(** [self.rdb.get(key)] *)
Definition rdb_get (key : string) : M (option string) :=
  λ s, (Ok (rdb s !! key), log (EvCacheGet key) s).

(** [self.rdb.set(key, v)]: the client stores text and numbers and refuses
    the rest. *)
Definition rdb_set (key : string) (v : value) : M unit :=
  match v with
  | VStr b => λ s, (Ok tt, log (EvCacheSet key) (set_rdb (<[key := b]> (rdb s)) s))
  | VInt z | VNp z =>
      λ s, (Ok tt, log (EvCacheSet key) (set_rdb (<[key := pretty z]> (rdb s)) s))
  | _ => raise DataError
  end.

(** [rdb.delete(key)], as the tests evict an entry. *)
Definition rdb_delete (key : string) (s : state) : state :=
  set_rdb (delete key (rdb s)) s.

(** *** MongoDB *)

(** A collection is the list of its documents in insertion order, and [find]
    without a sort returns the matching ones in that order, as MongoDB does
    for a collection that is only appended to.  A filter [{k: v}] holds on
    the documents whose field [k] equals [v]; that MongoDB also selects a
    document whose field [k] is an array with an item equal to [v] is left
    out.  The store takes every document it is given: the refusal of a
    document that the driver cannot encode (one that holds a numpy scalar,
    an array or a Series) and the loss of the connection are not modelled,
    so that [insert_one] never fails and [insert_many] only on an empty
    list.  The
    [_id] that the driver adds to what it stores is left out: no modelled
    method reads it. *)

Definition cond_holds (c : cond) (field : option value) : bool :=
  match c, field with
  | Equals v, Some x => value_eqb v x
  | AtLeast v, Some x => value_leb v x
  | _, None => false
  end.

(** A document satisfies a query when every filter holds on it. *)
Definition matches (q : query) (d : record) : bool :=
  forallb (λ kc, cond_holds kc.2 (d !! kc.1)) (map_to_list q).

(** [self.mdb[val_type].find(q)], read to the end. *)
Definition mdb_find (val_type : string) (q : query) : M (list record) :=
  λ s, (Ok (List.filter (matches q) (collection s val_type)), log (EvFind val_type) s).

(** [self.mdb[val_type].insert_one(d)] *)
Definition mdb_insert_one (val_type : string) (d : record) : M unit :=
  λ s, (Ok tt, log (EvInsert val_type 1)
                 (set_mdb (<[val_type := collection s val_type ++ [d]]> (mdb s)) s)).

(** [self.mdb[val_type].insert_many(ds)] *)
Definition mdb_insert_many (val_type : string) (ds : list record) : M unit :=
  match ds with
  | [] => raise InvalidOperation
  | _ => λ s, (Ok tt, log (EvInsert val_type (length ds))
                        (set_mdb (<[val_type := collection s val_type ++ ds]> (mdb s)) s))
  end.

(** ** The [Concordia] class *)

(** The instance attribute the modelled methods read; the connections are
    the [rdb] and [mdb] components of the state. *)
Record Concordia : Type := mkConcordia {
  default_row_id_field : option string
}.

Definition chunk_size : nat := 1000.

(** [l[idx]] on a Python list. *)
Definition getindex (l : list value) (idx : option nat) : result value :=
  match idx with
  | None => Raise TypeError
  | Some i => match l !! i with Some v => Ok v | None => Raise IndexError end
  end.

(** [df.iloc[lo:hi]] *)
Definition iloc (df : dataframe) (lo hi : nat) : dataframe :=
  mkFrame (columns df) (take (hi - lo) (drop lo (rows df))).

(** [df.to_dict('records')] *)
Definition to_dict_records (df : dataframe) : list record := rows df.

(** The methods below take [self] when they read an attribute of the
    instance, directly or through a method they call. *)
Section Methods.
Context `{Externals}.
Variable self : Concordia.

Definition make_redis_model_key (model_id : value) : string :=
  "_concordia_" +:+ py_str model_id +:+ "_" +:+ "model".

(** The filter [query_params] that [retrieve_from_persistent_db] builds. *)
Definition query_params (row_id model_id min_date : value)
    (date_field : option string) : query :=
  let query_params : query :=
    {[ "row_id" := Equals row_id; "model_id" := Equals model_id ]} in
  let query_params :=
    if is_none row_id then delete "row_id" query_params else query_params in
  let query_params :=
    if is_none model_id then delete "model_id" query_params else query_params in
  if negb (is_none min_date) then
    match date_field with
    | None => <["_concordia_created_at" := AtLeast min_date]> query_params
    | Some f => <[f := AtLeast min_date]> query_params
    end
  else query_params.

Definition retrieve_from_persistent_db (val_type : string)
    (row_id model_id min_date : value) (date_field : option string)
  : M (list record) :=
  mdb_find val_type (query_params row_id model_id min_date date_field).

Definition check_row_id (val : loc) (row_id : value) (idx : option nat) : M loc :=
  let* row_id :=
    match row_id with
    | VList l => lift (getindex l idx)
    | _ => ret row_id
    end in
  let* row_id :=
    if is_none row_id then
      let* o := load val in
      let calculated_row_id := obj_get o (default_row_id_field self) in
      if is_none calculated_row_id
      then raise (ValueError MissingRowId)
      else ret calculated_row_id
    else ret row_id in
  let* _ := if is_none row_id then raise AssertionError else ret tt in
  let* _ := setitem val "row_id" row_id in
  ret val.

Definition check_model_id (val : loc) (model_id : value) (idx : option nat) : M loc :=
  let* model_id :=
    match model_id with
    | VList l => lift (getindex l idx)
    | _ => ret model_id
    end in
  let* model_id :=
    if is_none model_id then
      let* o := load val in
      let calculated_model_id := obj_get o (Some "model_id") in
      if is_none calculated_model_id
      then raise (ValueError MissingModelId)
      else ret calculated_model_id
    else ret model_id in
  let* _ := if is_none model_id then raise AssertionError else ret tt in
  let* _ := setitem val "model_id" model_id in
  ret val.

(** The frame behind a reference; a dict has no [columns]. *)
Definition load_frame (df : loc) : M dataframe :=
  let* o := load df in
  match o with
  | OFrame f => ret f
  | ODict _ => raise AttributeError
  end.

(** The loop [while chunk_min_idx < df.shape[0]: ...] of
    [_insert_df_into_db]; [fuel] bounds the number of iterations.  The
    frame is not assigned to inside the loop, so it is read once. *)
Fixpoint insert_chunks (fuel : nat) (df : dataframe) (val_type : string)
    (chunk_min_idx : nat) : M unit :=
  if negb (chunk_min_idx <? nrows df) then ret tt
  else match fuel with
       | O => raise LoopBound
       | S fuel =>
           let max_idx := Nat.min (nrows df) (chunk_min_idx + chunk_size) in
           let df_chunk := iloc df chunk_min_idx max_idx in
           let df_chunk := to_dict_records df_chunk in
           let* _ := mdb_insert_many val_type df_chunk in
           insert_chunks fuel df val_type (chunk_min_idx + chunk_size)
       end.

Definition _insert_df_into_db (df : loc) (val_type : string)
    (row_id model_id : value) : M unit :=
  let* f := load_frame df in
  let df_cols := columns f in
  let* _ :=
    if negb (bool_decide ("row_id" ∈ df_cols)) then
      if negb (is_none row_id) then setitem df "row_id" row_id
      else if negb (bool_decide (default_row_id_field self ∈ Some <$> df_cols))
           then raise (ValueError MissingRowId)
           else ret tt
    else ret tt in
  let* _ :=
    if negb (bool_decide ("model_id" ∈ df_cols)) then
      if negb (is_none model_id) then setitem df "model_id" model_id
      else raise (ValueError MissingModelId)
    else ret tt in
  let* f := load_frame df in
  insert_chunks (nrows f) f val_type 0.

Definition insert_into_persistent_db (val : loc) (val_type : string)
    (row_id model_id : value) : M unit :=
  let* val := copy val in
  let* _ := del_if_present val "_id" in
  let* _ := del_if_present val "_id_" in
  let* created_at := now in
  let* _ := setitem val "_concordia_created_at" created_at in
  let* o := load val in
  match o with
  | ODict _ =>
      let* val := check_row_id val row_id None in
      let* val := check_model_id val model_id None in
      let* o := load val in
      match o with
      | ODict d =>
          let* _ := write val (ODict (asscalar_items d)) in
          mdb_insert_one val_type (asscalar_items d)
      | OFrame _ => raise AttributeError
      end
  | OFrame _ =>
      _insert_df_into_db val val_type row_id model_id
  end.

(** [feature_importances] is a reference to a dict, or [None]. *)
Definition add_model (model : Model) (model_id : value) (feature_names : value)
    (feature_importances : option loc) (description : value) : M unit :=
  let redis_key_model := make_redis_model_key model_id in
  let stringified_model := dumps_base64 model in
  let* _ := rdb_set redis_key_model (VStr stringified_model) in
  let* importances :=
    match feature_importances with
    | None => raise AttributeError
    | Some fi =>
        let* o := load fi in
        match o with
        | ODict d =>
            let* _ := write fi (ODict (asscalar_items d)) in
            ret (asscalar_items d)
        | OFrame _ => raise TypeError
        end
    end in
  let dumped := json_dumps importances in
  let* date_added := now in
  let* mdb_doc :=
    alloc (ODict (list_to_map
      [ ("val_type", VStr "model_info");
        ("model", VStr stringified_model);
        ("model_id", model_id);
        ("feature_names", feature_names);
        ("feature_importances", VStr dumped);
        ("description", description);
        ("date_added", date_added) ])) in
  insert_into_persistent_db mdb_doc "model_info" model_id model_id.

(** The test [redis_result is 'None'] compares the identity of what Redis
    returned with a string literal and never holds; the miss is [None]. *)
Definition _get_model (model_id : value) : M Model :=
  let redis_key_model := make_redis_model_key model_id in
  let* redis_result := rdb_get redis_key_model in
  let* redis_result :=
    match redis_result with
    | None =>
        let* mdb_result :=
          retrieve_from_persistent_db "model_info" VNone model_id VNone None in
        match mdb_result with
        | [] => raise (ValueError (ModelNotFound model_id))
        | first :: _ =>
            let* model := lift (obj_getitem (ODict first) (Some "model")) in
            let* _ := rdb_set redis_key_model model in
            rdb_get redis_key_model
        end
    | Some _ => ret redis_result
    end in
  match redis_result with
  | None => raise TypeError
  | Some blob =>
      match loads_base64 blob with
      | Some m => ret m
      | None => raise DecodeError
      end
  end.

(** [model.predict(features)] or [model.predict_proba(features)] on the
    payload behind [features]. *)
Definition invoke (model : Model) (proba : bool) (features : loc) : M value :=
  let* o := load features in
  λ s, (Ok (if proba then model_predict_proba model o else model_predict model o),
        log (EvInvoke proba) s).

(** The conversion of array outputs to nested lists before saving. *)
Definition pred_for_saving (prediction : value) : value :=
  match prediction with
  | VArray items =>
      VList ((λ item, match item with VArray l => VList l | _ => item end) <$> items)
  | _ => prediction
  end.

Definition is_frame (o : object) : bool :=
  match o with OFrame _ => true | ODict _ => false end.

Definition _predict (features : loc) (model_id row_id : value) (proba : bool)
  : M value :=
  let* features := copy features in
  if is_none row_id && bool_decide (default_row_id_field self = None)
  then raise (ValueError MissingRowIdPredict)
  else
    let* model := _get_model model_id in
    let* row_id :=
      if is_none row_id then
        let* o := load features in
        lift (obj_getitem o (default_row_id_field self))
      else ret row_id in
    let* _ := insert_into_persistent_db features "live_features" row_id model_id in
    let* prediction := invoke model proba features in
    let pred_doc :=
      [ ("prediction", pred_for_saving prediction);
        ("row_id", row_id);
        ("model_id", model_id) ] in
    let* o := load features in
    let* pred_doc :=
      if is_frame o
      then let* df := lift (frame_of_dict pred_doc) in alloc (OFrame df)
      else alloc (ODict (list_to_map pred_doc)) in
    let* _ := insert_into_persistent_db pred_doc "live_predictions" row_id model_id in
    ret prediction.

Definition predict (model_id : value) (features : loc) (row_id : value) : M value :=
  _predict features model_id row_id false.

Definition predict_proba (model_id : value) (features : loc) (row_id : value) : M value :=
  _predict features model_id row_id true.

Definition add_label (row_id model_id label : value) : M unit :=
  let label_doc :=
    [ ("row_id", row_id); ("model_id", model_id); ("label", label) ] in
  let* label_doc :=
    if negb (is_number_or_str row_id) then
      let* label_doc :=
        match model_id with
        | VStr _ =>
            match seq_items row_id with
            | Some ids =>
                ret [ ("row_id", row_id);
                      ("model_id", VList (replicate (length ids) model_id));
                      ("label", label) ]
            | None => raise TypeError
            end
        | _ => ret label_doc
        end in
      let* df := lift (frame_of_dict label_doc) in
      alloc (OFrame df)
    else alloc (ODict (list_to_map label_doc)) in
  let* o := load label_doc in
  let* rid := lift (obj_getitem o (Some "row_id")) in
  let* mid := lift (obj_getitem o (Some "model_id")) in
  insert_into_persistent_db label_doc "live_labels" rid mid.

(** [match_training_and_live] is declared without [self] and reads its
    local [row_id] before any assignment to it: the parameter is called
    [row_id_field].  A local that is not bound yet is [None] here, and
    reading it raises, as reading the undeclared [self] would.  [pd_merge]
    is [pd.merge(left, right, on=key, how='left')]. *)
Variable pd_merge : dataframe → dataframe → value → dataframe.

Definition read_local (name : string) (binding : option value) : result value :=
  match binding with
  | Some v => Ok v
  | None => Raise (UnboundLocalError name)
  end.

Definition match_training_and_live (df_train df_live : dataframe)
    (row_id_field : value) : result dataframe :=
  let row_id : option value := None in
  match read_local "row_id" row_id with
  | Raise e => Raise e
  | Ok v =>
      if is_none v
      then Raise (NameError "self")
      else Ok (pd_merge df_live df_train v)
  end.

End Methods.

Arguments make_redis_model_key : simpl never.

(** ** Vocabulary of the statements *)

(** The cell that [df[c] = v] puts in row [i]. *)
Definition cell (v : value) (i : nat) : value :=
  match seq_items v with
  | Some l => default VNaN (l !! i)
  | None => v
  end.

(** A list-like identifier has one item per row of the table. *)
Definition aligned (n : nat) (v : value) : Prop :=
  ∀ l, seq_items v = Some l → length l = n.

(** The identity of a table can be resolved: each identity column is there
    already, or is given (one value, or one per row), or, for [row_id], the
    configured default field is a column that survives the removal of the
    internal identifier columns. *)
Definition identity_resolvable (self : Concordia) (f : dataframe)
    (row_id model_id : value) : Prop :=
  ("row_id" ∈ columns f
   ∨ (row_id ≠ VNone ∧ aligned (nrows f) row_id)
   ∨ (row_id = VNone
      ∧ ∃ c, default_row_id_field self = Some c ∧ c ∈ columns f
             ∧ c ≠ "_id" ∧ c ≠ "_id_"))
  ∧ ("model_id" ∈ columns f
     ∨ (model_id ≠ VNone ∧ aligned (nrows f) model_id)).

(** The document a flat payload [d] gives rise to at clock [t]. *)
Definition stored_doc (d : record) (t : nat) (rid mid : value) : record :=
  asscalar_items
    (<["model_id" := mid]>
       (<["row_id" := rid]>
          (<["_concordia_created_at" := VTime t]> (delete "_id_" (delete "_id" d))))).

(** The table that [insert_into_persistent_db] works on before identity
    resolution: internal identifier columns removed, creation time stamped. *)
Definition strip_ids (f : dataframe) : dataframe :=
  let f := if bool_decide ("_id" ∈ columns f) then del_column f "_id" else f in
  if bool_decide ("_id_" ∈ columns f) then del_column f "_id_" else f.

Definition stamp (t : nat) (f : dataframe) : dataframe :=
  mkFrame (add_column (columns f) "_concordia_created_at")
          ((λ r, <["_concordia_created_at" := VTime t]> r) <$> rows f).

(** Row [i] after the identity columns that [cols] lacks were assigned. *)
Definition resolve_row (cols : list string) (row_id model_id : value)
    (i : nat) (r : record) : record :=
  let r := if bool_decide ("row_id" ∈ cols) || is_none row_id then r
           else <["row_id" := cell row_id i]> r in
  if bool_decide ("model_id" ∈ cols) || is_none model_id then r
  else <["model_id" := cell model_id i]> r.

(** The documents a table gives rise to at clock [t]. *)
Definition stored_rows (f : dataframe) (t : nat) (row_id model_id : value)
  : list record :=
  let f := stamp t (strip_ids f) in
  imap (resolve_row (columns f) row_id model_id) (rows f).

(** The keys the ingestion pipeline itself removes or writes. *)
Definition pipeline_keys : list string :=
  ["_id"; "_id_"; "_concordia_created_at"; "row_id"; "model_id"].

(** The identifiers that a retrieval asks for are those the document holds
    in its [row_id] and [model_id] fields; [None] asks for nothing. *)
Definition carries (row_id model_id : value) (d : record) : Prop :=
  (row_id ≠ VNone → d !! "row_id" = Some row_id)
  ∧ (model_id ≠ VNone → d !! "model_id" = Some model_id).

(** The number of documents a payload stands for: one for a flat payload,
    one per row for a table. *)
Definition payload_rows (o : object) : nat :=
  match o with
  | ODict _ => 1
  | OFrame f => nrows f
  end.

(** The steps of a prediction call that an event belongs to. *)
Inductive step : Type := ResolveModel | LogFeatures | InvokeModel | LogPrediction.

Definition step_of (e : event) : option step :=
  match e with
  | EvCacheGet _ | EvCacheSet _ => Some ResolveModel
  | EvFind c => if String.eqb c "model_info" then Some ResolveModel else None
  | EvInsert c _ =>
      if String.eqb c "live_features" then Some LogFeatures
      else if String.eqb c "live_predictions" then Some LogPrediction
      else None
  | EvInvoke _ => Some InvokeModel
  end.

Definition in_step (st : step) (evs : list event) : Prop :=
  Forall (λ e, step_of e = Some st) evs.

(** What a state looks like after a batch of documents went into one
    collection and nothing else happened. *)
Record appended (vt : string) (recs : list record) (s s' : state) : Prop := {
  app_heap : heap s' = heap s;
  app_rdb : rdb s' = rdb s;
  app_clock : clock s' = clock s;
  app_here : collection s' vt = collection s vt ++ recs;
  app_elsewhere : ∀ vt', vt' ≠ vt → collection s' vt' = collection s vt';
  app_trace : ∃ evs, trace s' = trace s ++ evs
                     ∧ Forall (λ e, ∃ n, e = EvInsert vt n) evs
}.

(** The effect of [_insert_df_into_db] on a table held at [df]. *)
Record batch_effect (df : loc) (vt : string) (recs : list record)
    (s s' : state) : Prop := {
  be_rdb : rdb s' = rdb s;
  be_clock : clock s' = clock s;
  be_heap : ∀ l, l ≠ df → heap s' !! l = heap s !! l;
  be_here : collection s' vt = collection s vt ++ recs;
  be_elsewhere : ∀ vt', vt' ≠ vt → collection s' vt' = collection s vt';
  be_trace : ∃ evs, trace s' = trace s ++ evs
                    ∧ Forall (λ e, ∃ n, e = EvInsert vt n) evs
}.

(** The effect of [insert_into_persistent_db]: documents appended to one
    collection, the clock read once, no object that existed before the call
    changed. *)
Record ingested (vt : string) (recs : list record) (s s' : state) : Prop := {
  ing_rdb : rdb s' = rdb s;
  ing_clock : clock s' = S (clock s);
  ing_heap : ∀ l o, heap s !! l = Some o → heap s' !! l = Some o;
  ing_here : collection s' vt = collection s vt ++ recs;
  ing_elsewhere : ∀ vt', vt' ≠ vt → collection s' vt' = collection s vt';
  ing_trace : ∃ evs, trace s' = trace s ++ evs
                     ∧ Forall (λ e, ∃ n, e = EvInsert vt n) evs
}.

(** The documents of [model_info] that a lookup of [id] gets back. *)
Definition entries_of (id : string) (s : state) : list record :=
  List.filter (matches (query_params VNone (VStr id) VNone None))
              (collection s "model_info").

(** [respects R m]: whatever the outcome of [m], normal or exceptional, the
    state it leaves is related by [R] to the state it started in. *)
Definition respects {A} (R : state → state → Prop) (m : M A) : Prop :=
  ∀ s, R s (m s).2.

(** Relations on the two stores and the trace: a step that touches only the
    heap and the clock is in them, and they compose. *)
Class StoreRel (R : state → state → Prop) : Prop := {
  rel_local : ∀ s s', rdb s' = rdb s → mdb s' = mdb s → trace s' = trace s → R s s';
  rel_trans : ∀ s1 s2 s3, R s1 s2 → R s2 s3 → R s1 s3
}.

(** The run left the durable store as it was. *)
Definition same_mdb (s s' : state) : Prop := mdb s' = mdb s.

(** [keeps D m Q]: started in a heap that holds the objects [D], the run of
    [m] leaves each of them as it was, whatever the outcome; a value it
    returns satisfies [Q]. *)
Definition keeps (D : gset loc) {A} (m : M A) (Q : A → Prop) : Prop :=
  ∀ s, D ⊆ dom (heap s) →
    D ⊆ dom (heap (m s).2)
    ∧ (∀ l, l ∈ D → heap (m s).2 !! l = heap s !! l)
    ∧ ∀ a, (m s).1 = Ok a → Q a.

(** ** Further vocabulary *)

(** The field that carries the [$gte] filter of a query. *)
Definition date_key (date_field : option string) : string :=
  default "_concordia_created_at" date_field.

(** The identifier that [check_row_id] and [check_model_id] start from:
    the item at [idx] of a list, the argument itself otherwise. *)
Definition picked (id : value) (idx : option nat) : result value :=
  match id with
  | VList l => getindex l idx
  | _ => Ok id
  end.

(** [np.asscalar] where it applies, as in the conversion loops. *)
Definition unboxed (v : value) : value :=
  if is_np_generic v then asscalar v else v.

(** A flat payload after the removal of the internal identifiers and the
    time stamp, as identity resolution sees it. *)
Definition stamped (d : record) (t : nat) : record :=
  <["_concordia_created_at" := VTime t]> (delete "_id_" (delete "_id" d)).

(** The run touched neither store and recorded nothing. *)
Definition quiet (s s' : state) : Prop :=
  rdb s' = rdb s ∧ mdb s' = mdb s ∧ trace s' = trace s.

(** [fails_quietly m]: when [m] raises, it has touched neither store. *)
Definition fails_quietly {A} (m : M A) : Prop :=
  ∀ s e s', m s = (Raise e, s') → quiet s s'.

(** Every collection of the final store extends what it held. *)
Definition append_only (s s' : state) : Prop :=
  ∀ vt, ∃ recs, collection s' vt = collection s vt ++ recs.

(** The sizes of the [insert_many] calls that carry [n] documents: full
    chunks, then the remainder. *)
Definition chunk_lengths (n : nat) : list nat :=
  replicate (n / chunk_size) chunk_size
  ++ (if n mod chunk_size =? 0 then [] else [n mod chunk_size]).

(** The text Redis keeps for a value it accepts. *)
Definition redis_text (v : value) : option string :=
  match v with
  | VStr b => Some b
  | VInt z | VNp z => Some (pretty z)
  | _ => None
  end.

(** [dill.loads(codecs.decode(blob, 'base64'))] as an outcome. *)
Definition decoded `{Externals} (blob : string) : result Model :=
  match loads_base64 blob with
  | Some m => Ok m
  | None => Raise DecodeError
  end.

(** The document that [_predict] builds for a prediction. *)
Definition prediction_doc (prediction row_id model_id : value) : record :=
  list_to_map [ ("prediction", pred_for_saving prediction);
                ("row_id", row_id);
                ("model_id", model_id) ].

(** The [model_id] entry of the table of labels: a string is repeated once
    per row identifier. *)
Definition label_model_column (model_id : value) (n : nat) : value :=
  match model_id with
  | VStr _ => VList (replicate n model_id)
  | _ => model_id
  end.

(** The field [k] of a document holds one value, not a list of values. *)
Definition single_valued (k : string) (d : record) : Prop :=
  ∀ l, d !! k ≠ Some (VList l).

(** The values that the driver of the store encodes: [None], numbers (an
    integer within 64 bits), text, dates, and lists of such values.  It
    refuses numpy scalars, arrays and Series, at any depth. *)
Fixpoint bson_value (v : value) : bool :=
  match v with
  | VNone | VNaN | VStr _ | VTime _ => true
  | VInt z => (- 2 ^ 63 <=? z)%Z && (z <? 2 ^ 63)%Z
  | VList l => forallb bson_value l
  | VNp _ | VSeries _ | VArray _ => false
  end.

Fixpoint has_char (c : ascii) (s : string) : bool :=
  match s with
  | EmptyString => false
  | String a s => Ascii.eqb a c || has_char c s
  end.

(** The field names that the driver lets into a stored document: no dot, no
    null character, no leading dollar sign. *)
Definition bson_key (k : string) : bool :=
  negb (has_char "." k) && negb (has_char Ascii.zero k)
  && match k with String "$" _ => false | _ => true end.

(** A document that the driver encodes. *)
Definition bson_document (d : record) : Prop :=
  map_Forall (λ k v, bson_key k = true ∧ bson_value v = true) d.

(** [raises_only P m]: every exception that [m] raises satisfies [P]. *)
Definition raises_only {A} (P : exn → Prop) (m : M A) : Prop :=
  ∀ s e s', m s = (Raise e, s') → P e.

(** The [ValueError]s of the ingestion pipeline: the two identity errors of
    the code and the refusal by pandas of a column of the wrong length. *)
Definition ingestion_error (e : exn) : Prop :=
  ∀ msg, e = ValueError msg →
    msg = MissingRowId ∨ msg = MissingModelId ∨ msg = LengthMismatch.

(** ** A concrete instance of the collaborators *)

(** Two constant classifiers, encoded as two fixed blobs. *)
Definition toy_dumps (m : bool) : string := if m then "gANLAS4=" else "gANLAC4=".
Definition toy_loads (b : string) : option bool :=
  if String.eqb b "gANLAS4=" then Some true
  else if String.eqb b "gANLAC4=" then Some false
  else None.
Definition toy_predict (m : bool) (_ : object) : value :=
  VInt (if m then 1 else 0)%Z.
Definition toy_predict_proba (m : bool) (_ : object) : value :=
  VArray [VInt (if m then 0 else 1)%Z; VInt (if m then 1 else 0)%Z].

#[local] Instance toy : Externals := {|
  Model := bool;
  model_predict := toy_predict;
  model_predict_proba := toy_predict_proba;
  dumps_base64 := toy_dumps;
  loads_base64 := toy_loads;
  json_dumps := λ _, "{}"
|}.

Definition empty_state : state := mkState ∅ ∅ ∅ 0 [].

(** A state whose heap holds the given objects at locations 0, 1, ... *)
Definition with_objects (os : list object) : state :=
  set_heap (list_to_map (imap (λ i o, (i, o)) os)) empty_state.

(** Two passengers, as a table and as flat payloads. *)
Definition allen : record := {[ "name" := VStr "Allen"; "age" := VInt 29 ]}.
Definition braund : record := {[ "name" := VStr "Braund"; "age" := VInt 22 ]}.
Definition passengers : dataframe := mkFrame ["name"; "age"] [allen; braund].

(** A store that holds two [model_info] documents for [titanic_1], added at
    times 0 and 2, and a cache without an entry for it. *)
Definition entry (t : nat) (m : bool) : record :=
  {[ "model_id" := VStr "titanic_1"; "model" := VStr (toy_dumps m);
     "date_added" := VTime t ]}.
Definition two_entries : state :=
  mkState ∅ ∅ {[ "model_info" := [entry 0 true; entry 2 false] ]} 4 [].

(** A table of [n] equal rows. *)
Definition table_of (n : nat) : dataframe :=
  mkFrame ["age"] (replicate n {[ "age" := VInt 29 ]}).

(** The instance of the test suite: [default_row_id_field='name']. *)
Definition titanic : Concordia := mkConcordia (Some "name").

(** An instance without a default row-id field. *)
Definition bare : Concordia := mkConcordia None.

(** A deployment that serves the model [true] as [titanic_1]; location 1
    holds the payload of a caller. *)
Definition serving (payload : object) : state :=
  (add_model titanic true (VStr "titanic_1") VNone (Some 0) VNone
     (with_objects [ODict {[ "age" := VNp 3%Z ]}; payload])).2.

(** The state of the store and the cache after the identifier [titanic_1]
    was registered twice, first with the model [first], then with [second],
    and its cache entry was evicted. *)
Definition registered_twice (first second : bool) : state :=
  let s0 := with_objects [ODict {[ "age" := VNp 3%Z ]}] in
  let s1 := (add_model titanic first (VStr "titanic_1") VNone (Some 0) VNone s0).2 in
  let s2 := (add_model titanic second (VStr "titanic_1") VNone (Some 0) VNone s1).2 in
  rdb_delete (make_redis_model_key (VStr "titanic_1")) s2.

(** A flat payload and a table that carry identifiers of their own. *)
Definition tagged : record :=
  {[ "row_id" := VStr "r0"; "model_id" := VStr "m0"; "age" := VInt 29 ]}.
Definition enrolled : dataframe :=
  mkFrame ["row_id"; "model_id"; "age"]
    [ {[ "row_id" := VStr "r1"; "model_id" := VStr "m0"; "age" := VInt 29 ]};
      {[ "row_id" := VStr "r2"; "model_id" := VStr "m0"; "age" := VInt 22 ]} ].

(** A store whose only [model_info] document holds a blob that is not an
    encoded model, and a cache without an entry for it. *)
Definition corrupt_entry : record :=
  {[ "model_id" := VStr "titanic_1"; "model" := VStr "bm90IGEgbW9kZWw=" ]}.
Definition corrupt_store : state :=
  mkState ∅ ∅ {[ "model_info" := [corrupt_entry] ]} 1 [].

(** * Properties *)

(** ** Running monadic code *)

Lemma bind_ok {A B} (m : M A) (k : A → M B) s a s' :
  m s = (Ok a, s') → bind m k s = k a s'.
Proof. intros E. unfold bind. by rewrite E. Qed.

Lemma bind_raise {A B} (m : M A) (k : A → M B) s e s' :
  m s = (Raise e, s') → bind m k s = (Raise e, s').
Proof. intros E. unfold bind. by rewrite E. Qed.

Lemma chunk_size_pos : 0 < chunk_size.
Proof. unfold chunk_size. lia. Qed.

Lemma collection_set_mdb s vt docs :
  collection (set_mdb (<[vt := docs]> (mdb s)) s) vt = docs.
Proof. unfold collection. simpl. by rewrite lookup_insert_eq. Qed.

Lemma collection_set_mdb_ne s vt vt' docs :
  vt' ≠ vt → collection (set_mdb (<[vt := docs]> (mdb s)) s) vt' = collection s vt'.
Proof. intros Hne. unfold collection. simpl. by rewrite lookup_insert_ne. Qed.

Lemma appended_nil vt s : appended vt [] s s.
Proof.
  split; try done.
  - by rewrite app_nil_r.
  - exists []. by rewrite app_nil_r.
Qed.

Lemma appended_insert_many vt ds s :
  ds ≠ [] → ∃ s', mdb_insert_many vt ds s = (Ok tt, s') ∧ appended vt ds s s'.
Proof.
  intros Hne. destruct ds as [|d ds]; [done|].
  eexists. split; [reflexivity|]. split; simpl; try done.
  - apply collection_set_mdb.
  - intros vt' Hvt. by apply collection_set_mdb_ne.
  - eexists. split; [done|]. repeat constructor. by eexists.
Qed.

Lemma appended_trans vt r1 r2 s1 s2 s3 :
  appended vt r1 s1 s2 → appended vt r2 s2 s3 → appended vt (r1 ++ r2) s1 s3.
Proof.
  intros [Hh1 Hr1 Hc1 Ha1 He1 (e1 & Ht1 & F1)] [Hh2 Hr2 Hc2 Ha2 He2 (e2 & Ht2 & F2)].
  split; try congruence.
  - rewrite Ha2, Ha1. by rewrite app_assoc.
  - intros vt' Hvt. rewrite He2, He1; done.
  - exists (e1 ++ e2). rewrite Ht2, Ht1, app_assoc. split; [done|]. by apply Forall_app.
Qed.

Section Chunks.
Context `{Externals}.

(** The chunk loop terminates within its bound and hands every row from
    [chunk_min_idx] on to the store, once and in order. *)
Lemma insert_chunks_run fuel df vt i s :
  nrows df - i ≤ fuel →
  ∃ s', insert_chunks fuel df vt i s = (Ok tt, s')
        ∧ appended vt (drop i (rows df)) s s'.
Proof.
  revert i s. induction fuel as [|fuel IH]; intros i s Hfuel.
  - exists s. simpl. destruct (Nat.ltb_spec i (nrows df)); [lia|]. simpl.
    split; [done|]. rewrite drop_ge by (unfold nrows in *; lia). apply appended_nil.
  - simpl. destruct (Nat.ltb_spec i (nrows df)) as [Hlt|Hge]; simpl.
    + pose proof chunk_size_pos as Hpos.
      set (chunk := take (Nat.min (nrows df) (i + chunk_size) - i) (drop i (rows df))).
      assert (Hchunk : chunk ≠ []).
      { intros E. apply (f_equal length) in E. unfold chunk in E.
        rewrite length_take, length_drop in E. unfold nrows in *. simpl in E. lia. }
      destruct (appended_insert_many vt chunk s Hchunk) as (s1 & E1 & A1).
      unfold to_dict_records, iloc. simpl. fold chunk.
      rewrite (bind_ok _ _ _ _ _ E1).
      destruct (IH (i + chunk_size) s1) as (s2 & E2 & A2); [lia|].
      exists s2. split; [done|].
      replace (drop i (rows df)) with (chunk ++ drop (i + chunk_size) (rows df)).
      { eapply appended_trans; eauto. }
      unfold chunk. destruct (Nat.le_gt_cases (i + chunk_size) (nrows df)) as [Hle|Hgt].
      * rewrite Nat.min_r by done.
        replace (i + chunk_size - i) with chunk_size by lia.
        rewrite <- drop_drop. apply take_drop.
      * rewrite Nat.min_l by lia.
        rewrite (drop_ge (rows df) (i + chunk_size)) by (unfold nrows in *; lia).
        rewrite app_nil_r. apply take_ge. rewrite length_drop. unfold nrows. lia.
    + exists s. split; [done|].
      rewrite drop_ge by (unfold nrows in *; lia). apply appended_nil.
Qed.
End Chunks.

(** ** Tables: column assignment *)

Lemma elem_of_add_column cols c x : x ∈ add_column cols c ↔ x ∈ cols ∨ x = c.
Proof.
  unfold add_column. case_bool_decide as Hc.
  - split; [by left|]. intros [ ? | -> ]; done.
  - rewrite elem_of_app, list_elem_of_singleton. done.
Qed.

Lemma elem_of_columns_strip_ids f x :
  x ∈ columns (strip_ids f) ↔ x ∈ columns f ∧ x ≠ "_id" ∧ x ≠ "_id_".
Proof.
  unfold strip_ids.
  assert (E1 : ∀ g c, x ∈ columns (if bool_decide (c ∈ columns g) then del_column g c else g)
                      ↔ x ∈ columns g ∧ x ≠ c).
  { intros g c. case_bool_decide as Hc; simpl.
    - rewrite list_elem_of_filter. tauto.
    - split; [|tauto]. intros Hx. split; [done|]. by intros ->. }
  rewrite E1, E1. tauto.
Qed.

Lemma nrows_strip_ids f : nrows (strip_ids f) = nrows f.
Proof.
  unfold strip_ids, nrows.
  repeat case_bool_decide; simpl; rewrite ?length_fmap; done.
Qed.

Lemma nrows_stamp t f : nrows (stamp t f) = nrows f.
Proof. unfold stamp, nrows. simpl. by rewrite length_fmap. Qed.

Lemma set_column_aligned df c v :
  aligned (nrows df) v →
  set_column df c v
  = Ok (mkFrame (add_column (columns df) c) (imap (λ i r, <[c := cell v i]> r) (rows df))).
Proof.
  intros Hal. unfold set_column, cell. destruct (seq_items v) as [l|] eqn:Hv.
  - specialize (Hal l Hv). rewrite Hal, Nat.eqb_refl. do 2 f_equal.
    apply list_eq. intros i. rewrite lookup_zip_with, list_lookup_imap.
    destruct (rows df !! i) as [r|] eqn:Hr; simpl; [|done].
    destruct (l !! i) as [x|] eqn:Hx; simpl; [done|].
    apply lookup_lt_Some in Hr. apply lookup_ge_None in Hx.
    unfold nrows in Hal. lia.
  - do 2 f_equal. apply list_eq. intros i.
    rewrite list_lookup_fmap, list_lookup_imap. done.
Qed.

(** ** Heap steps *)

Lemma state_eta s : mkState (heap s) (rdb s) (mdb s) (clock s) (trace s) = s.
Proof. by destruct s. Qed.

Lemma load_run l o s : heap s !! l = Some o → load l s = (Ok o, s).
Proof. intros E. unfold load. by rewrite E. Qed.

Lemma copy_run l o s :
  heap s !! l = Some o →
  copy l s = (Ok (fresh (dom (heap s))), set_heap (<[fresh (dom (heap s)) := o]> (heap s)) s).
Proof. intros E. unfold copy. by rewrite (bind_ok _ _ _ _ _ (load_run _ _ _ E)). Qed.

Lemma setitem_run l k v o o' s :
  heap s !! l = Some o → obj_setitem o k v = Ok o' →
  setitem l k v s = (Ok tt, set_heap (<[l := o']> (heap s)) s).
Proof.
  intros E E'. unfold setitem.
  rewrite (bind_ok _ _ _ _ _ (load_run _ _ _ E)), E'. reflexivity.
Qed.

Lemma del_if_present_run l k o s :
  heap s !! l = Some o →
  del_if_present l k s
  = (Ok tt, set_heap (<[l := if obj_contains o k then obj_del o k else o]> (heap s)) s).
Proof.
  intros E. unfold del_if_present.
  rewrite (bind_ok _ _ _ _ _ (load_run _ _ _ E)).
  destruct (obj_contains o k); [done|].
  unfold ret, set_heap. rewrite insert_id by done. by rewrite state_eta.
Qed.

Lemma fresh_loc_new (s : state) l o :
  heap s !! l = Some o → l ≠ fresh (dom (heap s)).
Proof.
  intros E ->. apply (is_fresh (dom (heap s))). apply elem_of_dom. by eexists.
Qed.

(** ** The batch path *)

Lemma batch_effect_of_appended df vt recs h s s' :
  (∀ l, l ≠ df → h !! l = heap s !! l) →
  appended vt recs (set_heap h s) s' →
  batch_effect df vt recs s s'.
Proof.
  intros Hh [Hheap Hrdb Hclock Hhere Helse Htrace]. split; try done.
  intros l Hl. rewrite Hheap. simpl. by apply Hh.
Qed.

Lemma imap_same {A} (l : list A) : imap (λ _ x, x) l = l.
Proof.
  apply list_eq. intros i. rewrite list_lookup_imap. by destruct (l !! i).
Qed.

Lemma is_none_false v : v ≠ VNone → is_none v = false.
Proof. by destruct v. Qed.

Section Batch.
Context `{Externals}.
Variable self : Concordia.

Lemma load_frame_run l f s :
  heap s !! l = Some (OFrame f) → load_frame l s = (Ok f, s).
Proof.
  intros E. unfold load_frame. by rewrite (bind_ok _ _ _ _ _ (load_run _ _ _ E)).
Qed.

(** With a resolvable identity [_insert_df_into_db] returns normally and
    stores the rows of the table, identity columns filled in. *)
Lemma insert_df_run df f vt rid mid s :
  heap s !! df = Some (OFrame f) →
  ("row_id" ∈ columns f
   ∨ (rid ≠ VNone ∧ aligned (nrows f) rid)
   ∨ (rid = VNone ∧ default_row_id_field self ∈ Some <$> columns f)) →
  ("model_id" ∈ columns f ∨ (mid ≠ VNone ∧ aligned (nrows f) mid)) →
  ∃ s', _insert_df_into_db self df vt rid mid s = (Ok tt, s')
        ∧ batch_effect df vt (imap (resolve_row (columns f) rid mid) (rows f)) s s'.
Proof.
  intros Hdf Hrow Hmodel. unfold _insert_df_into_db.
  rewrite (bind_ok _ _ _ _ _ (load_frame_run _ _ _ Hdf)). cbv beta zeta.
  (* the row_id column *)
  set (g1 := λ (i : nat) (r : record),
         if bool_decide ("row_id" ∈ columns f) || is_none rid then r
         else <["row_id" := cell rid i]> r).
  assert (∃ f1,
    (if negb (bool_decide ("row_id" ∈ columns f)) then
       if negb (is_none rid) then setitem df "row_id" rid
       else if negb (bool_decide (default_row_id_field self ∈ Some <$> columns f))
            then raise (ValueError MissingRowId) else ret tt
     else ret tt) s = (Ok tt, set_heap (<[df := OFrame f1]> (heap s)) s)
    ∧ rows f1 = imap g1 (rows f)) as (f1 & E1 & Hrows1).
  { subst g1. case_bool_decide as Hr; simpl.
    - exists f. split.
      + unfold set_heap, ret. rewrite insert_id by done. by rewrite state_eta.
      + by rewrite imap_same.
    - destruct Hrow as [Hin|[[Hn Hal]|[-> Hd]]]; [done| |].
      + rewrite (is_none_false _ Hn). simpl.
        eexists. split.
        { eapply setitem_run; [done|]. simpl. rewrite set_column_aligned by done. done. }
        done.
      + simpl. rewrite bool_decide_eq_true_2 by done. simpl.
        exists f. split.
        * unfold set_heap, ret. rewrite insert_id by done. by rewrite state_eta.
        * by rewrite imap_same. }
  rewrite (bind_ok _ _ _ _ _ E1). cbv beta. clear E1.
  set (s1 := set_heap (<[df := OFrame f1]> (heap s)) s).
  assert (Hdf1 : heap s1 !! df = Some (OFrame f1)) by (simpl; apply lookup_insert_eq).
  assert (Hn1 : nrows f1 = nrows f).
  { unfold nrows. by rewrite Hrows1, length_imap. }
  (* the model_id column *)
  set (g2 := λ (i : nat) (r : record),
         if bool_decide ("model_id" ∈ columns f) || is_none mid then r
         else <["model_id" := cell mid i]> r).
  assert (∃ f2,
    (if negb (bool_decide ("model_id" ∈ columns f)) then
       if negb (is_none mid) then setitem df "model_id" mid
       else raise (ValueError MissingModelId)
     else ret tt) s1 = (Ok tt, set_heap (<[df := OFrame f2]> (heap s)) s)
    ∧ rows f2 = imap g2 (rows f1)) as (f2 & E2 & Hrows2).
  { subst g2. case_bool_decide as Hm; simpl.
    - exists f1. split; [done|]. by rewrite imap_same.
    - destruct Hmodel as [Hin|[Hn Hal]]; [done|].
      rewrite (is_none_false _ Hn). simpl.
      eexists. split.
      { erewrite setitem_run; [|done|].
        2:{ simpl. rewrite set_column_aligned by (by rewrite Hn1). done. }
        unfold s1, set_heap. simpl. by rewrite insert_insert_eq. }
      done. }
  rewrite (bind_ok _ _ _ _ _ E2). cbv beta. clear E2.
  set (s2 := set_heap (<[df := OFrame f2]> (heap s)) s).
  assert (Hdf2 : heap s2 !! df = Some (OFrame f2)) by (simpl; apply lookup_insert_eq).
  rewrite (bind_ok _ _ _ _ _ (load_frame_run _ _ _ Hdf2)).
  destruct (insert_chunks_run (nrows f2) f2 vt 0 s2) as (s' & -> & Happ); [lia|].
  exists s'. split; [done|].
  eapply batch_effect_of_appended.
  2:{ replace (imap (resolve_row (columns f) rid mid) (rows f)) with (drop 0 (rows f2));
        [exact Happ|].
      rewrite drop_0, Hrows2, Hrows1. apply list_eq. intros i.
      rewrite !list_lookup_imap. destruct (rows f !! i); reflexivity. }
  intros l Hl. by rewrite lookup_insert_ne.
Qed.
End Batch.

(** ** The ingestion entry point *)

Ltac norm_state :=
  cbn [heap rdb mdb clock trace set_heap set_rdb set_mdb tick log].

Ltac flat_state :=
  unfold set_heap, set_rdb, set_mdb, tick, log; cbn [heap rdb mdb clock trace].

Lemma strip_step_frame f k :
  (if obj_contains (OFrame f) k then obj_del (OFrame f) k else OFrame f)
  = OFrame (if bool_decide (k ∈ columns f) then del_column f k else f).
Proof. simpl. by case_bool_decide. Qed.

Lemma strip_step_dict d k :
  (if obj_contains (ODict d) k then obj_del (ODict d) k else ODict d)
  = ODict (delete k d).
Proof.
  simpl. case_bool_decide as Hk; [done|].
  rewrite delete_id; [done|]. destruct (d !! k) eqn:E; [|done].
  exfalso. apply Hk. by eexists.
Qed.

Section Ingestion.
Context `{Externals}.
Variable self : Concordia.

Lemma check_row_id_run val rid idx o o' s :
  is_list rid = false → is_none rid = false →
  heap s !! val = Some o → obj_setitem o "row_id" rid = Ok o' →
  check_row_id self val rid idx s = (Ok val, set_heap (<[val := o']> (heap s)) s).
Proof.
  intros Hl Hn Ho Hset. unfold check_row_id.
  destruct rid; try done;
    (unfold bind, ret; simpl; by rewrite (setitem_run _ _ _ _ _ _ Ho Hset)).
Qed.

Lemma check_model_id_run val mid idx o o' s :
  is_list mid = false → is_none mid = false →
  heap s !! val = Some o → obj_setitem o "model_id" mid = Ok o' →
  check_model_id val mid idx s = (Ok val, set_heap (<[val := o']> (heap s)) s).
Proof.
  intros Hl Hn Ho Hset. unfold check_model_id.
  destruct mid; try done;
    (unfold bind, ret; simpl; by rewrite (setitem_run _ _ _ _ _ _ Ho Hset)).
Qed.

(** A flat payload with explicit identifiers is always stored, as one
    document, through a private copy. *)
Lemma insert_dict_run val d vt rid mid s :
  heap s !! val = Some (ODict d) →
  is_list rid = false → is_none rid = false →
  is_list mid = false → is_none mid = false →
  insert_into_persistent_db self val vt rid mid s
  = (Ok tt,
     mkState (<[fresh (dom (heap s)) := ODict (stored_doc d (clock s) rid mid)]> (heap s))
             (rdb s)
             (<[vt := collection s vt ++ [stored_doc d (clock s) rid mid]]> (mdb s))
             (S (clock s))
             (trace s ++ [EvInsert vt 1])).
Proof.
  intros Hval Hlr Hnr Hlm Hnm. unfold insert_into_persistent_db.
  rewrite (bind_ok _ _ _ _ _ (copy_run _ _ _ Hval)). cbv beta.
  set (l := fresh (dom (heap s))).
  erewrite bind_ok; [|apply del_if_present_run; simpl; apply lookup_insert_eq].
  rewrite strip_step_dict. cbv beta. norm_state. rewrite insert_insert_eq.
  erewrite bind_ok; [|apply del_if_present_run; simpl; apply lookup_insert_eq].
  rewrite strip_step_dict. cbv beta. norm_state. rewrite insert_insert_eq.
  erewrite bind_ok; [|reflexivity]. cbv beta. norm_state.
  erewrite bind_ok; [|eapply setitem_run; [simpl; apply lookup_insert_eq|reflexivity]].
  cbv beta. norm_state. rewrite insert_insert_eq.
  erewrite bind_ok; [|apply load_run; simpl; apply lookup_insert_eq]. cbv beta iota.
  erewrite bind_ok;
    [|eapply check_row_id_run; [done|done|simpl; apply lookup_insert_eq|reflexivity]].
  cbv beta. norm_state. rewrite insert_insert_eq.
  erewrite bind_ok;
    [|eapply check_model_id_run; [done|done|simpl; apply lookup_insert_eq|reflexivity]].
  cbv beta. norm_state. rewrite insert_insert_eq.
  erewrite bind_ok; [|apply load_run; simpl; apply lookup_insert_eq]. cbv beta iota.
  erewrite bind_ok; [|reflexivity]. cbv beta. norm_state. rewrite insert_insert_eq.
  reflexivity.
Qed.

(** A table with a resolvable identity is always stored, every row as one
    document, through a private copy. *)
Lemma insert_frame_run val f vt rid mid s :
  heap s !! val = Some (OFrame f) →
  identity_resolvable self f rid mid →
  ∃ s', insert_into_persistent_db self val vt rid mid s = (Ok tt, s')
        ∧ ingested vt (stored_rows f (clock s) rid mid) s s'.
Proof.
  intros Hval [Hrow Hmodel]. unfold insert_into_persistent_db.
  rewrite (bind_ok _ _ _ _ _ (copy_run _ _ _ Hval)). cbv beta.
  set (l := fresh (dom (heap s))).
  erewrite bind_ok; [|apply del_if_present_run; simpl; apply lookup_insert_eq].
  rewrite strip_step_frame. cbv beta. norm_state.
  erewrite bind_ok; [|apply del_if_present_run; simpl; apply lookup_insert_eq].
  rewrite strip_step_frame. cbv beta. norm_state. fold (strip_ids f).
  erewrite bind_ok; [|reflexivity]. cbv beta. norm_state.
  erewrite bind_ok; [|eapply setitem_run; [simpl; apply lookup_insert_eq|reflexivity]].
  cbv beta. norm_state.
  erewrite bind_ok; [|apply load_run; simpl; apply lookup_insert_eq]. cbv beta iota.
  fold (stamp (clock s) (strip_ids f)).
  set (f3 := stamp (clock s) (strip_ids f)).
  match goal with |- context [_insert_df_into_db _ _ _ _ _ ?st] => set (s3 := st) end.
  assert (Hn3 : nrows f3 = nrows f) by (unfold f3; by rewrite nrows_stamp, nrows_strip_ids).
  assert (Hcol : ∀ c, c ∈ columns f → c ≠ "_id" → c ≠ "_id_" → c ∈ columns f3).
  { intros c Hc H1 H2. unfold f3. simpl. apply elem_of_add_column. left.
    by apply elem_of_columns_strip_ids. }
  destruct (insert_df_run self l f3 vt rid mid s3) as (s' & E & B).
  - simpl. apply lookup_insert_eq.
  - destruct Hrow as [Hin|[[Hn Hal]|[-> (c & Hc & Hin & H1 & H2)]]].
    + left. by apply Hcol.
    + right; left. by rewrite Hn3.
    + right; right. split; [done|]. rewrite Hc. apply list_elem_of_fmap_2. by apply Hcol.
  - destruct Hmodel as [Hin|[Hn Hal]].
    + left. by apply Hcol.
    + right. by rewrite Hn3.
  - exists s'. split; [exact E|].
    destruct B as [Brdb Bclock Bheap Bhere Belse Btrace].
    split; try done.
    intros l0 o Hl0. rewrite Bheap by (by apply (fresh_loc_new s l0 o)).
    simpl. rewrite !lookup_insert_ne by (symmetry; by apply (fresh_loc_new s l0 o)). done.
Qed.
End Ingestion.

(** ** The documents of a table *)

Lemma length_stored_rows f t rid mid : length (stored_rows f t rid mid) = nrows f.
Proof.
  unfold stored_rows. rewrite length_imap. fold (nrows (stamp t (strip_ids f))).
  by rewrite nrows_stamp, nrows_strip_ids.
Qed.

Lemma rows_strip_ids_lookup f i row :
  rows f !! i = Some row →
  ∃ row', rows (strip_ids f) !! i = Some row'
          ∧ ∀ k, k ≠ "_id" → k ≠ "_id_" → row' !! k = row !! k.
Proof.
  intros Hrow. unfold strip_ids.
  repeat case_bool_decide; simpl; rewrite ?list_lookup_fmap, Hrow; simpl;
    eexists; (split; [reflexivity|]); intros k H1 H2;
    rewrite ?lookup_delete_ne by done; done.
Qed.

Lemma identity_column_kept f c :
  c = "row_id" ∨ c = "model_id" →
  bool_decide (c ∈ add_column (columns (strip_ids f)) "_concordia_created_at")
  = bool_decide (c ∈ columns f).
Proof.
  intros Hc. apply bool_decide_ext.
  rewrite elem_of_add_column, elem_of_columns_strip_ids.
  destruct Hc as [-> | ->]; (split; [intros [(? & _)|?]; done | intros ?; left; done]).
Qed.

(** Row [i] of a table becomes document [i]: the payload fields are kept,
    the creation time is stamped, and an identity column the table lacks
    holds the identifier given for that row. *)
Lemma stored_rows_lookup f t rid mid i row :
  rows f !! i = Some row →
  ∃ r, stored_rows f t rid mid !! i = Some r
       ∧ (∀ k, k ∉ pipeline_keys → r !! k = row !! k)
       ∧ ("row_id" ∉ columns f → rid ≠ VNone → r !! "row_id" = Some (cell rid i))
       ∧ ("model_id" ∉ columns f → mid ≠ VNone → r !! "model_id" = Some (cell mid i)).
Proof.
  intros Hrow. destruct (rows_strip_ids_lookup f i row Hrow) as (row' & Hrow' & Hkeep).
  unfold stored_rows. cbv zeta. rewrite list_lookup_imap.
  unfold stamp at 2. cbn [rows]. rewrite list_lookup_fmap, Hrow'. simpl.
  eexists. split; [reflexivity|]. unfold resolve_row.
  rewrite !identity_column_kept by tauto.
  repeat split.
  - intros k Hk. unfold pipeline_keys in Hk.
    assert (k ≠ "_id" ∧ k ≠ "_id_" ∧ k ≠ "_concordia_created_at"
            ∧ k ≠ "row_id" ∧ k ≠ "model_id") as (K1 & K2 & K3 & K4 & K5).
    { repeat split; intros ->; apply Hk; set_solver. }
    destruct (_ || is_none mid), (_ || is_none rid);
      rewrite ?lookup_insert_ne by done; by apply Hkeep.
  - intros Hcol Hn. rewrite (bool_decide_eq_false_2 _ Hcol), (is_none_false _ Hn). simpl.
    destruct (_ || is_none mid); rewrite ?lookup_insert_ne by done;
      by rewrite lookup_insert_eq.
  - intros Hcol Hn. rewrite (bool_decide_eq_false_2 _ Hcol), (is_none_false _ Hn). simpl.
    by rewrite lookup_insert_eq.
Qed.

(** ** Queries *)

Lemma filter_all {A} (p : A → bool) (l : list A) :
  Forall (λ x, p x = true) l → List.filter p l = l.
Proof. induction 1 as [|x l Hx _ IH]; simpl; [done|]. by rewrite Hx, IH. Qed.

Lemma filter_none {A} (p : A → bool) (l : list A) :
  Forall (λ x, p x = false) l → List.filter p l = [].
Proof. induction 1 as [|x l Hx _ IH]; simpl; [done|]. by rewrite Hx, IH. Qed.

Lemma retrieve_run vt rid mid min_date date_field s :
  retrieve_from_persistent_db vt rid mid min_date date_field s
  = (Ok (List.filter (matches (query_params rid mid min_date date_field)) (collection s vt)),
     log (EvFind vt) s).
Proof. reflexivity. Qed.

Lemma query_params_model_id id :
  query_params VNone (VStr id) VNone None = {[ "model_id" := Equals (VStr id) ]}.
Proof.
  unfold query_params. cbn [is_none negb]. cbv zeta.
  rewrite delete_insert_eq. by apply delete_singleton_ne.
Qed.

Lemma matches_model_id id (d : record) :
  matches {[ "model_id" := Equals (VStr id) ]} d
  = match d !! "model_id" with
    | Some (VStr x) => String.eqb id x
    | _ => false
    end.
Proof.
  unfold matches. rewrite map_to_list_singleton. simpl. rewrite andb_true_r.
  destruct (d !! "model_id") as [[]|]; done.
Qed.

Lemma matches_model_id_true id (d : record) :
  d !! "model_id" = Some (VStr id) →
  matches {[ "model_id" := Equals (VStr id) ]} d = true.
Proof. intros E. rewrite matches_model_id, E. apply String.eqb_refl. Qed.

Lemma matches_model_id_false id (d : record) :
  d !! "model_id" ≠ Some (VStr id) →
  matches {[ "model_id" := Equals (VStr id) ]} d = false.
Proof.
  intros E. rewrite matches_model_id.
  destruct (d !! "model_id") as [[]|]; try done.
  destruct (String.eqb_spec id s); [by subst|done].
Qed.

(** *** Equality of values *)

Lemma value_nested_ind (P : value → Prop) :
  P VNone → P VNaN → (∀ z, P (VInt z)) → (∀ s, P (VStr s)) → (∀ t, P (VTime t)) →
  (∀ z, P (VNp z)) →
  (∀ l, Forall P l → P (VList l)) →
  (∀ l, Forall P l → P (VSeries l)) →
  (∀ l, Forall P l → P (VArray l)) →
  ∀ v, P v.
Proof.
  intros HNone HNaN HInt HStr HTime HNp HList HSeries HArray.
  fix IH 1. intros [ | | z | s | t | z | l | l | l];
    [exact HNone | exact HNaN | apply HInt | apply HStr | apply HTime | apply HNp
    | apply HList | apply HSeries | apply HArray];
    (induction l as [|x l IHl]; constructor; [apply IH | exact IHl]).
Qed.

Lemma value_eqb_items (l l' : list value) :
  Forall (λ a, ∀ b, value_eqb a b = true ↔ a = b) l →
  (value_eqb (VList l) (VList l') = true ↔ l = l')
  ∧ (value_eqb (VSeries l) (VSeries l') = true ↔ l = l')
  ∧ (value_eqb (VArray l) (VArray l') = true ↔ l = l').
Proof.
  intros Hl. revert l'. induction Hl as [|x l Hx _ IH]; intros [|y l'];
    try (repeat split; intros; done).
  destruct (IH l') as (IH1 & IH2 & IH3).
  change (value_eqb (VList (x :: l)) (VList (y :: l')))
    with (value_eqb x y && value_eqb (VList l) (VList l')).
  change (value_eqb (VSeries (x :: l)) (VSeries (y :: l')))
    with (value_eqb x y && value_eqb (VSeries l) (VSeries l')).
  change (value_eqb (VArray (x :: l)) (VArray (y :: l')))
    with (value_eqb x y && value_eqb (VArray l) (VArray l')).
  rewrite !andb_true_iff, Hx, IH1, IH2, IH3.
  assert (E : x = y ∧ l = l' ↔ x :: l = y :: l')
    by (split; [by intros [-> ->]|by intros [= -> ->]]).
  done.
Qed.

(** [value_eqb] decides equality of values. *)
Lemma value_eqb_eq a b : value_eqb a b = true ↔ a = b.
Proof.
  revert b. induction a as [ | | z | s | t | z | l IH | l IH | l IH]
    using value_nested_ind; intros b.
  1-6: destruct b; simpl; try (split; intros; done).
  - rewrite Z.eqb_eq. split; [by intros ->|by intros [= ->]].
  - rewrite String.eqb_eq. split; [by intros ->|by intros [= ->]].
  - rewrite Nat.eqb_eq. split; [by intros ->|by intros [= ->]].
  - rewrite Z.eqb_eq. split; [by intros ->|by intros [= ->]].
  - destruct b as [ | | | | | |l'| | ]; try (split; intros; done).
    destruct (value_eqb_items l l' IH) as (-> & _ & _).
    split; [by intros ->|by intros [= ->]].
  - destruct b as [ | | | | | | |l'| ]; try (split; intros; done).
    destruct (value_eqb_items l l' IH) as (_ & -> & _).
    split; [by intros ->|by intros [= ->]].
  - destruct b as [ | | | | | | | |l']; try (split; intros; done).
    destruct (value_eqb_items l l' IH) as (_ & _ & ->).
    split; [by intros ->|by intros [= ->]].
Qed.

(** *** Queries as sets of conditions *)

Lemma matches_spec (q : query) (d : record) :
  matches q d = true ↔ ∀ k c, q !! k = Some c → cond_holds c (d !! k) = true.
Proof.
  unfold matches. rewrite forallb_forall. split.
  - intros Hall k c Hk. apply (Hall (k, c)).
    apply list_elem_of_In. by apply elem_of_map_to_list.
  - intros Hq [k c] Hin. apply list_elem_of_In, elem_of_map_to_list in Hin.
    by apply Hq.
Qed.

Lemma cond_holds_equals v field : cond_holds (Equals v) field = true ↔ field = Some v.
Proof.
  destruct field as [x|]; simpl; [|split; intros; done].
  rewrite value_eqb_eq. split; [by intros ->|by intros [= ->]].
Qed.

Lemma cond_holds_at_least v field :
  cond_holds (AtLeast v) field = true ↔ ∃ x, field = Some x ∧ value_leb v x = true.
Proof.
  destruct field as [x|]; simpl.
  - split; [by exists x|by intros (? & [= <-] & ?)].
  - split; [done|by intros (? & ? & ?)].
Qed.

Lemma id_filters_lookup rid mid k :
  query_params rid mid VNone None !! k
  = if bool_decide (k = "row_id")
    then (if is_none rid then None else Some (Equals rid))
    else if bool_decide (k = "model_id")
         then (if is_none mid then None else Some (Equals mid))
         else None.
Proof.
  unfold query_params. cbn [is_none negb]. cbv zeta.
  destruct (is_none mid), (is_none rid); repeat case_bool_decide; subst;
    rewrite ?lookup_delete_eq, ?lookup_delete_ne, ?lookup_insert_eq, ?lookup_insert_ne,
      ?lookup_delete_eq, ?lookup_delete_ne, ?lookup_insert_eq, ?lookup_insert_ne,
      ?lookup_singleton_eq, ?lookup_singleton_ne, ?lookup_empty by done; done.
Qed.

Lemma query_params_date rid mid min_date date_field :
  query_params rid mid min_date date_field
  = if is_none min_date then query_params rid mid VNone None
    else <[date_key date_field := AtLeast min_date]> (query_params rid mid VNone None).
Proof.
  unfold query_params, date_key. cbn [is_none negb]. cbv zeta.
  destruct (is_none min_date); [done|]. by destruct date_field.
Qed.

Lemma query_params_lookup rid mid min_date date_field k :
  query_params rid mid min_date date_field !! k
  = if negb (is_none min_date) && bool_decide (k = date_key date_field)
    then Some (AtLeast min_date)
    else if bool_decide (k = "row_id")
         then (if is_none rid then None else Some (Equals rid))
         else if bool_decide (k = "model_id")
              then (if is_none mid then None else Some (Equals mid))
              else None.
Proof.
  rewrite query_params_date. destruct (is_none min_date); simpl.
  - apply id_filters_lookup.
  - destruct (decide (k = date_key date_field)) as [->|Hk].
    + by rewrite lookup_insert_eq, bool_decide_eq_true_2.
    + rewrite lookup_insert_ne, bool_decide_eq_false_2 by done. apply id_filters_lookup.
Qed.

(** A query by identifiers selects the documents that carry them. *)
Lemma matches_id_filters rid mid (d : record) :
  matches (query_params rid mid VNone None) d = true ↔ carries rid mid d.
Proof.
  rewrite matches_spec. unfold carries. split.
  - intros Hq. split; intros Hn; apply cond_holds_equals, Hq;
      rewrite id_filters_lookup; simpl; by rewrite (is_none_false _ Hn).
  - intros [Hrow Hmodel] k c. rewrite id_filters_lookup.
    repeat case_bool_decide; subst; try done.
    + destruct (is_none rid) eqn:Hn; [done|]. intros [= <-].
      apply cond_holds_equals, Hrow. by intros ->.
    + destruct (is_none mid) eqn:Hn; [done|]. intros [= <-].
      apply cond_holds_equals, Hmodel. by intros ->.
Qed.

Lemma matches_id_filters_false rid mid (d : record) :
  matches (query_params rid mid VNone None) d = false ↔ ¬ carries rid mid d.
Proof.
  rewrite <- matches_id_filters. by destruct (matches _ d).
Qed.

Section BatchInsert.
Context `{Externals}.
Variable self : Concordia.

(** C2.  A table of N rows with a resolvable identity is inserted whole:
    the call returns normally, the chunk loop hands every row to the store
    exactly once and in order (document [i] carries the payload of row
    [i]), whatever N is with respect to the chunk size.  A [model_id] given
    for a table without that column is the [model_id] field of every one of
    the N documents.  A retrieval by identifiers that the N documents carry
    returns the documents of the collection that carried them before,
    followed by the N documents: exactly those N when no earlier document
    carries them. *)
Theorem batch_insert_covers_every_row val f val_type row_id model_id s :
  heap s !! val = Some (OFrame f) →
  identity_resolvable self f row_id model_id →
  ∃ recs s',
    insert_into_persistent_db self val val_type row_id model_id s = (Ok tt, s')
    ∧ length recs = nrows f
    ∧ collection s' val_type = collection s val_type ++ recs
    ∧ (∀ i row, rows f !! i = Some row →
         ∃ r, recs !! i = Some r ∧ ∀ k, k ∉ pipeline_keys → r !! k = row !! k)
    ∧ (∀ m, "model_id" ∉ columns f → model_id = VStr m →
         Forall (carries VNone (VStr m)) recs)
    ∧ ∀ row_id' model_id',
        Forall (carries row_id' model_id') recs →
        ∃ p found s'',
          (∀ d, p d = true ↔ carries row_id' model_id' d)
          ∧ retrieve_from_persistent_db val_type row_id' model_id' VNone None s'
            = (Ok found, s'')
          ∧ found = List.filter p (collection s val_type) ++ recs
          ∧ (Forall (λ d, ¬ carries row_id' model_id' d) (collection s val_type) →
             found = recs ∧ length found = nrows f).
Proof.
  intros Hval Hres.
  destruct (insert_frame_run self val f val_type row_id model_id s Hval Hres)
    as (s' & E & I).
  exists (stored_rows f (clock s) row_id model_id), s'.
  split; [exact E|]. split; [apply length_stored_rows|].
  split; [apply (ing_here _ _ _ _ I)|]. split; [|split].
  - intros i row Hrow.
    destruct (stored_rows_lookup f (clock s) row_id model_id i row Hrow) as (r & Hr & Hk & _).
    by exists r.
  - intros m Hcol ->. apply Forall_lookup. intros i r Hr.
    assert (Hi : i < nrows f).
    { rewrite <- (length_stored_rows f (clock s) row_id (VStr m)).
      by apply lookup_lt_Some in Hr. }
    destruct (lookup_lt_is_Some_2 (rows f) i Hi) as [row Hrow].
    destruct (stored_rows_lookup f (clock s) row_id (VStr m) i row Hrow)
      as (r' & Hr' & _ & _ & Hmid).
    rewrite Hr in Hr'. injection Hr' as <-.
    split; [done|]. intros _. by apply Hmid.
  - intros rid' mid' Hall.
    exists (matches (query_params rid' mid' VNone None)).
    rewrite retrieve_run. eexists _, _. split; [apply matches_id_filters|].
    split; [reflexivity|].
    rewrite (ing_here _ _ _ _ I), List.filter_app.
    rewrite (filter_all _ (stored_rows _ _ _ _)).
    2:{ eapply Forall_impl; [exact Hall|]. intros d. apply matches_id_filters. }
    split; [done|].
    intros Hnone. rewrite filter_none.
    2:{ eapply Forall_impl; [exact Hnone|]. intros d. apply matches_id_filters_false. }
    simpl. split; [done|]. apply length_stored_rows.
Qed.

(** C8.  A table without identity columns, inserted with one [model_id]
    and a sequence of [row_id]s as long as the table, is stored with the
    i-th identifier in the [row_id] field of the i-th document and the
    [model_id] in every document. *)
Theorem batch_insert_positional_identity val f val_type row_id ids model_id s :
  heap s !! val = Some (OFrame f) →
  "row_id" ∉ columns f → "model_id" ∉ columns f →
  seq_items row_id = Some ids → length ids = nrows f →
  seq_items model_id = None → model_id ≠ VNone →
  ∃ recs s',
    insert_into_persistent_db self val val_type row_id model_id s = (Ok tt, s')
    ∧ collection s' val_type = collection s val_type ++ recs
    ∧ length recs = nrows f
    ∧ ∀ i, i < nrows f →
        ∃ r, recs !! i = Some r
             ∧ r !! "row_id" = ids !! i
             ∧ r !! "model_id" = Some model_id.
Proof.
  intros Hval Hrc Hmc Hids Hlen Hscalar Hmn.
  assert (Hrn : row_id ≠ VNone) by (intros ->; done).
  assert (Hres : identity_resolvable self f row_id model_id).
  { split.
    - right; left. split; [done|]. intros l Hl. congruence.
    - right. split; [done|]. intros l Hl. congruence. }
  destruct (insert_frame_run self val f val_type row_id model_id s Hval Hres)
    as (s' & E & I).
  exists (stored_rows f (clock s) row_id model_id), s'.
  split; [exact E|]. split; [apply (ing_here _ _ _ _ I)|].
  split; [apply length_stored_rows|].
  intros i Hi. destruct (lookup_lt_is_Some_2 (rows f) i Hi) as [row Hrow].
  destruct (stored_rows_lookup f (clock s) row_id model_id i row Hrow)
    as (r & Hr & _ & Hrid & Hmid).
  exists r. split; [done|]. split.
  - rewrite (Hrid Hrc Hrn). unfold cell. rewrite Hids.
    destruct (lookup_lt_is_Some_2 ids i) as [x Hx]; [lia|]. by rewrite Hx.
  - rewrite (Hmid Hmc Hmn). unfold cell. by rewrite Hscalar.
Qed.
End BatchInsert.

Lemma batch_insert_covers_every_row_witness :
  heap (with_objects [OFrame passengers]) !! 0 = Some (OFrame passengers)
  ∧ identity_resolvable titanic passengers (VList [VStr "r1"; VStr "r2"]) (VStr "m1")
  ∧ ∃ recs s',
      insert_into_persistent_db titanic 0 "training_features"
        (VList [VStr "r1"; VStr "r2"]) (VStr "m1") (with_objects [OFrame passengers])
      = (Ok tt, s')
      ∧ length recs = nrows passengers
      ∧ collection s' "training_features"
        = collection (with_objects [OFrame passengers]) "training_features" ++ recs
      ∧ (∀ i row, rows passengers !! i = Some row →
           ∃ r, recs !! i = Some r ∧ ∀ k, k ∉ pipeline_keys → r !! k = row !! k)
      ∧ (∀ m, "model_id" ∉ columns passengers → VStr "m1" = VStr m →
           Forall (carries VNone (VStr m)) recs)
      ∧ ∀ row_id' model_id',
          Forall (carries row_id' model_id') recs →
          ∃ p found s'',
            (∀ d, p d = true ↔ carries row_id' model_id' d)
            ∧ retrieve_from_persistent_db "training_features" row_id' model_id' VNone None s'
              = (Ok found, s'')
            ∧ found = List.filter p
                        (collection (with_objects [OFrame passengers]) "training_features")
                      ++ recs
            ∧ (Forall (λ d, ¬ carries row_id' model_id' d)
                      (collection (with_objects [OFrame passengers]) "training_features") →
               found = recs ∧ length found = nrows passengers).
Proof.
  assert (Hheap : heap (with_objects [OFrame passengers]) !! 0 = Some (OFrame passengers))
    by reflexivity.
  assert (Hres : identity_resolvable titanic passengers
                   (VList [VStr "r1"; VStr "r2"]) (VStr "m1")).
  { split; right; [left|]; (split; [discriminate|]); intros l Hl; by inversion Hl. }
  split; [exact Hheap|]. split; [exact Hres|].
  exact (batch_insert_covers_every_row titanic 0 passengers "training_features"
           (VList [VStr "r1"; VStr "r2"]) (VStr "m1") _ Hheap Hres).
Defined.

Lemma batch_insert_positional_identity_witness :
  ∃ recs s',
    insert_into_persistent_db titanic 0 "live_labels"
      (VSeries [VStr "Allen"; VStr "Braund"]) (VStr "m1")
      (with_objects [OFrame passengers])
    = (Ok tt, s')
    ∧ collection s' "live_labels"
      = collection (with_objects [OFrame passengers]) "live_labels" ++ recs
    ∧ length recs = nrows passengers
    ∧ ∀ i, i < nrows passengers →
        ∃ r, recs !! i = Some r
             ∧ r !! "row_id" = [VStr "Allen"; VStr "Braund"] !! i
             ∧ r !! "model_id" = Some (VStr "m1").
Proof.
  apply (batch_insert_positional_identity titanic 0 passengers "live_labels"
           (VSeries [VStr "Allen"; VStr "Braund"]) [VStr "Allen"; VStr "Braund"]
           (VStr "m1") (with_objects [OFrame passengers])).
  - reflexivity.
  - apply (bool_decide_unpack _). vm_compute. exact I.
  - apply (bool_decide_unpack _). vm_compute. exact I.
  - reflexivity.
  - reflexivity.
  - reflexivity.
  - discriminate.
Defined.

(** The sizes around the chunk size that the specification lists: the table
    is inserted into an empty store and retrieved by its [model_id]. *)
Example batch_insert_chunk_boundaries :
  Forall (λ n,
    let run := insert_into_persistent_db titanic 0 "training_features"
                 (VStr "r") (VStr "m1") (with_objects [OFrame (table_of n)]) in
    let found := retrieve_from_persistent_db "training_features" VNone (VStr "m1")
                   VNone None run.2 in
    run.1 = Ok tt
    ∧ length (collection run.2 "training_features") = n
    ∧ match found.1 with Ok docs => length docs = n | Raise _ => False end)
    [0; 1; 999; 1000; 1001; 2500].
Proof. repeat constructor; vm_compute; reflexivity. Qed.

(** ** Identity of stored documents *)

(** C5, at an input on which the code breaks the invariant.  A table with
    the default row-id column [name], inserted without an explicit [row_id],
    passes the identity check of the batch path and its rows are stored
    without any [row_id] field; the same payload as a flat record is stored
    with [row_id] taken from [name], as [check_row_id] does for single
    records. *)
Theorem batch_default_field_stores_no_row_id :
  let batch := insert_into_persistent_db titanic 0 "live_features" VNone (VStr "m1")
                 (with_objects [OFrame passengers]) in
  let single := insert_into_persistent_db titanic 0 "live_features" VNone (VStr "m1")
                  (with_objects [ODict allen]) in
  batch.1 = Ok tt
  ∧ ((λ r, (r !! "row_id", r !! "name", r !! "model_id"))
       <$> collection batch.2 "live_features")
    = [ (None, Some (VStr "Allen"), Some (VStr "m1"));
        (None, Some (VStr "Braund"), Some (VStr "m1")) ]
  ∧ single.1 = Ok tt
  ∧ ((λ r, (r !! "row_id", r !! "name", r !! "model_id"))
       <$> collection single.2 "live_features")
    = [ (Some (VStr "Allen"), Some (VStr "Allen"), Some (VStr "m1")) ].
Proof. vm_compute. done. Qed.

Section SingleRecords.
Context `{Externals}.
Variable self : Concordia.

Lemma lift_ok {A} (r : result A) a s s' : lift r s = (Ok a, s') → r = Ok a ∧ s' = s.
Proof. destruct r; simpl; intros [= ]; by subst. Qed.

(** When [check_row_id] returns, it has written an identifier that is not
    [None] into the payload. *)
Lemma check_row_id_ok val rid idx d v s s' :
  heap s !! val = Some (ODict d) →
  check_row_id self val rid idx s = (Ok v, s') →
  ∃ x, is_none x = false ∧ v = val
       ∧ s' = set_heap (<[val := ODict (<["row_id" := x]> d)]> (heap s)) s.
Proof.
  intros Hval. unfold check_row_id. unfold bind at 1.
  destruct (match rid with VList l => lift (getindex l idx) | _ => ret rid end s)
    as [[r1|e] s1] eqn:E1; [|discriminate].
  assert (s1 = s) as ->.
  { destruct rid; try (by injection E1). by apply lift_ok in E1 as [_ ->]. }
  unfold bind at 1.
  destruct ((if is_none r1 then _ else ret r1) s) as [[r2|e] s2] eqn:E2; [|discriminate].
  assert (is_none r2 = false ∧ s2 = s) as [Hr2 ->].
  { destruct (is_none r1) eqn:Hn1.
    - rewrite (bind_ok _ _ _ _ _ (load_run _ _ _ Hval)) in E2.
      destruct (is_none (obj_get (ODict d) (default_row_id_field self))) eqn:Hc;
        [discriminate|]. injection E2 as <- <-. done.
    - injection E2 as <- <-. done. }
  rewrite Hr2. unfold bind at 1. cbn [ret].
  rewrite (bind_ok _ _ _ _ _ (setitem_run _ _ _ _ _ _ Hval eq_refl)).
  intros [= <- <-]. by exists r2.
Qed.

Lemma check_model_id_ok val mid idx d v s s' :
  heap s !! val = Some (ODict d) →
  check_model_id val mid idx s = (Ok v, s') →
  ∃ x, is_none x = false ∧ v = val
       ∧ s' = set_heap (<[val := ODict (<["model_id" := x]> d)]> (heap s)) s.
Proof.
  intros Hval. unfold check_model_id. unfold bind at 1.
  destruct (match mid with VList l => lift (getindex l idx) | _ => ret mid end s)
    as [[r1|e] s1] eqn:E1; [|discriminate].
  assert (s1 = s) as ->.
  { destruct mid; try (by injection E1). by apply lift_ok in E1 as [_ ->]. }
  unfold bind at 1.
  destruct ((if is_none r1 then _ else ret r1) s) as [[r2|e] s2] eqn:E2; [|discriminate].
  assert (is_none r2 = false ∧ s2 = s) as [Hr2 ->].
  { destruct (is_none r1) eqn:Hn1.
    - rewrite (bind_ok _ _ _ _ _ (load_run _ _ _ Hval)) in E2.
      destruct (is_none (obj_get (ODict d) (Some "model_id"))) eqn:Hc;
        [discriminate|]. injection E2 as <- <-. done.
    - injection E2 as <- <-. done. }
  rewrite Hr2. unfold bind at 1. cbn [ret].
  rewrite (bind_ok _ _ _ _ _ (setitem_run _ _ _ _ _ _ Hval eq_refl)).
  intros [= <- <-]. by exists r2.
Qed.

Lemma asscalar_not_none v :
  is_none v = false → is_none (if is_np_generic v then asscalar v else v) = false.
Proof. by destruct v. Qed.

(** The single-record path keeps the invariant of C5: a flat payload that
    [insert_into_persistent_db] stores is stored as one document whose
    [row_id] and [model_id] fields are both present and not [None];
    otherwise the call raises. *)
Lemma single_record_carries_identity val d vt rid mid s s' :
  heap s !! val = Some (ODict d) →
  insert_into_persistent_db self val vt rid mid s = (Ok tt, s') →
  ∃ doc r m,
    collection s' vt = collection s vt ++ [doc]
    ∧ doc !! "row_id" = Some r ∧ is_none r = false
    ∧ doc !! "model_id" = Some m ∧ is_none m = false.
Proof.
  intros Hval. unfold insert_into_persistent_db.
  rewrite (bind_ok _ _ _ _ _ (copy_run _ _ _ Hval)). cbv beta.
  set (l := fresh (dom (heap s))).
  erewrite bind_ok; [|apply del_if_present_run; simpl; apply lookup_insert_eq].
  rewrite strip_step_dict. cbv beta. flat_state. rewrite insert_insert_eq.
  erewrite bind_ok; [|apply del_if_present_run; simpl; apply lookup_insert_eq].
  rewrite strip_step_dict. cbv beta. flat_state. rewrite insert_insert_eq.
  erewrite bind_ok; [|reflexivity]. cbv beta. flat_state.
  erewrite bind_ok; [|eapply setitem_run; [simpl; apply lookup_insert_eq|reflexivity]].
  cbv beta. flat_state. rewrite insert_insert_eq.
  erewrite bind_ok; [|apply load_run; simpl; apply lookup_insert_eq]. cbv beta iota.
  unfold bind at 1.
  match goal with |- context [check_row_id self l rid None ?st] =>
    destruct (check_row_id self l rid None st) as [[v1|e1] s1] eqn:E1; [|discriminate];
    eapply check_row_id_ok in E1 as (r & Hr & -> & ->);
      [|simpl; apply lookup_insert_eq]
  end.
  flat_state. rewrite insert_insert_eq.
  unfold bind at 1.
  match goal with |- context [check_model_id l mid None ?st] =>
    destruct (check_model_id l mid None st) as [[v2|e2] s2] eqn:E2; [|discriminate];
    eapply check_model_id_ok in E2 as (m & Hm & -> & ->);
      [|simpl; apply lookup_insert_eq]
  end.
  flat_state. rewrite insert_insert_eq.
  erewrite (bind_ok (load l)); [|apply load_run; simpl; apply lookup_insert_eq].
  cbv beta iota. unfold bind, write, mdb_insert_one. cbv beta iota. flat_state.
  intros [= <-]. eexists. eexists. eexists.
  split; [unfold collection; cbn [mdb]; by rewrite lookup_insert_eq|].
  unfold asscalar_items. rewrite !lookup_fmap.
  rewrite lookup_insert_ne by done. rewrite !lookup_insert_eq. simpl.
  repeat split; by apply asscalar_not_none.
Qed.
End SingleRecords.

(** ** Registration *)

Section Registration.
Context `{Externals}.
Variable self : Concordia.

(** C4, at the input on which the code fails.  With [feature_importances]
    left at its default [None], [add_model] raises at
    [feature_importances.items()], after the cache entry was written and
    before any [model_info] document is: the store is unchanged. *)
Theorem add_model_without_importances_raises model model_id feature_names description s :
  ∃ s', add_model self model model_id feature_names None description s
        = (Raise AttributeError, s')
        ∧ rdb s' = <[make_redis_model_key model_id := dumps_base64 model]> (rdb s)
        ∧ mdb s' = mdb s.
Proof. eexists. split; [reflexivity|]. done. Qed.
End Registration.

(** ** Reconciliation *)

(** C9, on every input.  [match_training_and_live] never reaches the left
    join: its first statement reads the unassigned local [row_id]. *)
Theorem match_training_and_live_raises pd_merge df_train df_live row_id_field :
  match_training_and_live pd_merge df_train df_live row_id_field
  = Raise (UnboundLocalError "row_id").
Proof. reflexivity. Qed.

(** ** Prediction without a row identifier *)

Section NoIdentity.
Context `{Externals}.
Variable self : Concordia.

(** C7.  A prediction call without an explicit [row_id], on an instance
    without [default_row_id_field], raises the [ValueError] about the
    missing row identifier before any access to the cache, the store or
    the model: no document of any kind is written. *)
Theorem predict_without_row_id_fails_before_io features o model_id proba s :
  default_row_id_field self = None →
  heap s !! features = Some o →
  ∃ s', _predict self features model_id VNone proba s
        = (Raise (ValueError MissingRowIdPredict), s')
        ∧ mdb s' = mdb s ∧ rdb s' = rdb s ∧ trace s' = trace s
        ∧ ∀ val_type, collection s' val_type = collection s val_type.
Proof.
  intros Hdef Hfeat. unfold _predict.
  rewrite (bind_ok _ _ _ _ _ (copy_run _ _ _ Hfeat)). cbv beta.
  rewrite Hdef. simpl. eexists. split; [reflexivity|]. done.
Qed.
End NoIdentity.

Lemma predict_without_row_id_fails_before_io_witness :
  ∃ s', _predict bare 0 (VStr "m1") VNone false (with_objects [ODict allen])
        = (Raise (ValueError MissingRowIdPredict), s')
        ∧ mdb s' = mdb (with_objects [ODict allen])
        ∧ rdb s' = rdb (with_objects [ODict allen])
        ∧ trace s' = trace (with_objects [ODict allen])
        ∧ ∀ val_type, collection s' val_type
                      = collection (with_objects [ODict allen]) val_type.
Proof.
  apply (predict_without_row_id_fails_before_io bare 0 (ODict allen)); reflexivity.
Defined.

(** ** The registry *)

Section Registry.
Context `{Externals}.

Ltac run_get_model :=
  unfold _get_model, rdb_get, retrieve_from_persistent_db, mdb_find,
    rdb_set, obj_getitem, collection.
Ltac run := unfold bind, ret, raise, lift; cbv beta iota zeta; norm_state.

Lemma get_model_hit model_id blob m s :
  rdb s !! make_redis_model_key model_id = Some blob →
  loads_base64 blob = Some m →
  _get_model model_id s = (Ok m, log (EvCacheGet (make_redis_model_key model_id)) s).
Proof.
  intros Hhit Hload. run_get_model. run. rewrite Hhit. run. by rewrite Hload.
Qed.

Lemma get_model_absent id s :
  rdb s !! make_redis_model_key (VStr id) = None →
  entries_of id s = [] →
  _get_model (VStr id) s
  = (Raise (ValueError (ModelNotFound (VStr id))),
     log (EvFind "model_info") (log (EvCacheGet (make_redis_model_key (VStr id))) s)).
Proof.
  intros Hmiss Hnone. unfold entries_of, collection in Hnone.
  run_get_model. run. rewrite Hmiss. run. by rewrite Hnone.
Qed.

Lemma get_model_miss id first rest blob m s :
  rdb s !! make_redis_model_key (VStr id) = None →
  entries_of id s = first :: rest →
  first !! "model" = Some (VStr blob) →
  loads_base64 blob = Some m →
  _get_model (VStr id) s
  = (Ok m,
     let key := make_redis_model_key (VStr id) in
     mkState (heap s) (<[key := blob]> (rdb s)) (mdb s) (clock s)
             (trace s ++ [EvCacheGet key; EvFind "model_info"; EvCacheSet key;
                          EvCacheGet key])).
Proof.
  intros Hmiss Hfound Hmodel Hload. unfold entries_of, collection in Hfound.
  run_get_model. run. rewrite Hmiss. run. rewrite Hfound. run.
  rewrite Hmodel. run. rewrite lookup_insert_eq. run. rewrite Hload.
  unfold log, set_rdb. cbn [heap rdb mdb clock trace]. by rewrite <- !app_assoc.
Qed.
End Registry.

Section RegisterThenGet.
Context `{Externals}.
Variable self : Concordia.

(** With a string identifier and a dict of importances [add_model] returns
    normally: the cache entry holds the encoded model and one [model_info]
    document with the same blob is appended to the store. *)
Lemma add_model_run model id feature_names fi importances description s :
  heap s !! fi = Some (ODict importances) →
  ∃ s1 doc,
    add_model self model (VStr id) feature_names (Some fi) description s = (Ok tt, s1)
    ∧ rdb s1 = <[make_redis_model_key (VStr id) := dumps_base64 model]> (rdb s)
    ∧ collection s1 "model_info" = collection s "model_info" ++ [doc]
    ∧ doc !! "model" = Some (VStr (dumps_base64 model))
    ∧ doc !! "model_id" = Some (VStr id)
    ∧ doc !! "date_added" = Some (VTime (clock s))
    ∧ heap s1 !! fi = Some (ODict (asscalar_items importances)).
Proof.
  intros Hfi. unfold add_model. cbv zeta.
  erewrite bind_ok; [|reflexivity]. cbv beta.
  erewrite bind_ok.
  2:{ erewrite bind_ok; [|apply load_run; exact Hfi]. cbv beta iota.
      erewrite bind_ok; [|reflexivity]. reflexivity. }
  cbv beta. norm_state.
  erewrite bind_ok; [|reflexivity]. cbv beta. norm_state.
  erewrite bind_ok; [|reflexivity]. cbv beta. norm_state.
  erewrite insert_dict_run; [|norm_state; apply lookup_insert_eq|done..].
  norm_state. eexists. eexists. split; [reflexivity|].
  split; [done|]. split.
  { unfold collection. norm_state. by rewrite lookup_insert_eq. }
  split; [vm_compute; reflexivity|]. split; [vm_compute; reflexivity|].
  split; [vm_compute; reflexivity|]. cbn [heap].
  set (h1 := <[fi := ODict (asscalar_items importances)]> (heap s)).
  assert (Hh1 : h1 !! fi = Some (ODict (asscalar_items importances)))
    by apply lookup_insert_eq.
  set (l1 := fresh (dom h1)).
  assert (Hl1 : fi ≠ l1).
  { intros E. apply (is_fresh (dom h1)). fold l1. rewrite <- E.
    apply elem_of_dom. by eexists. }
  set (h2 := <[l1 := _]> h1).
  assert (Hh2 : h2 !! fi = Some (ODict (asscalar_items importances)))
    by (unfold h2; by rewrite lookup_insert_ne).
  assert (Hl2 : fi ≠ fresh (dom h2)).
  { intros E. apply (is_fresh (dom h2)). rewrite <- E.
    apply elem_of_dom. by eexists. }
  rewrite lookup_insert_ne by done. exact Hh2.
Qed.

Lemma entries_of_first id s pre first post :
  collection s "model_info" = pre ++ first :: post →
  Forall (λ d : record, d !! "model_id" ≠ Some (VStr id)) pre →
  first !! "model_id" = Some (VStr id) →
  ∃ rest, entries_of id s = first :: rest.
Proof.
  intros Hcoll Hpre Hfirst. unfold entries_of.
  rewrite query_params_model_id, Hcoll, List.filter_app.
  rewrite (filter_none _ pre).
  2:{ eapply Forall_impl; [exact Hpre|]. intros d Hd. by apply matches_model_id_false. }
  simpl. rewrite (matches_model_id_true _ _ Hfirst). by eexists.
Qed.

Lemma entries_of_none id s :
  Forall (λ d : record, d !! "model_id" ≠ Some (VStr id)) (collection s "model_info") →
  entries_of id s = [].
Proof.
  intros Hall. unfold entries_of. rewrite query_params_model_id. apply filter_none.
  eapply Forall_impl; [exact Hall|]. intros d. apply matches_model_id_false.
Qed.

Lemma entries_of_mdb id s s' : mdb s' = mdb s → entries_of id s' = entries_of id s.
Proof. intros E. unfold entries_of, collection. by rewrite E. Qed.

(** C6, as the code has it.  When the cache entry of a model identifier is
    absent, [_get_model] decodes the [model] field of the first
    [model_info] document with that identifier, in insertion order, and
    writes that blob back to the cache: with several registrations of one
    identifier in the store, the earliest one is served. *)
Theorem get_model_fallback_takes_first_entry id pre first post blob m s :
  rdb s !! make_redis_model_key (VStr id) = None →
  collection s "model_info" = pre ++ first :: post →
  Forall (λ d : record, d !! "model_id" ≠ Some (VStr id)) pre →
  first !! "model_id" = Some (VStr id) →
  first !! "model" = Some (VStr blob) →
  loads_base64 blob = Some m →
  ∃ s', _get_model (VStr id) s = (Ok m, s')
        ∧ rdb s' = <[make_redis_model_key (VStr id) := blob]> (rdb s)
        ∧ mdb s' = mdb s.
Proof.
  intros Hmiss Hcoll Hpre Hid Hmodel Hload.
  destruct (entries_of_first id s pre first post Hcoll Hpre Hid) as [rest Hent].
  rewrite (get_model_miss id first rest blob m s Hmiss Hent Hmodel Hload).
  eexists. split; [reflexivity|]. done.
Qed.

(** After a second registration of an identifier that was new at the first
    one, and the eviction of the cache entry, the lookup returns the model
    registered first and caches its blob. *)
Corollary get_model_after_second_registration
    id m0 m1 fn0 fn1 d0 d1 fi importances s :
  codec_round_trips →
  heap s !! fi = Some (ODict importances) →
  Forall (λ d : record, d !! "model_id" ≠ Some (VStr id))
         (collection s "model_info") →
  ∃ s1 s2,
    add_model self m0 (VStr id) fn0 (Some fi) d0 s = (Ok tt, s1)
    ∧ add_model self m1 (VStr id) fn1 (Some fi) d1 s1 = (Ok tt, s2)
    ∧ ∀ s3, mdb s3 = mdb s2 →
            rdb s3 !! make_redis_model_key (VStr id) = None →
            ∃ m' s4, _get_model (VStr id) s3 = (Ok m', s4)
                     ∧ model_equiv m' m0
                     ∧ rdb s4 !! make_redis_model_key (VStr id)
                       = Some (dumps_base64 m0).
Proof.
  intros Hcodec Hfi Hfresh.
  destruct (add_model_run m0 id fn0 fi importances d0 s Hfi)
    as (s1 & doc0 & E1 & _ & Hc1 & Hm0 & Hid0 & _ & Hfi1).
  destruct (add_model_run m1 id fn1 fi _ d1 s1 Hfi1)
    as (s2 & doc1 & E2 & _ & Hc2 & _).
  exists s1, s2. split; [exact E1|]. split; [exact E2|].
  intros s3 Hmdb Hmiss.
  destruct (Hcodec m0) as (m' & Hload & Hequiv).
  destruct (entries_of_first id s2 (collection s "model_info") doc0 [doc1])
    as [rest Hent]; [by rewrite Hc2, Hc1, <- app_assoc|done|done|].
  rewrite <- (entries_of_mdb id s2 s3 Hmdb) in Hent.
  rewrite (get_model_miss id doc0 rest _ m' s3 Hmiss Hent Hm0 Hload).
  eexists. eexists. split; [reflexivity|]. split; [done|].
  cbv zeta. norm_state. apply lookup_insert_eq.
Qed.

(** C1, as the code has it.  After a registration that returned, a lookup
    served from the cache returns a model with the predictions of the
    registered one.  When no [model_info] document with that identifier was
    in the store before the registration, a lookup after the eviction of
    the cache entry returns such a model too, decoded from the durable
    document, and puts the blob back into the cache. *)
Theorem register_then_get_round_trip model id feature_names fi importances description s :
  codec_round_trips →
  heap s !! fi = Some (ODict importances) →
  ∃ s1,
    add_model self model (VStr id) feature_names (Some fi) description s = (Ok tt, s1)
    ∧ (∃ m' s2, _get_model (VStr id) s1 = (Ok m', s2)
                ∧ model_equiv m' model
                ∧ rdb s2 = rdb s1 ∧ mdb s2 = mdb s1)
    ∧ (Forall (λ d : record, d !! "model_id" ≠ Some (VStr id))
              (collection s "model_info") →
       ∀ s1', mdb s1' = mdb s1 →
              rdb s1' !! make_redis_model_key (VStr id) = None →
              ∃ m' s2, _get_model (VStr id) s1' = (Ok m', s2)
                       ∧ model_equiv m' model
                       ∧ rdb s2 = <[make_redis_model_key (VStr id) := dumps_base64 model]>
                                    (rdb s1')
                       ∧ mdb s2 = mdb s1').
Proof.
  intros Hcodec Hfi.
  destruct (add_model_run model id feature_names fi importances description s Hfi)
    as (s1 & doc & E1 & Hrdb & Hc1 & Hm & Hid & _).
  destruct (Hcodec model) as (m' & Hload & Hequiv).
  exists s1. split; [exact E1|]. split.
  - exists m'. eexists. split.
    + apply get_model_hit with (blob := dumps_base64 model); [|done].
      rewrite Hrdb. apply lookup_insert_eq.
    + done.
  - intros Hfresh s1' Hmdb Hmiss.
    destruct (entries_of_first id s1 (collection s "model_info") doc [])
      as [rest Hent]; [done..|].
    rewrite <- (entries_of_mdb id s1 s1' Hmdb) in Hent.
    rewrite (get_model_miss id doc rest _ m' s1' Hmiss Hent Hm Hload).
    exists m'. eexists. split; [reflexivity|]. done.
Qed.
End RegisterThenGet.

Lemma toy_models_differ : ¬ model_equiv true false.
Proof. intros Heq. destruct (Heq (ODict ∅)) as [E _]. discriminate E. Qed.

(** Counterexample to C1 as stated: [titanic_1] is registered with the model [false]
    and then with the model [true]; both calls return; after the eviction of
    the cache entry the lookup returns [false], whose predictions differ
    from those of the model registered last. *)
Lemma register_then_get_counterexample :
  let s0 := with_objects [ODict {[ "age" := VNp 3%Z ]}] in
  let r1 := add_model titanic false (VStr "titanic_1") VNone (Some 0) VNone s0 in
  let r2 := add_model titanic true (VStr "titanic_1") VNone (Some 0) VNone r1.2 in
  let s3 := rdb_delete (make_redis_model_key (VStr "titanic_1")) r2.2 in
  r1.1 = Ok tt ∧ r2.1 = Ok tt
  ∧ (_get_model (VStr "titanic_1") s3).1 = Ok false
  ∧ ¬ model_equiv true false.
Proof.
  cbv zeta. split; [vm_compute; reflexivity|]. split; [vm_compute; reflexivity|].
  split; [vm_compute; reflexivity|]. exact toy_models_differ.
Qed.

(** Counterexample to C6 as stated: with the cache entry absent and two [model_info]
    documents for [titanic_1] in the store, added at times 0 and 2, the
    lookup returns the model of the document added at time 0, not that of
    the most recent one. *)
Lemma get_model_fallback_counterexample :
  let s := registered_twice true false in
  rdb s !! make_redis_model_key (VStr "titanic_1") = None
  ∧ (λ d : record, (d !! "model_id", d !! "date_added", d !! "model"))
      <$> collection s "model_info"
    = [ (Some (VStr "titanic_1"), Some (VTime 0), Some (VStr (toy_dumps true)));
        (Some (VStr "titanic_1"), Some (VTime 2), Some (VStr (toy_dumps false))) ]
  ∧ toy_loads (toy_dumps false) = Some false
  ∧ (_get_model (VStr "titanic_1") s).1 = Ok true
  ∧ ¬ model_equiv true false.
Proof.
  cbv zeta. split; [vm_compute; reflexivity|]. split; [vm_compute; reflexivity|].
  split; [reflexivity|]. split; [vm_compute; reflexivity|]. exact toy_models_differ.
Qed.

Lemma register_then_get_round_trip_witness :
  let s := with_objects [ODict {[ "age" := VNp 3%Z ]}] in
  ∃ s1,
    add_model titanic true (VStr "titanic_1") VNone (Some 0) VNone s = (Ok tt, s1)
    ∧ (∃ m' s2, _get_model (VStr "titanic_1") s1 = (Ok m', s2)
                ∧ model_equiv m' true
                ∧ rdb s2 = rdb s1 ∧ mdb s2 = mdb s1)
    ∧ (Forall (λ d : record, d !! "model_id" ≠ Some (VStr "titanic_1"))
              (collection s "model_info") →
       ∀ s1', mdb s1' = mdb s1 →
              rdb s1' !! make_redis_model_key (VStr "titanic_1") = None →
              ∃ m' s2, _get_model (VStr "titanic_1") s1' = (Ok m', s2)
                       ∧ model_equiv m' true
                       ∧ rdb s2 = <[make_redis_model_key (VStr "titanic_1")
                                    := dumps_base64 true]> (rdb s1')
                       ∧ mdb s2 = mdb s1').
Proof.
  apply (register_then_get_round_trip (H := toy) titanic true "titanic_1" VNone 0
           {[ "age" := VNp 3%Z ]} VNone).
  - intros m. exists m. split; [by destruct m|]. intros x. split; reflexivity.
  - reflexivity.
Defined.

Lemma get_model_fallback_takes_first_entry_witness :
  ∃ s', _get_model (VStr "titanic_1") two_entries = (Ok true, s')
        ∧ rdb s' = <[make_redis_model_key (VStr "titanic_1") := toy_dumps true]>
                     (rdb two_entries)
        ∧ mdb s' = mdb two_entries.
Proof.
  apply (get_model_fallback_takes_first_entry (H := toy) "titanic_1" []
           (entry 0 true) [entry 2 false] (toy_dumps true) true two_entries).
  - reflexivity.
  - reflexivity.
  - constructor.
  - reflexivity.
  - reflexivity.
  - reflexivity.
Defined.

(** ** Relations between the state before and after a run *)

#[local] Instance same_mdb_rel : StoreRel same_mdb.
Proof.
  split.
  - by intros s s' _ Hm _.
  - unfold same_mdb. intros s1 s2 s3 H1 H2. congruence.
Qed.

Section Respects.
Context (R : state → state → Prop) `{!StoreRel R}.

Lemma rel_refl s : R s s.
Proof. by apply rel_local. Qed.

Lemma respects_ret {A} (a : A) : respects R (ret a).
Proof. intros s. apply rel_refl. Qed.

Lemma respects_raise {A} e : respects R (@raise A e).
Proof. intros s. apply rel_refl. Qed.

Lemma respects_lift {A} (r : result A) : respects R (lift r).
Proof. destruct r; [apply respects_ret|apply respects_raise]. Qed.

Lemma respects_bind {A B} (m : M A) (k : A → M B) :
  respects R m → (∀ a, respects R (k a)) → respects R (bind m k).
Proof.
  intros Hm Hk s. unfold bind. specialize (Hm s).
  destruct (m s) as [[a|e] s1]; simpl in *; [|done].
  eapply rel_trans; [exact Hm|apply Hk].
Qed.

Lemma respects_load l : respects R (load l).
Proof. intros s. unfold load. destruct (heap s !! l); apply rel_refl. Qed.

Lemma respects_alloc o : respects R (alloc o).
Proof. intros s. by apply rel_local. Qed.

Lemma respects_write l o : respects R (write l o).
Proof. intros s. by apply rel_local. Qed.

Lemma respects_now : respects R now.
Proof. intros s. by apply rel_local. Qed.

Lemma respects_copy l : respects R (copy l).
Proof.
  unfold copy. apply respects_bind; [apply respects_load|]. intros o. apply respects_alloc.
Qed.

Lemma respects_setitem l k v : respects R (setitem l k v).
Proof.
  unfold setitem. apply respects_bind; [apply respects_load|]. intros o.
  apply respects_bind; [apply respects_lift|]. intros o'. apply respects_write.
Qed.

Lemma respects_del_if_present l k : respects R (del_if_present l k).
Proof.
  unfold del_if_present. apply respects_bind; [apply respects_load|]. intros o.
  destruct (obj_contains o k); [apply respects_write|apply respects_ret].
Qed.
End Respects.

Create HintDb respects.

(** Walk through a method body: binds, branches, the heap steps, and the
    steps registered as respecting the relation. *)
Ltac respects_walk :=
  repeat first
    [ match goal with
      | |- respects ?R (bind _ _) => apply (respects_bind R); [|intros ?]
      | |- respects ?R (ret _) => apply (respects_ret R)
      | |- respects ?R (raise _) => apply (respects_raise R)
      | |- respects ?R (lift _) => apply (respects_lift R)
      | |- respects ?R (load _) => apply (respects_load R)
      | |- respects ?R (alloc _) => apply (respects_alloc R)
      | |- respects ?R (write _ _) => apply (respects_write R)
      | |- respects ?R now => apply (respects_now R)
      | |- respects ?R (copy _) => apply (respects_copy R)
      | |- respects ?R (setitem _ _ _) => apply (respects_setitem R)
      | |- respects ?R (del_if_present _ _) => apply (respects_del_if_present R)
      end
    | solve [eauto with respects]
    | match goal with
      | |- respects _ (if ?c then _ else _) => destruct c
      | |- respects _ (match ?x with _ => _ end) => destruct x
      end ].

Section RespectsMethods.
Context `{Externals}.
Variable self : Concordia.
Context (R : state → state → Prop) `{!StoreRel R}.

Lemma respects_check_row_id val rid idx : respects R (check_row_id self val rid idx).
Proof. unfold check_row_id. respects_walk. Qed.

Lemma respects_check_model_id val mid idx : respects R (check_model_id val mid idx).
Proof. unfold check_model_id. respects_walk. Qed.

Lemma respects_load_frame l : respects R (load_frame l).
Proof. unfold load_frame. respects_walk. Qed.
End RespectsMethods.

(** ** Lookups only read the durable store *)

Section ReadOnly.
Context `{Externals}.

Lemma same_mdb_rdb_get key : respects same_mdb (rdb_get key).
Proof. by intros s. Qed.

Lemma same_mdb_rdb_set key v : respects same_mdb (rdb_set key v).
Proof. intros s. by destruct v. Qed.

Lemma same_mdb_find vt q : respects same_mdb (mdb_find vt q).
Proof. by intros s. Qed.

(** [_get_model] never writes to the durable store. *)
Lemma get_model_reads_only model_id : respects same_mdb (_get_model model_id).
Proof.
  unfold _get_model, retrieve_from_persistent_db. cbv zeta.
  pose proof same_mdb_rdb_get. pose proof same_mdb_rdb_set. pose proof same_mdb_find.
  respects_walk.
Qed.
End ReadOnly.

(** ** Objects that a call leaves alone *)

Section Keeps.
Context `{Externals}.
Variable D : gset loc.

Lemma keeps_ret {A} (a : A) (Q : A → Prop) : Q a → keeps D (ret a) Q.
Proof. intros Ha s HD. repeat split; [done..|]. by intros a' [= <-]. Qed.

Lemma keeps_raise {A} e (Q : A → Prop) : keeps D (raise e) Q.
Proof. intros s HD. repeat split; done. Qed.

Lemma keeps_lift {A} (r : result A) : keeps D (lift r) (λ _, True).
Proof. destruct r; [by apply keeps_ret|apply keeps_raise]. Qed.

Lemma keeps_bind {A B} (m : M A) (k : A → M B) (Q : A → Prop) (Q' : B → Prop) :
  keeps D m Q → (∀ a, Q a → keeps D (k a) Q') → keeps D (bind m k) Q'.
Proof.
  intros Hm Hk s HD. unfold bind. destruct (Hm s HD) as (HD1 & Hh1 & HQ).
  destruct (m s) as [[a|e] s1]; simpl in *; [|done].
  destruct (Hk a (HQ a eq_refl) s1 HD1) as (HD2 & Hh2 & HQ2).
  split; [done|]. split; [|done]. intros l Hl. by rewrite Hh2, Hh1.
Qed.

Lemma keeps_bind_true {A B} (m : M A) (k : A → M B) (Q' : B → Prop) :
  keeps D m (λ _, True) → (∀ a, keeps D (k a) Q') → keeps D (bind m k) Q'.
Proof. intros Hm Hk. apply (keeps_bind m k (λ _, True)); auto. Qed.

Lemma keeps_bind_loc {B} (m : M loc) (k : loc → M B) (Q' : B → Prop) :
  keeps D m (λ l, l ∉ D) → (∀ l, l ∉ D → keeps D (k l) Q') → keeps D (bind m k) Q'.
Proof. apply keeps_bind. Qed.

Lemma keeps_same_heap {A} (m : M A) :
  (∀ s, heap (m s).2 = heap s) → keeps D m (λ _, True).
Proof. intros Hm s HD. rewrite Hm. done. Qed.

Lemma keeps_load l : keeps D (load l) (λ _, True).
Proof. apply keeps_same_heap. intros s. unfold load. by destruct (heap s !! l). Qed.

Lemma keeps_now : keeps D now (λ _, True).
Proof. by apply keeps_same_heap. Qed.

Lemma keeps_alloc o : keeps D (alloc o) (λ l, l ∉ D).
Proof.
  intros s HD. simpl.
  assert (Hfresh : fresh (dom (heap s)) ∉ D).
  { intros Hin. apply (is_fresh (dom (heap s))). by apply HD. }
  split; [rewrite dom_insert_L; set_solver|]. split.
  - intros l Hl. apply lookup_insert_ne. by intros <-.
  - by intros a [= <-].
Qed.

Lemma keeps_write l o : l ∉ D → keeps D (write l o) (λ _, True).
Proof.
  intros Hl s HD. simpl. split; [rewrite dom_insert_L; set_solver|]. split; [|done].
  intros l' Hl'. apply lookup_insert_ne. by intros <-.
Qed.

Lemma keeps_copy l : keeps D (copy l) (λ l', l' ∉ D).
Proof.
  unfold copy. apply keeps_bind_true; [apply keeps_load|]. intros o. apply keeps_alloc.
Qed.

Lemma keeps_setitem l k v : l ∉ D → keeps D (setitem l k v) (λ _, True).
Proof.
  intros Hl. unfold setitem. apply keeps_bind_true; [apply keeps_load|]. intros o.
  apply keeps_bind_true; [apply keeps_lift|]. intros o'. by apply keeps_write.
Qed.

Lemma keeps_del_if_present l k : l ∉ D → keeps D (del_if_present l k) (λ _, True).
Proof.
  intros Hl. unfold del_if_present. apply keeps_bind_true; [apply keeps_load|].
  intros o. destruct (obj_contains o k); [by apply keeps_write|by apply keeps_ret].
Qed.

Lemma keeps_rdb_get key : keeps D (rdb_get key) (λ _, True).
Proof. by apply keeps_same_heap. Qed.

Lemma keeps_rdb_set key v : keeps D (rdb_set key v) (λ _, True).
Proof. apply keeps_same_heap. intros s. by destruct v. Qed.

Lemma keeps_mdb_find vt q : keeps D (mdb_find vt q) (λ _, True).
Proof. by apply keeps_same_heap. Qed.

Lemma keeps_mdb_insert_one vt d : keeps D (mdb_insert_one vt d) (λ _, True).
Proof. by apply keeps_same_heap. Qed.

Lemma keeps_mdb_insert_many vt ds : keeps D (mdb_insert_many vt ds) (λ _, True).
Proof. apply keeps_same_heap. intros s. by destruct ds. Qed.
End Keeps.

(** Walk through a method body for [keeps]; a reference bound by [let*] is
    known to be outside [D]. *)
Ltac keeps_walk :=
  repeat first
    [ match goal with
      | |- keeps _ (@bind loc _ _ _) _ => apply keeps_bind_loc; [|intros ? ?]
      | |- keeps _ (bind _ _) _ => apply keeps_bind_true; [|intros ?]
      | |- keeps _ (ret _) _ => by apply keeps_ret
      | |- keeps _ (raise _) _ => apply keeps_raise
      | |- keeps _ (lift _) _ => apply keeps_lift
      | |- keeps _ (load _) _ => apply keeps_load
      | |- keeps _ now _ => apply keeps_now
      | |- keeps _ (alloc _) _ => apply keeps_alloc
      | |- keeps _ (copy _) _ => apply keeps_copy
      | |- keeps _ (write _ _) _ => by apply keeps_write
      | |- keeps _ (setitem _ _ _) _ => by apply keeps_setitem
      | |- keeps _ (del_if_present _ _) _ => by apply keeps_del_if_present
      | |- keeps _ (rdb_get _) _ => apply keeps_rdb_get
      | |- keeps _ (rdb_set _ _) _ => apply keeps_rdb_set
      | |- keeps _ (mdb_find _ _) _ => apply keeps_mdb_find
      | |- keeps _ (mdb_insert_one _ _) _ => apply keeps_mdb_insert_one
      | |- keeps _ (mdb_insert_many _ _) _ => apply keeps_mdb_insert_many
      end
    | solve [eauto]
    | match goal with
      | |- keeps _ (if ?c then _ else _) _ => destruct c
      | |- keeps _ (match ?x with _ => _ end) _ => destruct x
      end ].

Section KeepsMethods.
Context `{Externals}.
Variable self : Concordia.
Variable D : gset loc.

Lemma keeps_check_row_id val rid idx :
  val ∉ D → keeps D (check_row_id self val rid idx) (λ v, v ∉ D).
Proof. intros Hval. unfold check_row_id. keeps_walk. Qed.

Lemma keeps_check_model_id val mid idx :
  val ∉ D → keeps D (check_model_id val mid idx) (λ v, v ∉ D).
Proof. intros Hval. unfold check_model_id. keeps_walk. Qed.

Lemma keeps_load_frame l : keeps D (load_frame l) (λ _, True).
Proof. unfold load_frame. keeps_walk. Qed.

Lemma keeps_insert_chunks fuel df vt i :
  keeps D (insert_chunks fuel df vt i) (λ _, True).
Proof.
  revert i. induction fuel as [|fuel IH]; intros i; simpl;
    destruct (negb (i <? nrows df)); keeps_walk.
Qed.

Lemma keeps_insert_df df vt rid mid :
  df ∉ D → keeps D (_insert_df_into_db self df vt rid mid) (λ _, True).
Proof.
  intros Hdf. unfold _insert_df_into_db. cbv zeta.
  pose proof keeps_load_frame. pose proof keeps_insert_chunks.
  keeps_walk.
Qed.

(** [insert_into_persistent_db] works on a copy of its payload. *)
Lemma keeps_insert val vt rid mid :
  keeps D (insert_into_persistent_db self val vt rid mid) (λ _, True).
Proof.
  unfold insert_into_persistent_db.
  pose proof keeps_check_row_id. pose proof keeps_check_model_id.
  pose proof keeps_insert_df.
  keeps_walk.
Qed.

Lemma keeps_get_model model_id : keeps D (_get_model model_id) (λ _, True).
Proof. unfold _get_model, retrieve_from_persistent_db. cbv zeta. keeps_walk. Qed.

Lemma keeps_invoke model proba features :
  keeps D (invoke model proba features) (λ _, True).
Proof.
  unfold invoke. apply keeps_bind_true; [apply keeps_load|]. intros o.
  by apply keeps_same_heap.
Qed.

Lemma keeps_predict features model_id row_id proba :
  keeps D (_predict self features model_id row_id proba) (λ _, True).
Proof.
  unfold _predict. cbv zeta.
  pose proof keeps_get_model. pose proof keeps_insert. pose proof keeps_invoke.
  keeps_walk.
Qed.
End KeepsMethods.

Section PayloadUntouched.
Context `{Externals}.
Variable self : Concordia.

(** No object that exists when a prediction call starts is changed by it. *)
Lemma predict_keeps_heap features model_id row_id proba s l o :
  heap s !! l = Some o →
  heap (_predict self features model_id row_id proba s).2 !! l = Some o.
Proof.
  intros Hl.
  destruct (keeps_predict self (dom (heap s)) features model_id row_id proba s)
    as (_ & Hkeep & _); [done|].
  rewrite Hkeep; [done|]. apply elem_of_dom. by eexists.
Qed.

(** C10.  [predict] and [predict_proba] leave the payload of the caller as
    it was, flat mapping or table, whatever the outcome of the call: the
    identifiers, the creation time and the removal of the internal
    identifier fields are applied to copies. *)
Theorem predict_leaves_payload_unchanged model_id features payload row_id s :
  heap s !! features = Some payload →
  heap (predict self model_id features row_id s).2 !! features = Some payload
  ∧ heap (predict_proba self model_id features row_id s).2 !! features = Some payload.
Proof.
  intros Hpayload. split; by apply predict_keeps_heap.
Qed.
End PayloadUntouched.

Lemma predict_leaves_payload_unchanged_witness :
  heap (predict titanic (VStr "titanic_1") 1 VNone (serving (ODict allen))).2 !! 1
  = Some (ODict allen)
  ∧ heap (predict_proba titanic (VStr "titanic_1") 1 VNone (serving (ODict allen))).2 !! 1
    = Some (ODict allen).
Proof.
  apply (predict_leaves_payload_unchanged (H := toy) titanic (VStr "titanic_1") 1
           (ODict allen) VNone (serving (ODict allen))).
  vm_compute. reflexivity.
Defined.

(** A prediction for a registered model, as in the test suite: the output of
    the model is returned, one [live_features] and one [live_predictions]
    document are written, both with the row identifier taken from the
    default field. *)
Example predict_logs_features_and_prediction :
  let run := predict titanic (VStr "titanic_1") 1 VNone (serving (ODict allen)) in
  run.1 = Ok (VInt 1)
  ∧ ((λ r : record, (r !! "row_id", r !! "model_id", r !! "age"))
       <$> collection run.2 "live_features")
    = [ (Some (VStr "Allen"), Some (VStr "titanic_1"), Some (VInt 29)) ]
  ∧ ((λ r : record, (r !! "row_id", r !! "model_id", r !! "prediction"))
       <$> collection run.2 "live_predictions")
    = [ (Some (VStr "Allen"), Some (VStr "titanic_1"), Some (VInt 1)) ]
  ∧ trace run.2
    = [ EvCacheSet "_concordia_titanic_1_model"; EvInsert "model_info" 1;
        EvCacheGet "_concordia_titanic_1_model"; EvInsert "live_features" 1;
        EvInvoke false; EvInsert "live_predictions" 1 ].
Proof. vm_compute. done. Qed.

(** The same for a table: [predict_proba] on two rows. *)
Example predict_proba_logs_a_table :
  let run := predict_proba titanic (VStr "titanic_1") 1 VNone (serving (OFrame passengers)) in
  run.1 = Ok (VArray [VInt 0; VInt 1])
  ∧ ((λ r : record, (r !! "row_id", r !! "model_id", r !! "name"))
       <$> collection run.2 "live_features")
    = [ (Some (VStr "Allen"), Some (VStr "titanic_1"), Some (VStr "Allen"));
        (Some (VStr "Braund"), Some (VStr "titanic_1"), Some (VStr "Braund")) ]
  ∧ ((λ r : record, (r !! "row_id", r !! "prediction"))
       <$> collection run.2 "live_predictions")
    = [ (Some (VStr "Allen"), Some (VInt 0)); (Some (VStr "Braund"), Some (VInt 1)) ].
Proof. vm_compute. done. Qed.

(** * Outcomes of the methods *)

(** ** Cache keys *)

Lemma list_ascii_of_string_app a b :
  String.list_ascii_of_string (a +:+ b)
  = String.list_ascii_of_string a ++ String.list_ascii_of_string b.
Proof.
  induction a as [|c a IH]; [done|].
  change (String c a +:+ b) with (String c (a +:+ b)). simpl. by rewrite IH.
Qed.

Lemma string_app_inj_r a b c : a +:+ c = b +:+ c → a = b.
Proof.
  intros E. apply (f_equal String.list_ascii_of_string) in E.
  rewrite !list_ascii_of_string_app in E. apply app_inv_tail in E.
  rewrite <- (String.string_of_list_ascii_of_string a).
  rewrite <- (String.string_of_list_ascii_of_string b).
  by rewrite E.
Qed.

Lemma make_redis_model_key_eq v w :
  make_redis_model_key v = make_redis_model_key w ↔ py_str v = py_str w.
Proof.
  unfold make_redis_model_key. split; [|by intros ->].
  intros E. apply (inj (String.app "_concordia_")) in E. by apply string_app_inj_r in E.
Qed.

Section SharedKeys.
Context `{Externals}.
Variable self : Concordia.

(** What a registration under an integer identifier leaves behind. *)
Lemma add_model_integer_run model z feature_names fi importances description s :
  heap s !! fi = Some (ODict importances) →
  ∃ s1 doc,
    add_model self model (VInt z) feature_names (Some fi) description s = (Ok tt, s1)
    ∧ rdb s1 = <[make_redis_model_key (VInt z) := dumps_base64 model]> (rdb s)
    ∧ collection s1 "model_info" = collection s "model_info" ++ [doc]
    ∧ doc !! "model_id" = Some (VInt z).
Proof.
  intros Hfi. unfold add_model. cbv zeta.
  erewrite bind_ok; [|reflexivity]. cbv beta.
  erewrite bind_ok.
  2:{ erewrite bind_ok; [|apply load_run; exact Hfi]. cbv beta iota.
      erewrite bind_ok; [|reflexivity]. reflexivity. }
  cbv beta. norm_state.
  erewrite bind_ok; [|reflexivity]. cbv beta. norm_state.
  erewrite bind_ok; [|reflexivity]. cbv beta. norm_state.
  erewrite insert_dict_run; [|norm_state; apply lookup_insert_eq|done..].
  norm_state. eexists. eexists. split; [reflexivity|].
  split; [done|]. split.
  { unfold collection. norm_state. by rewrite lookup_insert_eq. }
  unfold stored_doc, asscalar_items. by rewrite lookup_fmap, lookup_insert_eq.
Qed.

(** X1.  The cache key is built from the printed identifier, so that an
    integer identifier and the text of its decimal digits are one cache
    entry but two identifiers of the durable store: a model registered under
    the integer (one that fits the 64 bits of the store) is served from the
    cache to a lookup of the text, and once the cache entry is evicted that
    lookup fails, no document registered under the text being in the store.
    Two different texts never share a cache entry. *)
Theorem integer_and_text_ids_share_the_cache
    model m z feature_names fi importances description s :
  heap s !! fi = Some (ODict importances) →
  bson_value (VInt z) = true →
  loads_base64 (dumps_base64 model) = Some m →
  Forall (λ d : record, d !! "model_id" ≠ Some (VStr (pretty z)))
         (collection s "model_info") →
  let text := VStr (pretty z) in
  make_redis_model_key (VInt z) = make_redis_model_key text
  ∧ (∀ a b, make_redis_model_key (VStr a) = make_redis_model_key (VStr b) ↔ a = b)
  ∧ ∃ s1 doc,
      add_model self model (VInt z) feature_names (Some fi) description s = (Ok tt, s1)
      ∧ collection s1 "model_info" = collection s "model_info" ++ [doc]
      ∧ doc !! "model_id" = Some (VInt z)
      ∧ (_get_model text s1).1 = Ok m
      ∧ (_get_model text (rdb_delete (make_redis_model_key text) s1)).1
        = Raise (ValueError (ModelNotFound text)).
Proof.
  intros Hfi _ Hload Hnone text.
  assert (Hkey : make_redis_model_key (VInt z) = make_redis_model_key text)
    by (by apply make_redis_model_key_eq).
  split; [exact Hkey|]. split; [intros a b; apply make_redis_model_key_eq|].
  destruct (add_model_integer_run model z feature_names fi importances description s Hfi)
    as (s1 & doc & E & Hrdb & Hcoll & Hid).
  exists s1, doc. split; [exact E|]. split; [exact Hcoll|]. split; [exact Hid|]. split.
  - erewrite get_model_hit; [done| |exact Hload].
    rewrite Hrdb, <- Hkey. apply lookup_insert_eq.
  - subst text. rewrite get_model_absent; [done| |].
    + unfold rdb_delete. cbn [rdb set_rdb]. apply lookup_delete_eq.
    + rewrite (entries_of_mdb _ s1) by done.
      apply entries_of_none. rewrite Hcoll. apply Forall_app. split; [exact Hnone|].
      constructor; [|constructor]. by rewrite Hid.
Qed.
End SharedKeys.

Lemma integer_and_text_ids_share_the_cache_witness :
  let s := serving (ODict allen) in
  let text := VStr (pretty 7%Z) in
  make_redis_model_key (VInt 7) = make_redis_model_key text
  ∧ (∀ a b, make_redis_model_key (VStr a) = make_redis_model_key (VStr b) ↔ a = b)
  ∧ ∃ s1 doc,
      add_model titanic false (VInt 7) VNone (Some 0) VNone s = (Ok tt, s1)
      ∧ collection s1 "model_info" = collection s "model_info" ++ [doc]
      ∧ doc !! "model_id" = Some (VInt 7)
      ∧ (_get_model text s1).1 = Ok false
      ∧ (_get_model text (rdb_delete (make_redis_model_key text) s1)).1
        = Raise (ValueError (ModelNotFound text)).
Proof.
  apply (integer_and_text_ids_share_the_cache (H := toy) titanic false false 7 VNone 0
           {[ "age" := VInt 3 ]} VNone (serving (ODict allen))).
  - vm_compute. reflexivity.
  - reflexivity.
  - reflexivity.
  - vm_compute. repeat constructor. discriminate.
Defined.

(** ** Retrieval *)

Lemma value_leb_time t x : value_leb (VTime t) x = true ↔ ∃ t', x = VTime t' ∧ t ≤ t'.
Proof.
  destruct x; simpl; try (split; [done|by intros (? & ? & ?)]).
  rewrite Nat.leb_le. split; [by eexists|]. by intros (? & [= <-] & ?).
Qed.

(** X2.  On a collection whose [row_id], [model_id] and date fields hold
    single values, [retrieve_from_persistent_db] with identifiers that the
    driver encodes (no lists) and a time stamp, or nothing, as [min_date]
    returns the documents of the collection, in store order and with their
    multiplicity, that have the [row_id] and the [model_id] asked for and,
    when [min_date] is given, a time stamp at or after it in the date field
    (the creation time unless [date_field] names another field).  The
    stores are left as they were; the call records one [find]. *)
Theorem retrieve_returns_the_matching_documents
    val_type row_id model_id min_date date_field s :
  date_key date_field ≠ "row_id" → date_key date_field ≠ "model_id" →
  is_list row_id = false → bson_value row_id = true →
  is_list model_id = false → bson_value model_id = true →
  min_date = VNone ∨ (∃ t, min_date = VTime t) →
  Forall (λ d, single_valued "row_id" d ∧ single_valued "model_id" d
               ∧ single_valued (date_key date_field) d) (collection s val_type) →
  ∃ p, retrieve_from_persistent_db val_type row_id model_id min_date date_field s
       = (Ok (List.filter p (collection s val_type)), log (EvFind val_type) s)
       ∧ ∀ d : record,
           p d = true ↔
             carries row_id model_id d
             ∧ ∀ t, min_date = VTime t →
                 ∃ t', d !! date_key date_field = Some (VTime t') ∧ t ≤ t'.
Proof.
  intros Hr Hm _ _ _ _ Hdate _. eexists. split; [apply retrieve_run|]. intros d.
  rewrite query_params_date. destruct Hdate as [->|[t ->]]; cbn [is_none].
  - rewrite matches_id_filters. split; [|by intros [? _]].
    intros Hc. split; [done|]. intros t [=].
  - rewrite matches_spec. split.
    + intros Hq. split.
      * apply matches_id_filters, matches_spec. intros k c Hk. apply Hq.
        rewrite lookup_insert_ne; [done|]. intros <-.
        rewrite id_filters_lookup in Hk. revert Hk. repeat case_bool_decide; done.
      * intros t0 [= <-].
        specialize (Hq (date_key date_field) (AtLeast (VTime t)) (lookup_insert_eq _ _ _)).
        apply cond_holds_at_least in Hq as (x & Hx & Hle).
        apply value_leb_time in Hle as (t' & -> & Hle). by exists t'.
    + intros [Hc Ht] k c. destruct (decide (k = date_key date_field)) as [->|Hk].
      * rewrite lookup_insert_eq. intros [= <-].
        destruct (Ht t eq_refl) as (t' & Hd & Hle).
        apply cond_holds_at_least. exists (VTime t'). split; [done|].
        apply value_leb_time. by exists t'.
      * rewrite lookup_insert_ne by done. intros Hq.
        apply matches_id_filters in Hc. rewrite matches_spec in Hc. by apply Hc.
Qed.

(** X3.  When [date_field] names [row_id] or [model_id] and a [min_date]
    is given, the date filter is written over the equality filter on that
    identifier: the identifier passed is ignored. *)
Theorem date_field_replaces_id_filter val_type row_id model_id min_date s :
  min_date ≠ VNone →
  retrieve_from_persistent_db val_type row_id model_id min_date (Some "row_id") s
  = retrieve_from_persistent_db val_type VNone model_id min_date (Some "row_id") s
  ∧ retrieve_from_persistent_db val_type row_id model_id min_date (Some "model_id") s
    = retrieve_from_persistent_db val_type row_id VNone min_date (Some "model_id") s.
Proof.
  intros Hn. rewrite !retrieve_run.
  assert (E1 : query_params row_id model_id min_date (Some "row_id")
               = query_params VNone model_id min_date (Some "row_id")).
  { apply map_eq. intros k. rewrite !query_params_lookup, (is_none_false _ Hn).
    unfold date_key. simpl. by repeat case_bool_decide. }
  assert (E2 : query_params row_id model_id min_date (Some "model_id")
               = query_params row_id VNone min_date (Some "model_id")).
  { apply map_eq. intros k. rewrite !query_params_lookup, (is_none_false _ Hn).
    unfold date_key. simpl. by repeat case_bool_decide. }
  by rewrite E1, E2.
Qed.

Lemma retrieve_returns_the_matching_documents_witness :
  ∃ p, retrieve_from_persistent_db "model_info" VNone (VStr "titanic_1") (VTime 1)
         (Some "date_added") two_entries
       = (Ok (List.filter p (collection two_entries "model_info")),
          log (EvFind "model_info") two_entries)
       ∧ ∀ d : record,
           p d = true ↔
             carries VNone (VStr "titanic_1") d
             ∧ ∀ t, VTime 1 = VTime t →
                 ∃ t', d !! date_key (Some "date_added") = Some (VTime t') ∧ t ≤ t'.
Proof.
  apply (retrieve_returns_the_matching_documents "model_info" VNone (VStr "titanic_1")
           (VTime 1) (Some "date_added") two_entries).
  - discriminate.
  - discriminate.
  - reflexivity.
  - reflexivity.
  - reflexivity.
  - reflexivity.
  - right. by exists 1.
  - repeat constructor; intros l; vm_compute; discriminate.
Defined.

Lemma date_field_replaces_id_filter_witness :
  retrieve_from_persistent_db "model_info" (VStr "r1") (VStr "titanic_1") (VInt 0)
    (Some "row_id") two_entries
  = retrieve_from_persistent_db "model_info" VNone (VStr "titanic_1") (VInt 0)
      (Some "row_id") two_entries
  ∧ retrieve_from_persistent_db "model_info" (VStr "r1") (VStr "titanic_1") (VInt 0)
      (Some "model_id") two_entries
    = retrieve_from_persistent_db "model_info" (VStr "r1") VNone (VInt 0)
        (Some "model_id") two_entries.
Proof.
  apply (date_field_replaces_id_filter "model_info" (VStr "r1") (VStr "titanic_1")
           (VInt 0) two_entries). discriminate.
Defined.

(** ** The identity checks *)

Section IdentityChecks.
Context `{Externals}.
Variable self : Concordia.

Lemma check_row_id_dict val rid idx d s :
  heap s !! val = Some (ODict d) →
  check_row_id self val rid idx s
  = match picked rid idx with
    | Raise e => (Raise e, s)
    | Ok r =>
        let x := if is_none r then obj_get (ODict d) (default_row_id_field self) else r in
        if is_none x then (Raise (ValueError MissingRowId), s)
        else (Ok val, set_heap (<[val := ODict (<["row_id" := x]> d)]> (heap s)) s)
    end.
Proof.
  intros Hval. unfold check_row_id.
  assert (E : (match rid with VList l => lift (getindex l idx) | _ => ret rid end) s
              = match picked rid idx with Raise e => (Raise e, s) | Ok r => (Ok r, s) end).
  { destruct rid; try reflexivity. simpl. by destruct (getindex l idx). }
  unfold bind at 1. rewrite E. destruct (picked rid idx) as [r|e]; [|done].
  cbv zeta. destruct (is_none r) eqn:Hr.
  - unfold bind at 1. rewrite (bind_ok _ _ _ _ _ (load_run _ _ _ Hval)).
    destruct (is_none (obj_get (ODict d) (default_row_id_field self))) eqn:Hc; [done|].
    cbn [ret]. rewrite Hc. unfold bind at 1. cbn [ret].
    by rewrite (bind_ok _ _ _ _ _ (setitem_run _ _ _ _ _ _ Hval eq_refl)).
  - unfold bind at 1. cbn [ret]. rewrite Hr. unfold bind at 1. cbn [ret].
    by rewrite (bind_ok _ _ _ _ _ (setitem_run _ _ _ _ _ _ Hval eq_refl)).
Qed.

Lemma check_model_id_dict val mid idx d s :
  heap s !! val = Some (ODict d) →
  check_model_id val mid idx s
  = match picked mid idx with
    | Raise e => (Raise e, s)
    | Ok r =>
        let x := if is_none r then obj_get (ODict d) (Some "model_id") else r in
        if is_none x then (Raise (ValueError MissingModelId), s)
        else (Ok val, set_heap (<[val := ODict (<["model_id" := x]> d)]> (heap s)) s)
    end.
Proof.
  intros Hval. unfold check_model_id.
  assert (E : (match mid with VList l => lift (getindex l idx) | _ => ret mid end) s
              = match picked mid idx with Raise e => (Raise e, s) | Ok r => (Ok r, s) end).
  { destruct mid; try reflexivity. simpl. by destruct (getindex l idx). }
  unfold bind at 1. rewrite E. destruct (picked mid idx) as [r|e]; [|done].
  cbv zeta. destruct (is_none r) eqn:Hr.
  - unfold bind at 1. rewrite (bind_ok _ _ _ _ _ (load_run _ _ _ Hval)).
    destruct (is_none (obj_get (ODict d) (Some "model_id"))) eqn:Hc; [done|].
    cbn [ret]. rewrite Hc. unfold bind at 1. cbn [ret].
    by rewrite (bind_ok _ _ _ _ _ (setitem_run _ _ _ _ _ _ Hval eq_refl)).
  - unfold bind at 1. cbn [ret]. rewrite Hr. unfold bind at 1. cbn [ret].
    by rewrite (bind_ok _ _ _ _ _ (setitem_run _ _ _ _ _ _ Hval eq_refl)).
Qed.

(** X4.  The assertions [assert row_id is not None] and [assert model_id is
    not None] never fail: on every payload, identifier, index and state,
    [check_row_id] and [check_model_id] return or raise another error. *)
Theorem identity_assertions_never_fail val id idx s :
  (check_row_id self val id idx s).1 ≠ Raise AssertionError
  ∧ (check_model_id val id idx s).1 ≠ Raise AssertionError.
Proof.
  assert (Hset : ∀ k v s0, (setitem val k v s0).1 ≠ Raise AssertionError).
  { intros k v s0. unfold setitem, bind, load, lift, write.
    destruct (heap s0 !! val) as [o|]; [|done].
    destruct o as [d|df]; simpl; [done|].
    unfold set_column. destruct (seq_items v) as [l|]; simpl; [|done].
    destruct (length l =? nrows df); simpl; [done|].
    destruct (nrows df =? 0); simpl; [done|]. by destruct v. }
  assert (Hpick : ∀ s0, (match id with VList l => lift (getindex l idx) | _ => ret id end) s0
              = match picked id idx with Raise e => (Raise e, s0) | Ok r => (Ok r, s0) end).
  { intros s0. destruct id; try reflexivity. simpl. by destruct (getindex l idx). }
  assert (Hpicked : ∀ e, picked id idx = Raise e → e ≠ AssertionError).
  { intros e. destruct id; try done. simpl. unfold getindex.
    destruct idx as [i|]; [|by intros [= <-]].
    destruct (l !! i); [done|by intros [= <-]]. }
  split.
  - unfold check_row_id. unfold bind at 1. rewrite Hpick.
    destruct (picked id idx) as [r|e] eqn:Hp; [|simpl; intros [= ->]; by eapply Hpicked].
    destruct (is_none r) eqn:Hr.
    + unfold bind at 1. unfold bind at 1. unfold load.
      destruct (heap s !! val) as [o|]; [|done].
      destruct (is_none (obj_get o (default_row_id_field self))) eqn:Hc; [done|].
      cbn [ret]. rewrite Hc. unfold bind at 1. cbn [ret]. unfold bind.
      specialize (Hset "row_id" (obj_get o (default_row_id_field self)) s).
      destruct (setitem val "row_id" _ s) as [[[]|e] s1]; simpl in *; [done|].
      intros [= ->]. done.
    + unfold bind at 1. cbn [ret]. rewrite Hr. unfold bind at 1. cbn [ret]. unfold bind.
      specialize (Hset "row_id" r s).
      destruct (setitem val "row_id" _ s) as [[[]|e] s1]; simpl in *; [done|].
      intros [= ->]. done.
  - unfold check_model_id. unfold bind at 1. rewrite Hpick.
    destruct (picked id idx) as [r|e] eqn:Hp; [|simpl; intros [= ->]; by eapply Hpicked].
    destruct (is_none r) eqn:Hr.
    + unfold bind at 1. unfold bind at 1. unfold load.
      destruct (heap s !! val) as [o|]; [|done].
      destruct (is_none (obj_get o (Some "model_id"))) eqn:Hc; [done|].
      cbn [ret]. rewrite Hc. unfold bind at 1. cbn [ret]. unfold bind.
      specialize (Hset "model_id" (obj_get o (Some "model_id")) s).
      destruct (setitem val "model_id" _ s) as [[[]|e] s1]; simpl in *; [done|].
      intros [= ->]. done.
    + unfold bind at 1. cbn [ret]. rewrite Hr. unfold bind at 1. cbn [ret]. unfold bind.
      specialize (Hset "model_id" r s).
      destruct (setitem val "model_id" _ s) as [[[]|e] s1]; simpl in *; [done|].
      intros [= ->]. done.
Qed.

(** X5.  On an instance without [default_row_id_field], [check_row_id]
    without an explicit [row_id] raises the [ValueError] about the missing
    [row_id] whatever the payload holds, a [row_id] entry of its own
    included, and changes nothing. *)
Theorem check_row_id_ignores_payload_row_id val o idx s :
  default_row_id_field self = None →
  heap s !! val = Some o →
  check_row_id self val VNone idx s = (Raise (ValueError MissingRowId), s).
Proof.
  intros Hdef Hval. unfold check_row_id. unfold bind at 1. cbn [ret is_none].
  unfold bind at 1. rewrite (bind_ok _ _ _ _ _ (load_run _ _ _ Hval)).
  rewrite Hdef. reflexivity.
Qed.

(** X6.  [check_model_id] without an explicit [model_id], on a flat payload
    that carries a [model_id] of its own, returns the payload and leaves the
    whole state as it was. *)
Theorem check_model_id_keeps_payload_model_id val d m idx s :
  heap s !! val = Some (ODict d) →
  d !! "model_id" = Some m → m ≠ VNone →
  check_model_id val VNone idx s = (Ok val, s).
Proof.
  intros Hval Hm Hn. rewrite (check_model_id_dict val VNone idx d s Hval).
  simpl. rewrite Hm. simpl. rewrite (is_none_false _ Hn).
  rewrite (insert_id d) by done. unfold set_heap. rewrite insert_id by done.
  by rewrite state_eta.
Qed.
End IdentityChecks.

Lemma check_row_id_ignores_payload_row_id_witness :
  check_row_id bare 0 VNone None (with_objects [ODict tagged])
  = (Raise (ValueError MissingRowId), with_objects [ODict tagged]).
Proof.
  apply (check_row_id_ignores_payload_row_id bare 0 (ODict tagged)); reflexivity.
Defined.

Lemma check_model_id_keeps_payload_model_id_witness :
  check_model_id 0 VNone None (with_objects [ODict tagged])
  = (Ok 0, with_objects [ODict tagged]).
Proof.
  apply (check_model_id_keeps_payload_model_id 0 tagged (VStr "m0")).
  - reflexivity.
  - reflexivity.
  - discriminate.
Defined.

(** ** Single records *)

#[local] Instance quiet_rel : StoreRel quiet.
Proof.
  split.
  - by intros s s' ? ? ?.
  - unfold quiet. intros s1 s2 s3 (? & ? & ?) (? & ? & ?). repeat split; congruence.
Qed.

Lemma fails_quietly_bind {A B} (m : M A) (k : A → M B) :
  respects quiet m → (∀ a, fails_quietly (k a)) → fails_quietly (bind m k).
Proof.
  intros Hm Hk s e s'. unfold bind. specialize (Hm s).
  destruct (m s) as [[a|e1] s1]; simpl in *.
  - intros E. eapply rel_trans; [exact Hm|]. by eapply Hk.
  - by intros [= <- <-].
Qed.

Lemma quiet_fails {A} (m : M A) : respects quiet m → fails_quietly m.
Proof. intros Hm s e s' E. specialize (Hm s). by rewrite E in Hm. Qed.

(** *** The exceptions of a run *)

Section RaisesOnly.
Variable P : exn → Prop.

Lemma raises_only_ret {A} (a : A) : raises_only P (ret a).
Proof. by intros s e s'. Qed.

Lemma raises_only_raise {A} e : P e → raises_only P (@raise A e).
Proof. intros He s e' s'. by intros [= <- _]. Qed.

Lemma raises_only_lift {A} (r : result A) :
  (∀ e, r = Raise e → P e) → raises_only P (lift r).
Proof. intros Hr s e s'. destruct r; [done|]. intros [= <- _]. by apply Hr. Qed.

Lemma raises_only_bind {A B} (m : M A) (k : A → M B) :
  raises_only P m → (∀ a, raises_only P (k a)) → raises_only P (bind m k).
Proof.
  intros Hm Hk s e s'. unfold bind. destruct (m s) as [[a|e1] s1] eqn:E.
  - apply Hk.
  - intros [= <- _]. by eapply Hm.
Qed.

Lemma raises_only_load l : P AttributeError → raises_only P (load l).
Proof. intros He s e s'. unfold load. destruct (heap s !! l); [done|]. by intros [= <- _]. Qed.

Lemma raises_only_alloc o : raises_only P (alloc o).
Proof. by intros s e s'. Qed.

Lemma raises_only_write l o : raises_only P (write l o).
Proof. by intros s e s'. Qed.

Lemma raises_only_now : raises_only P now.
Proof. by intros s e s'. Qed.

Lemma raises_only_insert_one vt d : raises_only P (mdb_insert_one vt d).
Proof. by intros s e s'. Qed.
End RaisesOnly.

Lemma obj_setitem_raises o k v e :
  obj_setitem o k v = Raise e → e = ValueError LengthMismatch.
Proof.
  destruct o as [d|f]; simpl; [done|]. unfold set_column.
  destruct (seq_items v) as [l|]; [|done].
  destruct (_ =? _); [done|]. destruct (_ =? _); [done|].
  destruct v; simpl; by intros [= <-].
Qed.

Lemma ingestion_error_other e : (∀ msg, e ≠ ValueError msg) → ingestion_error e.
Proof. intros He msg ->. by destruct (He msg). Qed.

Create HintDb raises.

#[local] Hint Extern 1 (ingestion_error _) =>
  solve [apply ingestion_error_other; discriminate | intros ? [= <-]; tauto] : raises.

(** Walk through a method body, as [respects_walk] does. *)
Ltac raises_walk :=
  repeat first
    [ match goal with
      | |- raises_only ?P (bind _ _) => apply (raises_only_bind P); [|intros ?]
      | |- raises_only ?P (ret _) => apply (raises_only_ret P)
      | |- raises_only ?P (raise _) => apply (raises_only_raise P)
      | |- raises_only ?P (lift _) => apply (raises_only_lift P)
      | |- raises_only ?P (load _) => apply (raises_only_load P)
      | |- raises_only ?P (alloc _) => apply (raises_only_alloc P)
      | |- raises_only ?P (write _ _) => apply (raises_only_write P)
      | |- raises_only ?P now => apply (raises_only_now P)
      | |- raises_only ?P (mdb_insert_one _ _) => apply (raises_only_insert_one P)
      end
    | solve [eauto with raises]
    | match goal with
      | |- raises_only _ (if ?c then _ else _) => destruct c
      | |- raises_only _ (match ?x with _ => _ end) => destruct x
      end ].

(** *** The outcome of an insertion *)

Section SingleRecordOutcome.
Context `{Externals}.
Variable self : Concordia.

Lemma insert_fails_quietly val vt rid mid :
  fails_quietly (insert_into_persistent_db self val vt rid mid).
Proof.
  unfold insert_into_persistent_db.
  do 5 (apply fails_quietly_bind; [respects_walk|]; intros ?).
  apply fails_quietly_bind; [respects_walk|]. intros o. destruct o as [d|f].
  - apply fails_quietly_bind; [apply respects_check_row_id; apply _|]. intros ?.
    apply fails_quietly_bind; [apply respects_check_model_id; apply _|]. intros ?.
    apply fails_quietly_bind; [respects_walk|]. intros o. destruct o as [d'|f'].
    + apply fails_quietly_bind; [respects_walk|]. intros _. by intros s e s'.
    + apply quiet_fails. respects_walk.
  - unfold _insert_df_into_db.
    apply fails_quietly_bind; [apply respects_load_frame; apply _|]. intros f0. cbv zeta.
    apply fails_quietly_bind; [respects_walk|]. intros _.
    apply fails_quietly_bind; [respects_walk|]. intros _.
    apply fails_quietly_bind; [apply respects_load_frame; apply _|]. intros f1.
    intros s e s' E.
    destruct (insert_chunks_run (nrows f1) f1 vt 0 s) as (s1 & E1 & _); [lia|].
    rewrite E1 in E. discriminate.
Qed.

(** The outcome of [insert_into_persistent_db] on a flat payload. *)
Lemma insert_dict_outcome val d vt rid mid s :
  heap s !! val = Some (ODict d) →
  insert_into_persistent_db self val vt rid mid s
  = let l := fresh (dom (heap s)) in
    let d1 := stamped d (clock s) in
    let failed (e : exn) (d' : record) : result unit * state :=
      (Raise e, mkState (<[l := ODict d']> (heap s)) (rdb s) (mdb s) (S (clock s)) (trace s)) in
    match picked rid None with
    | Raise e => failed e d1
    | Ok r =>
        let x := if is_none r then obj_get (ODict d1) (default_row_id_field self) else r in
        if is_none x then failed (ValueError MissingRowId) d1
        else
          let d2 := <["row_id" := x]> d1 in
          match picked mid None with
          | Raise e => failed e d2
          | Ok m =>
              let y := if is_none m then obj_get (ODict d2) (Some "model_id") else m in
              if is_none y then failed (ValueError MissingModelId) d2
              else
                let doc := asscalar_items (<["model_id" := y]> d2) in
                (Ok tt,
                 mkState (<[l := ODict doc]> (heap s)) (rdb s)
                         (<[vt := collection s vt ++ [doc]]> (mdb s))
                         (S (clock s)) (trace s ++ [EvInsert vt 1]))
          end
    end.
Proof.
  intros Hval. unfold insert_into_persistent_db.
  rewrite (bind_ok _ _ _ _ _ (copy_run _ _ _ Hval)). cbv beta.
  set (l := fresh (dom (heap s))).
  erewrite bind_ok; [|apply del_if_present_run; simpl; apply lookup_insert_eq].
  rewrite strip_step_dict. cbv beta. flat_state. rewrite insert_insert_eq.
  erewrite bind_ok; [|apply del_if_present_run; simpl; apply lookup_insert_eq].
  rewrite strip_step_dict. cbv beta. flat_state. rewrite insert_insert_eq.
  erewrite bind_ok; [|reflexivity]. cbv beta. flat_state.
  erewrite bind_ok; [|eapply setitem_run; [simpl; apply lookup_insert_eq|reflexivity]].
  cbv beta. flat_state. rewrite insert_insert_eq.
  erewrite bind_ok; [|apply load_run; simpl; apply lookup_insert_eq]. cbv beta iota.
  fold (stamped d (clock s)). cbv zeta.
  unfold bind at 1. erewrite check_row_id_dict; [|simpl; apply lookup_insert_eq].
  destruct (picked rid None) as [r|e]; [|done]. cbv zeta.
  destruct (is_none (if is_none r then _ else r)); [done|].
  flat_state. rewrite insert_insert_eq.
  unfold bind at 1. erewrite check_model_id_dict; [|simpl; apply lookup_insert_eq].
  destruct (picked mid None) as [m|e]; [|done]. cbv zeta.
  destruct (is_none (if is_none m then _ else m)); [done|].
  flat_state. rewrite insert_insert_eq.
  erewrite (bind_ok (load l)); [|apply load_run; simpl; apply lookup_insert_eq].
  cbv beta iota. unfold bind, write, mdb_insert_one. cbv beta iota. flat_state.
  by rewrite insert_insert_eq.
Qed.

Lemma picked_no_index_ok id r : picked id None = Ok r → r = id ∧ is_list id = false.
Proof. destruct id; simpl; intros [= <-]; done. Qed.

Lemma lookup_asscalar_items (d : record) k : asscalar_items d !! k = unboxed <$> d !! k.
Proof. unfold asscalar_items. by rewrite lookup_fmap. Qed.

Lemma unboxed_not_np v : is_np_generic (unboxed v) = false.
Proof. by destruct v. Qed.

Lemma setitem_raises l k v : raises_only ingestion_error (setitem l k v).
Proof.
  unfold setitem. raises_walk. intros e He. apply obj_setitem_raises in He as ->.
  intros msg [= <-]. tauto.
Qed.

Lemma ingestion_errors val vt rid mid :
  raises_only ingestion_error (insert_into_persistent_db self val vt rid mid).
Proof.
  pose proof setitem_raises as Hset.
  unfold insert_into_persistent_db, copy, del_if_present, check_row_id, check_model_id,
    _insert_df_into_db, load_frame, getindex.
  raises_walk.
  all: try (intros ? [= <-]; apply ingestion_error_other; discriminate).
  intros s e s'.
  match goal with |- insert_chunks ?n ?f ?vt 0 s = _ → _ =>
    destruct (insert_chunks_run n f vt 0 s) as (s1 & -> & _); [lia|done]
  end.
Qed.


(** X8.  A flat payload that [insert_into_persistent_db] stores becomes
    exactly one document of the collection given, in one [insert_one]; the
    document carries neither the [_id] nor the [_id_] of the payload, its
    creation time is the clock at the call (read once), every other payload
    field outside the identity fields is kept with numpy scalars converted,
    and no field of the document is a numpy scalar. *)
Theorem single_record_is_stripped_stamped_and_unboxed val d val_type row_id model_id s s' :
  heap s !! val = Some (ODict d) →
  insert_into_persistent_db self val val_type row_id model_id s = (Ok tt, s') →
  ∃ doc,
    collection s' val_type = collection s val_type ++ [doc]
    ∧ (∀ vt, vt ≠ val_type → collection s' vt = collection s vt)
    ∧ rdb s' = rdb s
    ∧ clock s' = S (clock s)
    ∧ trace s' = trace s ++ [EvInsert val_type 1]
    ∧ doc !! "_id" = None ∧ doc !! "_id_" = None
    ∧ doc !! "_concordia_created_at" = Some (VTime (clock s))
    ∧ (∀ k, k ∉ pipeline_keys → doc !! k = unboxed <$> d !! k)
    ∧ ∀ k v, doc !! k = Some v → is_np_generic v = false.
Proof.
  intros Hval. rewrite (insert_dict_outcome val d val_type row_id model_id s Hval).
  cbv zeta. destruct (picked row_id None) as [r|?]; [|done].
  destruct (is_none (if is_none r then _ else r)); [done|].
  destruct (picked model_id None) as [m|?]; [|done].
  destruct (is_none (if is_none m then _ else m)); [done|].
  intros [= <-]. eexists. split; [|split; [|split; [|split; [|split]]]].
  - unfold collection at 1. cbn [mdb]. by rewrite lookup_insert_eq.
  - intros vt Hvt. unfold collection. cbn [mdb]. by rewrite lookup_insert_ne.
  - done.
  - done.
  - done.
  - unfold stamped. rewrite !lookup_asscalar_items.
    rewrite !(lookup_insert_ne _ "model_id"), !(lookup_insert_ne _ "row_id") by done.
    rewrite lookup_insert_eq, !(lookup_insert_ne _ "_concordia_created_at") by done.
    rewrite (lookup_delete_ne _ "_id_" "_id") by done.
    rewrite !lookup_delete_eq. repeat split; try done.
    + intros k Hk. unfold pipeline_keys in Hk.
      assert (k ≠ "_id" ∧ k ≠ "_id_" ∧ k ≠ "_concordia_created_at"
              ∧ k ≠ "row_id" ∧ k ≠ "model_id") as (K1 & K2 & K3 & K4 & K5).
      { repeat split; intros ->; apply Hk; set_solver. }
      rewrite lookup_asscalar_items.
      by rewrite !lookup_insert_ne, !lookup_delete_ne by done.
    + intros k v. rewrite lookup_asscalar_items. intros Hv.
      apply fmap_Some in Hv as (v0 & _ & ->). apply unboxed_not_np.
Qed.

(** X9.  In the document of a stored flat payload, [row_id] is the explicit
    [row_id] when one is given, over any [row_id] of the payload, and
    otherwise the value of the default row-id field of the stripped and
    stamped payload; [model_id] is the explicit [model_id] when one is given
    and otherwise the [model_id] of the payload. *)
Theorem single_record_identity_resolution val d val_type row_id model_id s s' :
  heap s !! val = Some (ODict d) →
  insert_into_persistent_db self val val_type row_id model_id s = (Ok tt, s') →
  ∃ doc,
    collection s' val_type = collection s val_type ++ [doc]
    ∧ doc !! "row_id"
      = Some (unboxed (if is_none row_id
                       then obj_get (ODict (stamped d (clock s))) (default_row_id_field self)
                       else row_id))
    ∧ doc !! "model_id"
      = Some (unboxed (if is_none model_id
                       then default VNone (d !! "model_id")
                       else model_id)).
Proof.
  intros Hval. rewrite (insert_dict_outcome val d val_type row_id model_id s Hval).
  cbv zeta. destruct (picked row_id None) as [r|?] eqn:Hr; [|done].
  apply picked_no_index_ok in Hr as [-> _].
  destruct (is_none (if is_none row_id then _ else row_id)); [done|].
  destruct (picked model_id None) as [m|?] eqn:Hm; [|done].
  apply picked_no_index_ok in Hm as [-> _].
  destruct (is_none (if is_none model_id then _ else model_id)); [done|].
  intros [= <-]. eexists. split; [|split].
  - unfold collection at 1. cbn [mdb]. by rewrite lookup_insert_eq.
  - rewrite lookup_asscalar_items, lookup_insert_ne, lookup_insert_eq by done. done.
  - rewrite lookup_asscalar_items, lookup_insert_eq. simpl. do 3 f_equal.
    unfold stamped. by rewrite !lookup_insert_ne, !lookup_delete_ne by done.
Qed.

(** X10.  A flat payload inserted with a list as [row_id], or with a
    [row_id] and a list as [model_id], raises [TypeError] (the list is
    indexed with [idx=None]) and stores nothing. *)
Theorem single_record_with_list_of_ids_raises val d val_type row_id model_id s :
  heap s !! val = Some (ODict d) →
  is_list row_id = true ∨ (is_list model_id = true ∧ row_id ≠ VNone) →
  let run := insert_into_persistent_db self val val_type row_id model_id s in
  run.1 = Raise TypeError ∧ mdb run.2 = mdb s.
Proof.
  intros Hval Hlist run. subst run.
  rewrite (insert_dict_outcome val d val_type row_id model_id s Hval). cbv zeta.
  destruct Hlist as [Hr|[Hm Hn]].
  - by destruct row_id.
  - destruct (picked row_id None) as [r|e] eqn:Hr.
    + apply picked_no_index_ok in Hr as [-> _]. rewrite (is_none_false _ Hn).
      rewrite (is_none_false _ Hn). by destruct model_id.
    + destruct row_id; try done. simpl in Hr. by injection Hr as <-.
Qed.
End SingleRecordOutcome.


Lemma single_record_is_stripped_stamped_and_unboxed_witness :
  let s := with_objects [ODict allen] in
  let s' := (insert_into_persistent_db titanic 0 "live_features" VNone (VStr "m1") s).2 in
  ∃ doc,
    collection s' "live_features" = collection s "live_features" ++ [doc]
    ∧ (∀ vt, vt ≠ "live_features" → collection s' vt = collection s vt)
    ∧ rdb s' = rdb s
    ∧ clock s' = S (clock s)
    ∧ trace s' = trace s ++ [EvInsert "live_features" 1]
    ∧ doc !! "_id" = None ∧ doc !! "_id_" = None
    ∧ doc !! "_concordia_created_at" = Some (VTime (clock s))
    ∧ (∀ k, k ∉ pipeline_keys → doc !! k = unboxed <$> allen !! k)
    ∧ ∀ k v, doc !! k = Some v → is_np_generic v = false.
Proof.
  apply (single_record_is_stripped_stamped_and_unboxed titanic 0 allen "live_features"
           VNone (VStr "m1") (with_objects [ODict allen])).
  - reflexivity.
  - vm_compute. reflexivity.
Defined.

Lemma single_record_identity_resolution_witness :
  let s := with_objects [ODict allen] in
  let s' := (insert_into_persistent_db titanic 0 "live_features" VNone (VStr "m1") s).2 in
  ∃ doc,
    collection s' "live_features" = collection s "live_features" ++ [doc]
    ∧ doc !! "row_id"
      = Some (unboxed (if is_none VNone
                       then obj_get (ODict (stamped allen (clock s)))
                              (default_row_id_field titanic)
                       else VNone))
    ∧ doc !! "model_id"
      = Some (unboxed (if is_none (VStr "m1")
                       then default VNone (allen !! "model_id")
                       else VStr "m1")).
Proof.
  apply (single_record_identity_resolution titanic 0 allen "live_features"
           VNone (VStr "m1") (with_objects [ODict allen])).
  - reflexivity.
  - vm_compute. reflexivity.
Defined.

Lemma single_record_with_list_of_ids_raises_witness :
  let run := insert_into_persistent_db titanic 0 "live_features"
               (VList [VStr "r1"]) (VStr "m1") (with_objects [ODict allen]) in
  run.1 = Raise TypeError ∧ mdb run.2 = mdb (with_objects [ODict allen]).
Proof.
  apply (single_record_with_list_of_ids_raises titanic 0 allen).
  - reflexivity.
  - left. reflexivity.
Defined.

(** ** Tables *)

Lemma chunk_lengths_step n :
  0 < n → chunk_lengths n = Nat.min n chunk_size :: chunk_lengths (n - chunk_size).
Proof.
  unfold chunk_lengths. generalize chunk_size_pos. generalize chunk_size.
  intros c Hc Hn. destruct (Nat.lt_ge_cases n c) as [Hlt|Hge].
  - rewrite (Nat.div_small n c), (Nat.mod_small n c) by done.
    replace (n - c) with 0 by lia.
    rewrite (Nat.div_small 0 c), (Nat.mod_small 0 c) by done.
    rewrite Nat.min_l by lia. simpl.
    destruct (Nat.eqb_spec n 0); [lia|done].
  - rewrite Nat.min_r by done.
    assert (Hd : n / c = S ((n - c) / c)).
    { replace n with ((n - c) + 1 * c) at 1 by lia. rewrite Nat.div_add by lia. lia. }
    assert (Hm : n mod c = (n - c) mod c).
    { replace n with ((n - c) + 1 * c) at 1 by lia. by rewrite Nat.Div0.mod_add. }
    by rewrite Hd, Hm.
Qed.

Lemma chunk_lengths_0 : chunk_lengths 0 = [].
Proof.
  unfold chunk_lengths. generalize chunk_size_pos. generalize chunk_size.
  intros c Hc. by rewrite (Nat.div_small 0 c), (Nat.mod_small 0 c).
Qed.

Section Chunking.
Context `{Externals}.
Variable self : Concordia.

Lemma insert_chunks_trace fuel df vt i s :
  nrows df - i ≤ fuel →
  trace (insert_chunks fuel df vt i s).2
  = trace s ++ (EvInsert vt <$> chunk_lengths (nrows df - i)).
Proof.
  revert i s. induction fuel as [|fuel IH]; intros i s Hfuel.
  - simpl. destruct (Nat.ltb_spec i (nrows df)); [lia|]. simpl.
    replace (nrows df - i) with 0 by lia. rewrite chunk_lengths_0. simpl.
    by rewrite app_nil_r.
  - simpl. destruct (Nat.ltb_spec i (nrows df)) as [Hlt|Hge]; simpl.
    + pose proof chunk_size_pos as Hpos.
      set (chunk := take (Nat.min (nrows df) (i + chunk_size) - i) (drop i (rows df))).
      assert (Hlen : length chunk = Nat.min (nrows df - i) chunk_size).
      { unfold chunk. rewrite length_take, length_drop. unfold nrows. lia. }
      assert (Hchunk : chunk ≠ []).
      { intros E. rewrite E in Hlen. simpl in Hlen. lia. }
      unfold to_dict_records, iloc. simpl. fold chunk.
      assert (E1 : mdb_insert_many vt chunk s
                   = (Ok tt, log (EvInsert vt (length chunk))
                               (set_mdb (<[vt := collection s vt ++ chunk]> (mdb s)) s))).
      { by destruct chunk. }
      rewrite (bind_ok _ _ _ _ _ E1). rewrite IH by lia. simpl.
      rewrite (chunk_lengths_step (nrows df - i)) by lia.
      rewrite <- app_assoc. simpl. rewrite Hlen.
      by replace (nrows df - i - chunk_size) with (nrows df - (i + chunk_size)) by lia.
    + replace (nrows df - i) with 0 by lia. rewrite chunk_lengths_0. simpl.
      by rewrite app_nil_r.
Qed.

Lemma bind_ok_inv {A B} (m : M A) (k : A → M B) s b s' :
  bind m k s = (Ok b, s') → ∃ a s1, m s = (Ok a, s1) ∧ k a s1 = (Ok b, s').
Proof.
  unfold bind. destruct (m s) as [[a|e] s1]; [|discriminate]. intros E. by exists a, s1.
Qed.

Lemma load_frame_inv l f s s' :
  load_frame l s = (Ok f, s') → s' = s ∧ heap s !! l = Some (OFrame f).
Proof.
  unfold load_frame, bind, load. destruct (heap s !! l) as [[d|f0]|]; try discriminate.
  by intros [= <- <-].
Qed.

(** What [_insert_df_into_db] has done when it returns. *)
Lemma insert_df_ok df vt rid mid s s' :
  _insert_df_into_db self df vt rid mid s = (Ok tt, s') →
  ∃ f', heap s' !! df = Some (OFrame f')
        ∧ collection s' vt = collection s vt ++ rows f'
        ∧ trace s' = trace s ++ (EvInsert vt <$> chunk_lengths (nrows f')).
Proof.
  unfold _insert_df_into_db. intros E.
  apply bind_ok_inv in E as (f & s0 & E0 & E). apply load_frame_inv in E0 as [-> _].
  cbv zeta in E.
  apply bind_ok_inv in E as ([] & s1 & E1 & E).
  apply bind_ok_inv in E as ([] & s2 & E2 & E).
  apply bind_ok_inv in E as (f' & s3 & E3 & E). apply load_frame_inv in E3 as [-> Hf'].
  assert (Q1 : quiet s s1).
  { match type of E1 with ?m s = _ =>
      assert (Hq : respects quiet m) by respects_walk; specialize (Hq s); by rewrite E1 in Hq
    end. }
  assert (Q2 : quiet s1 s2).
  { match type of E2 with ?m s1 = _ =>
      assert (Hq : respects quiet m) by respects_walk; specialize (Hq s1); by rewrite E2 in Hq
    end. }
  destruct Q1 as (_ & M1 & T1). destruct Q2 as (_ & M2 & T2).
  pose proof (insert_chunks_trace (nrows f') f' vt 0 s2 ltac:(lia)) as Ht.
  destruct (insert_chunks_run (nrows f') f' vt 0 s2) as (s'' & E' & App); [lia|].
  rewrite E' in E. injection E as <-. rewrite E' in Ht. simpl in Ht.
  destruct App as [Hheap _ _ Hhere _ _]. exists f'. split; [by rewrite Hheap|]. split.
  - rewrite Hhere, drop_0. unfold collection. by rewrite M2, M1.
  - rewrite Ht, T2, T1, Nat.sub_0_r. done.
Qed.

Lemma resolve_row_present cols rid mid i r :
  "row_id" ∈ cols → "model_id" ∈ cols → resolve_row cols rid mid i r = r.
Proof.
  intros Hr Hm. unfold resolve_row. by rewrite !bool_decide_eq_true_2.
Qed.


(** X12.  A table that has the columns [row_id] and [model_id] is always
    stored, and with its own identifiers: the [row_id] and [model_id]
    arguments of the call are ignored, row by row. *)
Theorem table_identity_columns_win val f val_type row_id model_id s :
  heap s !! val = Some (OFrame f) →
  "row_id" ∈ columns f → "model_id" ∈ columns f →
  ∃ recs s',
    insert_into_persistent_db self val val_type row_id model_id s = (Ok tt, s')
    ∧ collection s' val_type = collection s val_type ++ recs
    ∧ length recs = nrows f
    ∧ ∀ i row, rows f !! i = Some row →
        ∃ r, recs !! i = Some r
             ∧ r !! "row_id" = row !! "row_id"
             ∧ r !! "model_id" = row !! "model_id".
Proof.
  intros Hval Hr Hm.
  assert (Hres : identity_resolvable self f row_id model_id) by (split; by left).
  destruct (insert_frame_run self val f val_type row_id model_id s Hval Hres)
    as (s' & E & I).
  exists (stored_rows f (clock s) row_id model_id), s'.
  split; [exact E|]. split; [apply (ing_here _ _ _ _ I)|].
  split; [apply length_stored_rows|].
  intros i row Hrow.
  destruct (rows_strip_ids_lookup f i row Hrow) as (row' & Hrow' & Hkeep).
  unfold stored_rows. cbv zeta. rewrite list_lookup_imap.
  unfold stamp at 2. cbn [rows]. rewrite list_lookup_fmap, Hrow'. simpl.
  eexists. split; [reflexivity|].
  rewrite resolve_row_present.
  - rewrite !lookup_insert_ne by done. split; by apply Hkeep.
  - apply elem_of_add_column. left. by apply elem_of_columns_strip_ids.
  - apply elem_of_add_column. left. by apply elem_of_columns_strip_ids.
Qed.
End Chunking.


Lemma table_identity_columns_win_witness :
  ∃ recs s',
    insert_into_persistent_db titanic 0 "training_features" (VStr "r9") (VStr "m9")
      (with_objects [OFrame enrolled]) = (Ok tt, s')
    ∧ collection s' "training_features"
      = collection (with_objects [OFrame enrolled]) "training_features" ++ recs
    ∧ length recs = nrows enrolled
    ∧ ∀ i row, rows enrolled !! i = Some row →
        ∃ r, recs !! i = Some r
             ∧ r !! "row_id" = row !! "row_id"
             ∧ r !! "model_id" = row !! "model_id".
Proof.
  apply (table_identity_columns_win titanic 0 enrolled "training_features"
           (VStr "r9") (VStr "m9") (with_objects [OFrame enrolled])).
  - reflexivity.
  - apply (bool_decide_unpack _). vm_compute. exact I.
  - apply (bool_decide_unpack _). vm_compute. exact I.
Defined.

(** ** What an insertion has done when it returns *)

Lemma set_column_nrows df c v df' :
  set_column df c v = Ok df' → nrows df ≤ nrows df'.
Proof.
  unfold set_column. destruct (seq_items v) as [l|] eqn:Hv.
  - destruct (Nat.eqb_spec (length l) (nrows df)) as [Hl|Hl].
    + intros [= <-]. unfold nrows in *. simpl. rewrite length_zip_with. lia.
    + destruct (Nat.eqb_spec (nrows df) 0) as [H0|H0].
      * intros [= <-]. lia.
      * destruct v; try discriminate. intros [= <-]. unfold nrows in *. simpl.
        rewrite length_zip_with, length_take, length_app, length_replicate. lia.
  - intros [= <-]. unfold nrows. simpl. by rewrite length_fmap.
Qed.

Lemma setitem_frame_rows l k v f s s1 :
  heap s !! l = Some (OFrame f) →
  setitem l k v s = (Ok tt, s1) →
  ∃ f1, heap s1 !! l = Some (OFrame f1) ∧ nrows f ≤ nrows f1.
Proof.
  intros Hl. unfold setitem. rewrite (bind_ok _ _ _ _ _ (load_run _ _ _ Hl)).
  simpl. destruct (set_column f k v) as [f1|e] eqn:Hset; simpl; [|discriminate].
  intros [= <-]. exists f1. split; [simpl; apply lookup_insert_eq|].
  by eapply set_column_nrows.
Qed.

Section InsertionShape.
Context `{Externals}.
Variable self : Concordia.

(** What [_insert_df_into_db] has done when it returns: no row of the table
    it was given is missing from the store. *)
Lemma insert_df_ok_rows df f vt rid mid s s' :
  heap s !! df = Some (OFrame f) →
  _insert_df_into_db self df vt rid mid s = (Ok tt, s') →
  ∃ recs, collection s' vt = collection s vt ++ recs
          ∧ (∀ vt', vt' ≠ vt → collection s' vt' = collection s vt')
          ∧ rdb s' = rdb s
          ∧ trace s' = trace s ++ (EvInsert vt <$> chunk_lengths (length recs))
          ∧ nrows f ≤ length recs.
Proof.
  intros Hdf. unfold _insert_df_into_db. intros E.
  apply bind_ok_inv in E as (f0 & s0 & E0 & E). apply load_frame_inv in E0 as [-> Hf0].
  rewrite Hdf in Hf0. injection Hf0 as <-. cbv zeta in E.
  apply bind_ok_inv in E as ([] & s1 & E1 & E).
  apply bind_ok_inv in E as ([] & s2 & E2 & E).
  apply bind_ok_inv in E as (f' & s3 & E3 & E). apply load_frame_inv in E3 as [-> Hf'].
  assert (Q1 : quiet s s1).
  { match type of E1 with ?m s = _ =>
      assert (Hq : respects quiet m) by respects_walk; specialize (Hq s); by rewrite E1 in Hq
    end. }
  assert (Q2 : quiet s1 s2).
  { match type of E2 with ?m s1 = _ =>
      assert (Hq : respects quiet m) by respects_walk; specialize (Hq s1); by rewrite E2 in Hq
    end. }
  assert (R1 : ∃ f1, heap s1 !! df = Some (OFrame f1) ∧ nrows f ≤ nrows f1).
  { revert E1. unfold raise, ret. destruct (negb (bool_decide ("row_id" ∈ columns f))).
    - destruct (negb (is_none rid)).
      + by apply setitem_frame_rows.
      + destruct (negb (bool_decide (default_row_id_field self ∈ _))); cbv beta;
          [by intros ?|]. intros [= <-]. by exists f.
    - intros [= <-]. by exists f. }
  destruct R1 as (f1 & Hf1 & Hn1).
  assert (R2 : ∃ f2, heap s2 !! df = Some (OFrame f2) ∧ nrows f1 ≤ nrows f2).
  { revert E2. unfold raise, ret. destruct (negb (bool_decide ("model_id" ∈ columns f))).
    - destruct (negb (is_none mid)); cbv beta; [|by intros ?].
      by apply setitem_frame_rows.
    - intros [= <-]. by exists f1. }
  destruct R2 as (f2 & Hf2 & Hn2).
  rewrite Hf2 in Hf'. injection Hf' as <-.
  destruct Q1 as (D1 & M1 & T1). destruct Q2 as (D2 & M2 & T2).
  pose proof (insert_chunks_trace (nrows f2) f2 vt 0 s2 ltac:(lia)) as Ht.
  destruct (insert_chunks_run (nrows f2) f2 vt 0 s2) as (s'' & E' & App); [lia|].
  rewrite E' in E. injection E as <-. rewrite E' in Ht. simpl in Ht.
  destruct App as [_ Hrdb _ Hhere Helse _]. exists (rows f2).
  rewrite drop_0 in Hhere. fold (nrows f2).
  split; [|split; [|split; [|split]]].
  - rewrite Hhere. unfold collection. by rewrite M2, M1.
  - intros vt' Hvt. rewrite (Helse vt' Hvt). unfold collection. by rewrite M2, M1.
  - congruence.
  - rewrite Ht, T2, T1, Nat.sub_0_r. done.
  - lia.
Qed.

(** What [insert_into_persistent_db] has done when it returns: the documents
    of the payload, one for a flat payload and one per row for a table, were
    appended to the collection given, in calls of at most [chunk_size]
    documents, and nothing else was touched. *)
Lemma insert_ok_shape val o vt rid mid s s' :
  heap s !! val = Some o →
  insert_into_persistent_db self val vt rid mid s = (Ok tt, s') →
  ∃ recs, collection s' vt = collection s vt ++ recs
          ∧ (∀ vt', vt' ≠ vt → collection s' vt' = collection s vt')
          ∧ rdb s' = rdb s
          ∧ trace s' = trace s ++ (EvInsert vt <$> chunk_lengths (length recs))
          ∧ payload_rows o ≤ length recs
          ∧ (is_frame o = false → length recs = 1).
Proof.
  intros Hval. destruct o as [d|f].
  - rewrite (insert_dict_outcome self val d vt rid mid s Hval). cbv zeta.
    destruct (picked rid None) as [r|?]; [|done].
    destruct (is_none (if is_none r then _ else r)); [done|].
    destruct (picked mid None) as [m|?]; [|done].
    destruct (is_none (if is_none m then _ else m)); [done|].
    intros [= <-]. eexists [_]. split; [|split; [|split; [|split; [|split]]]].
    + unfold collection at 1. cbn [mdb]. by rewrite lookup_insert_eq.
    + intros vt' Hvt. unfold collection. cbn [mdb]. by rewrite lookup_insert_ne.
    + done.
    + done.
    + simpl. lia.
    + done.
  - unfold insert_into_persistent_db.
    rewrite (bind_ok _ _ _ _ _ (copy_run _ _ _ Hval)). cbv beta.
    set (l := fresh (dom (heap s))).
    erewrite bind_ok; [|apply del_if_present_run; simpl; apply lookup_insert_eq].
    rewrite strip_step_frame. cbv beta. norm_state.
    erewrite bind_ok; [|apply del_if_present_run; simpl; apply lookup_insert_eq].
    rewrite strip_step_frame. cbv beta. norm_state. fold (strip_ids f).
    erewrite bind_ok; [|reflexivity]. cbv beta. norm_state.
    erewrite bind_ok; [|eapply setitem_run; [simpl; apply lookup_insert_eq|reflexivity]].
    cbv beta. norm_state.
    erewrite bind_ok; [|apply load_run; simpl; apply lookup_insert_eq]. cbv beta iota.
    fold (stamp (clock s) (strip_ids f)).
    intros E. eapply insert_df_ok_rows in E; [|simpl; apply lookup_insert_eq].
    destruct E as (recs & Hhere & Helse & Hrdb & Htrace & Hrows).
    rewrite nrows_stamp, nrows_strip_ids in Hrows.
    exists recs. split; [exact Hhere|]. split; [exact Helse|]. split; [exact Hrdb|].
    split; [exact Htrace|]. split; [exact Hrows|]. done.
Qed.

End InsertionShape.

(** ** Storing and reading back *)

Lemma unboxed_id v : is_np_generic v = false → unboxed v = v.
Proof. unfold unboxed. by intros ->. Qed.

Section RoundTrip.
Context `{Externals}.
Variable self : Concordia.

(** X13.  A flat payload stored with an explicit [row_id] and [model_id]
    (neither a list, [None] nor a numpy scalar) is found again by these
    identifiers: the retrieval after the insertion returns what it returned
    before, followed by the new document. *)
Theorem single_record_round_trip val d val_type row_id model_id s :
  heap s !! val = Some (ODict d) →
  is_list row_id = false → row_id ≠ VNone → is_np_generic row_id = false →
  is_list model_id = false → model_id ≠ VNone → is_np_generic model_id = false →
  ∃ doc s1,
    insert_into_persistent_db self val val_type row_id model_id s = (Ok tt, s1)
    ∧ doc !! "row_id" = Some row_id ∧ doc !! "model_id" = Some model_id
    ∧ ∀ before,
        (retrieve_from_persistent_db val_type row_id model_id VNone None s).1 = Ok before →
        (retrieve_from_persistent_db val_type row_id model_id VNone None s1).1
        = Ok (before ++ [doc]).
Proof.
  intros Hval Hlr Hnr Hpr Hlm Hnm Hpm.
  pose proof (insert_dict_run self val d val_type row_id model_id s Hval
                Hlr (is_none_false _ Hnr) Hlm (is_none_false _ Hnm)) as E.
  exists (stored_doc d (clock s) row_id model_id). eexists. split; [exact E|].
  assert (Hrow : stored_doc d (clock s) row_id model_id !! "row_id" = Some row_id).
  { unfold stored_doc. rewrite lookup_asscalar_items, lookup_insert_ne, lookup_insert_eq by done.
    simpl. by rewrite unboxed_id. }
  assert (Hmodel : stored_doc d (clock s) row_id model_id !! "model_id" = Some model_id).
  { unfold stored_doc. rewrite lookup_asscalar_items, lookup_insert_eq.
    simpl. by rewrite unboxed_id. }
  clear E. split; [exact Hrow|]. split; [exact Hmodel|].
  intros before. rewrite !retrieve_run. cbn [fst]. intros [= <-]. f_equal.
  match goal with |- context [collection ?st val_type] =>
    lazymatch st with
    | s => fail
    | _ => replace (collection st val_type)
             with (collection s val_type ++ [stored_doc d (clock s) row_id model_id])
             by (unfold collection at 2; cbn [mdb]; by rewrite lookup_insert_eq)
    end
  end.
  rewrite List.filter_app. f_equal. apply filter_all. repeat constructor.
  apply matches_spec. intros k c. rewrite query_params_lookup. simpl.
  rewrite (is_none_false _ Hnr), (is_none_false _ Hnm).
  repeat case_bool_decide; subst; try done; intros [= <-]; by apply cond_holds_equals.
Qed.

(** X14.  [insert_into_persistent_db] works on a copy of its payload:
    whatever its outcome, every object that existed before the call, the
    payload included, is as it was. *)
Theorem insert_works_on_a_copy val val_type row_id model_id s l o :
  heap s !! l = Some o →
  heap (insert_into_persistent_db self val val_type row_id model_id s).2 !! l = Some o.
Proof.
  intros Hl.
  destruct (keeps_insert self (dom (heap s)) val val_type row_id model_id s)
    as (_ & Hkeep & _); [done|].
  rewrite Hkeep; [done|]. apply elem_of_dom. by eexists.
Qed.
End RoundTrip.

Lemma single_record_round_trip_witness :
  let s := with_objects [ODict allen] in
  ∃ doc s1,
    insert_into_persistent_db titanic 0 "live_features" (VStr "r1") (VStr "m1") s
    = (Ok tt, s1)
    ∧ doc !! "row_id" = Some (VStr "r1") ∧ doc !! "model_id" = Some (VStr "m1")
    ∧ ∀ before,
        (retrieve_from_persistent_db "live_features" (VStr "r1") (VStr "m1") VNone None s).1
        = Ok before →
        (retrieve_from_persistent_db "live_features" (VStr "r1") (VStr "m1") VNone None s1).1
        = Ok (before ++ [doc]).
Proof.
  apply (single_record_round_trip titanic 0 allen "live_features" (VStr "r1") (VStr "m1")
           (with_objects [ODict allen])); first [reflexivity | discriminate].
Defined.

Lemma insert_works_on_a_copy_witness :
  heap (insert_into_persistent_db titanic 0 "live_features" VNone (VStr "m1")
          (with_objects [ODict allen])).2 !! 0 = Some (ODict allen).
Proof.
  apply (insert_works_on_a_copy titanic 0 "live_features" VNone (VStr "m1")
           (with_objects [ODict allen]) 0 (ODict allen)).
  reflexivity.
Defined.

(** ** The registry, in every state *)

Section Lookup.
Context `{Externals}.

(** The outcome of [_get_model] in every state. *)
Lemma get_model_outcome model_id s :
  _get_model model_id s
  = let key := make_redis_model_key model_id in
    let s0 := log (EvCacheGet key) s in
    match rdb s !! key with
    | Some blob => (decoded blob, s0)
    | None =>
        let s1 := log (EvFind "model_info") s0 in
        match List.filter (matches (query_params VNone model_id VNone None))
                (collection s "model_info") with
        | [] => (Raise (ValueError (ModelNotFound model_id)), s1)
        | first :: _ =>
            match first !! "model" with
            | None => (Raise (KeyError "model"), s1)
            | Some v =>
                match redis_text v with
                | None => (Raise DataError, s1)
                | Some b =>
                    (decoded b,
                     log (EvCacheGet key)
                       (log (EvCacheSet key) (set_rdb (<[key := b]> (rdb s)) s1)))
                end
            end
        end
    end.
Proof.
  cbv zeta. unfold _get_model, rdb_get, retrieve_from_persistent_db, mdb_find, decoded.
  unfold bind at 1. cbv beta iota.
  destruct (rdb s !! make_redis_model_key model_id) as [blob|] eqn:Hc.
  - unfold bind, ret. by destruct (loads_base64 blob).
  - unfold bind at 1. unfold bind at 1.
    change (collection (log (EvCacheGet (make_redis_model_key model_id)) s) "model_info")
      with (collection s "model_info").
    destruct (List.filter _ (collection s "model_info")) as [|first rest]; [done|].
    unfold bind at 1. unfold obj_getitem.
    destruct (first !! "model") as [v|]; [|done]. cbn [lift ret].
    unfold bind at 1.
    destruct v; try done; simpl; rewrite lookup_insert_eq;
      unfold bind, ret; simpl; by destruct (loads_base64 _).
Qed.

Lemma decoded_ok blob m : decoded blob = Ok m ↔ loads_base64 blob = Some m.
Proof.
  unfold decoded. destruct (loads_base64 blob); split; intros; by simplify_eq.
Qed.

(** X15.  A lookup that returned a model can be repeated: in the state it
    leaves, the same lookup returns the same model and only reads the
    cache. *)
Theorem get_model_is_repeatable model_id m s s1 :
  _get_model model_id s = (Ok m, s1) →
  _get_model model_id s1 = (Ok m, log (EvCacheGet (make_redis_model_key model_id)) s1).
Proof.
  rewrite (get_model_outcome model_id s). cbv zeta.
  destruct (rdb s !! make_redis_model_key model_id) as [blob|] eqn:Hc.
  - intros [= Hm <-]. rewrite get_model_outcome. cbv zeta. cbn [rdb log].
    by rewrite Hc, Hm.
  - destruct (List.filter _ _) as [|first rest]; [done|].
    destruct (first !! "model") as [v|]; [|done].
    destruct (redis_text v) as [b|]; [|done].
    intros [= Hm <-]. rewrite get_model_outcome. cbv zeta. cbn [rdb log set_rdb].
    by rewrite lookup_insert_eq, Hm.
Qed.

(** X16.  On a cache miss the blob of the first matching [model_info]
    document is written to the cache before it is decoded: when the codec
    rejects it, the lookup raises, the blob stays in the cache, and every
    later lookup fails on the cached blob without reading the store. *)
Theorem undecodable_entry_is_cached model_id first rest blob s :
  rdb s !! make_redis_model_key model_id = None →
  List.filter (matches (query_params VNone model_id VNone None)) (collection s "model_info")
  = first :: rest →
  first !! "model" = Some (VStr blob) →
  loads_base64 blob = None →
  let run := _get_model model_id s in
  run.1 = Raise DecodeError
  ∧ rdb run.2 = <[make_redis_model_key model_id := blob]> (rdb s)
  ∧ ∀ s', rdb s' = rdb run.2 →
          _get_model model_id s'
          = (Raise DecodeError, log (EvCacheGet (make_redis_model_key model_id)) s').
Proof.
  intros Hmiss Hfound Hmodel Hload run. subst run.
  rewrite (get_model_outcome model_id s). cbv zeta.
  rewrite Hmiss, Hfound, Hmodel. cbn [redis_text fst snd rdb log set_rdb].
  unfold decoded. rewrite Hload. split; [done|]. split; [done|].
  intros s' Hs'. rewrite get_model_outcome. cbv zeta.
  rewrite Hs', lookup_insert_eq. unfold decoded. by rewrite Hload.
Qed.

(** X17.  A lookup with [model_id=None] is not refused: with no entry under
    the key of [None], it is answered with the first [model_info] document
    of the store, whatever its identifier, and caches that blob under the
    key of [None]. *)
Theorem lookup_without_id_serves_first_model first rest blob m s :
  rdb s !! make_redis_model_key VNone = None →
  collection s "model_info" = first :: rest →
  first !! "model" = Some (VStr blob) →
  loads_base64 blob = Some m →
  ∃ s', _get_model VNone s = (Ok m, s')
        ∧ rdb s' = <[make_redis_model_key VNone := blob]> (rdb s)
        ∧ mdb s' = mdb s.
Proof.
  intros Hmiss Hcoll Hmodel Hload. rewrite get_model_outcome. cbv zeta.
  rewrite Hmiss.
  assert (Hall : List.filter (matches (query_params VNone VNone VNone None))
                   (collection s "model_info") = first :: rest).
  { rewrite <- Hcoll. apply filter_all. apply Forall_forall. intros d _.
    apply matches_spec. intros k c. rewrite query_params_lookup. simpl.
    by repeat case_bool_decide. }
  rewrite Hall, Hmodel. cbn [redis_text]. unfold decoded. rewrite Hload.
  eexists. split; [reflexivity|]. done.
Qed.
End Lookup.

Lemma get_model_is_repeatable_witness :
  let s1 := (_get_model (VStr "titanic_1") two_entries).2 in
  _get_model (VStr "titanic_1") s1
  = (Ok true, log (EvCacheGet (make_redis_model_key (VStr "titanic_1"))) s1).
Proof.
  apply (get_model_is_repeatable (H := toy) (VStr "titanic_1") true two_entries).
  vm_compute. reflexivity.
Defined.

Lemma undecodable_entry_is_cached_witness :
  let run := _get_model (VStr "titanic_1") corrupt_store in
  run.1 = Raise DecodeError
  ∧ rdb run.2 = <[make_redis_model_key (VStr "titanic_1") := "bm90IGEgbW9kZWw="]>
                  (rdb corrupt_store)
  ∧ ∀ s', rdb s' = rdb run.2 →
          _get_model (VStr "titanic_1") s'
          = (Raise DecodeError,
             log (EvCacheGet (make_redis_model_key (VStr "titanic_1"))) s').
Proof.
  apply (undecodable_entry_is_cached (H := toy) (VStr "titanic_1") corrupt_entry []
           "bm90IGEgbW9kZWw=" corrupt_store); reflexivity.
Defined.

Lemma lookup_without_id_serves_first_model_witness :
  ∃ s', _get_model VNone two_entries = (Ok true, s')
        ∧ rdb s' = <[make_redis_model_key VNone := toy_dumps true]> (rdb two_entries)
        ∧ mdb s' = mdb two_entries.
Proof.
  apply (lookup_without_id_serves_first_model (H := toy) (entry 0 true) [entry 2 false]
           (toy_dumps true) true two_entries); reflexivity.
Defined.

(** ** Effects of a registration *)

Section RegistrationEffects.
Context `{Externals}.
Variable self : Concordia.

(** X18.  Registering a model under one string identifier does not change
    what the lookup of another string identifier returns, nor its cache
    entry. *)
Theorem registration_leaves_other_ids_alone
    model id other feature_names fi importances description s :
  heap s !! fi = Some (ODict importances) →
  other ≠ id →
  ∃ s1,
    add_model self model (VStr id) feature_names (Some fi) description s = (Ok tt, s1)
    ∧ (_get_model (VStr other) s1).1 = (_get_model (VStr other) s).1
    ∧ rdb s1 !! make_redis_model_key (VStr other)
      = rdb s !! make_redis_model_key (VStr other).
Proof.
  intros Hfi Hne.
  destruct (add_model_run self model id feature_names fi importances description s Hfi)
    as (s1 & doc & E1 & Hrdb & Hc1 & _ & Hid & _).
  exists s1. split; [exact E1|].
  assert (Hkey : rdb s1 !! make_redis_model_key (VStr other)
                 = rdb s !! make_redis_model_key (VStr other)).
  { rewrite Hrdb. apply lookup_insert_ne. intros E.
    apply make_redis_model_key_eq in E. simpl in E. by subst. }
  split; [|exact Hkey].
  rewrite !get_model_outcome. cbv zeta. rewrite Hkey.
  destruct (rdb s !! make_redis_model_key (VStr other)) as [blob|]; [done|].
  rewrite Hc1, List.filter_app.
  assert (Hdoc : List.filter (matches (query_params VNone (VStr other) VNone None)) [doc] = []).
  { simpl. rewrite query_params_model_id, matches_model_id_false; [done|].
    rewrite Hid. by intros [= ->]. }
  rewrite Hdoc, app_nil_r.
  destruct (List.filter _ (collection s "model_info")) as [|first rest]; [done|].
  destruct (first !! "model") as [v|]; [|done].
  by destruct (redis_text v).
Qed.

(** X19.  [add_model] converts the numpy scalars of the caller's
    [feature_importances] dict in the dict itself, whatever the outcome of
    the call, and changes no other object that existed before. *)
Theorem add_model_unboxes_importances_in_place
    model model_id feature_names fi importances description s :
  heap s !! fi = Some (ODict importances) →
  let s' := (add_model self model model_id feature_names (Some fi) description s).2 in
  heap s' !! fi = Some (ODict (asscalar_items importances))
  ∧ ∀ l o, l ≠ fi → heap s !! l = Some o → heap s' !! l = Some o.
Proof.
  intros Hfi. unfold add_model. cbv zeta.
  erewrite bind_ok; [|reflexivity]. cbv beta.
  erewrite bind_ok.
  2:{ erewrite bind_ok; [|apply load_run; exact Hfi]. cbv beta iota.
      erewrite bind_ok; [|reflexivity]. reflexivity. }
  cbv beta. norm_state.
  erewrite bind_ok; [|reflexivity]. cbv beta. norm_state.
  erewrite bind_ok; [|reflexivity]. cbv beta. norm_state.
  set (h1 := <[fi := ODict (asscalar_items importances)]> (heap s)).
  set (l1 := fresh (dom h1)).
  match goal with |- context [insert_into_persistent_db self l1 ?vt ?r ?m ?st] =>
    set (s0 := st);
    destruct (keeps_insert self (dom (heap s)) l1 vt r m s0) as (_ & Hkeep & _)
  end.
  { subst s0. norm_state. unfold h1. rewrite !dom_insert_L. set_solver. }
  assert (Hl1 : ∀ l o, heap s !! l = Some o → l ≠ l1).
  { intros l o Hl ->. apply (is_fresh (dom h1)). fold l1. unfold h1.
    rewrite dom_insert_L. apply elem_of_union_r, elem_of_dom. by eexists. }
  split.
  - rewrite Hkeep by (apply elem_of_dom; by eexists).
    subst s0. norm_state. rewrite lookup_insert_ne by (symmetry; by eapply Hl1).
    apply lookup_insert_eq.
  - intros l o Hl Hlo. rewrite Hkeep by (apply elem_of_dom; by eexists).
    subst s0. norm_state. rewrite lookup_insert_ne by (symmetry; by eapply Hl1).
    unfold h1. by rewrite lookup_insert_ne.
Qed.

(** X20.  A registration under an identifier that is neither a list nor
    [None] writes the cache entry first and then one [model_info] document,
    whose [row_id] is the model identifier, whose [feature_importances] is
    the JSON text of the converted importances, and whose [date_added] and
    creation time are two successive readings of the clock. *)
Theorem registration_writes_cache_then_store
    model model_id feature_names fi importances description s :
  heap s !! fi = Some (ODict importances) →
  is_list model_id = false → model_id ≠ VNone →
  ∃ s1 doc,
    add_model self model model_id feature_names (Some fi) description s = (Ok tt, s1)
    ∧ trace s1 = trace s ++ [EvCacheSet (make_redis_model_key model_id);
                             EvInsert "model_info" 1]
    ∧ rdb s1 = <[make_redis_model_key model_id := dumps_base64 model]> (rdb s)
    ∧ collection s1 "model_info" = collection s "model_info" ++ [doc]
    ∧ doc !! "model" = Some (VStr (dumps_base64 model))
    ∧ doc !! "model_id" = Some (unboxed model_id)
    ∧ doc !! "row_id" = Some (unboxed model_id)
    ∧ doc !! "feature_importances" = Some (VStr (json_dumps (asscalar_items importances)))
    ∧ doc !! "date_added" = Some (VTime (clock s))
    ∧ doc !! "_concordia_created_at" = Some (VTime (S (clock s))).
Proof.
  intros Hfi Hl Hn. unfold add_model. cbv zeta.
  erewrite bind_ok; [|reflexivity]. cbv beta.
  erewrite bind_ok.
  2:{ erewrite bind_ok; [|apply load_run; exact Hfi]. cbv beta iota.
      erewrite bind_ok; [|reflexivity]. reflexivity. }
  cbv beta. norm_state.
  erewrite bind_ok; [|reflexivity]. cbv beta. norm_state.
  erewrite bind_ok; [|reflexivity]. cbv beta. norm_state.
  erewrite insert_dict_run;
    [|norm_state; apply lookup_insert_eq|done|by apply is_none_false|done
     |by apply is_none_false].
  norm_state. eexists. eexists. split; [reflexivity|].
  split; [by rewrite <- app_assoc|]. split; [done|]. split.
  { unfold collection. norm_state. by rewrite lookup_insert_eq. }
  unfold stored_doc. rewrite !lookup_asscalar_items.
  rewrite lookup_insert_eq.
  rewrite (lookup_insert_ne _ "model_id" "row_id"), lookup_insert_eq by done.
  rewrite !(lookup_insert_ne _ "model_id"), !(lookup_insert_ne _ "row_id") by done.
  rewrite lookup_insert_eq, !(lookup_insert_ne _ "_concordia_created_at") by done.
  rewrite !lookup_delete_ne by done.
  repeat split; reflexivity.
Qed.
End RegistrationEffects.

Lemma registration_leaves_other_ids_alone_witness :
  let s := serving (ODict allen) in
  ∃ s1,
    add_model titanic false (VStr "titanic_2") VNone (Some 0) VNone s = (Ok tt, s1)
    ∧ (_get_model (VStr "titanic_1") s1).1 = (_get_model (VStr "titanic_1") s).1
    ∧ rdb s1 !! make_redis_model_key (VStr "titanic_1")
      = rdb s !! make_redis_model_key (VStr "titanic_1").
Proof.
  apply (registration_leaves_other_ids_alone (H := toy) titanic false "titanic_2"
           "titanic_1" VNone 0 {[ "age" := VInt 3 ]} VNone (serving (ODict allen))).
  - vm_compute. reflexivity.
  - discriminate.
Defined.

Lemma add_model_unboxes_importances_in_place_witness :
  let s := with_objects [ODict {[ "age" := VNp 3%Z ]}; ODict allen] in
  let s' := (add_model titanic true (VStr "titanic_1") VNone (Some 0) VNone s).2 in
  heap s' !! 0 = Some (ODict (asscalar_items {[ "age" := VNp 3%Z ]}))
  ∧ ∀ l o, l ≠ 0 → heap s !! l = Some o → heap s' !! l = Some o.
Proof.
  apply (add_model_unboxes_importances_in_place (H := toy) titanic true (VStr "titanic_1")
           VNone 0 {[ "age" := VNp 3%Z ]} VNone
           (with_objects [ODict {[ "age" := VNp 3%Z ]}; ODict allen])).
  reflexivity.
Defined.

Lemma registration_writes_cache_then_store_witness :
  let s := with_objects [ODict {[ "age" := VNp 3%Z ]}] in
  ∃ s1 doc,
    add_model titanic true (VStr "titanic_1") VNone (Some 0) VNone s = (Ok tt, s1)
    ∧ trace s1 = trace s ++ [EvCacheSet (make_redis_model_key (VStr "titanic_1"));
                             EvInsert "model_info" 1]
    ∧ rdb s1 = <[make_redis_model_key (VStr "titanic_1") := dumps_base64 true]> (rdb s)
    ∧ collection s1 "model_info" = collection s "model_info" ++ [doc]
    ∧ doc !! "model" = Some (VStr (dumps_base64 true))
    ∧ doc !! "model_id" = Some (unboxed (VStr "titanic_1"))
    ∧ doc !! "row_id" = Some (unboxed (VStr "titanic_1"))
    ∧ doc !! "feature_importances"
      = Some (VStr (json_dumps (asscalar_items {[ "age" := VNp 3%Z ]})))
    ∧ doc !! "date_added" = Some (VTime (clock s))
    ∧ doc !! "_concordia_created_at" = Some (VTime (S (clock s))).
Proof.
  apply (registration_writes_cache_then_store (H := toy) titanic true (VStr "titanic_1")
           VNone 0 {[ "age" := VNp 3%Z ]} VNone
           (with_objects [ODict {[ "age" := VNp 3%Z ]}])).
  - reflexivity.
  - reflexivity.
  - discriminate.
Defined.

(** ** The result of a prediction call *)

Lemma keeps_lookup {A} (m : M A) (Q : A → Prop) l o s :
  keeps {[l]} m Q → heap s !! l = Some o → heap (m s).2 !! l = Some o.
Proof.
  intros Hm Hl. destruct (Hm s) as (_ & Hkeep & _).
  - apply singleton_subseteq_l, elem_of_dom. by eexists.
  - rewrite Hkeep; [done|]. by apply elem_of_singleton.
Qed.

Section PredictionResult.
Context `{Externals}.
Variable self : Concordia.

Lemma get_model_frame model_id s :
  heap (_get_model model_id s).2 = heap s
  ∧ mdb (_get_model model_id s).2 = mdb s
  ∧ clock (_get_model model_id s).2 = clock s.
Proof.
  rewrite get_model_outcome. cbv zeta.
  destruct (rdb s !! make_redis_model_key model_id); [done|].
  destruct (List.filter _ _) as [|first rest]; [done|].
  destruct (first !! "model") as [v|]; [|done].
  by destruct (redis_text v).
Qed.

Lemma get_model_result_ext model_id s s' :
  rdb s' = rdb s → mdb s' = mdb s →
  (_get_model model_id s').1 = (_get_model model_id s).1.
Proof.
  intros Hr Hm. rewrite !get_model_outcome. cbv zeta. unfold collection. rewrite Hr, Hm.
  destruct (rdb s !! make_redis_model_key model_id); [done|].
  destruct (List.filter _ _) as [|first rest]; [done|].
  destruct (first !! "model") as [v|]; [|done].
  by destruct (redis_text v).
Qed.

(** After a lookup that returned, the cache holds a blob of the model. *)
Lemma get_model_cached_after model_id m s s1 :
  _get_model model_id s = (Ok m, s1) →
  ∃ b, rdb s1 !! make_redis_model_key model_id = Some b ∧ loads_base64 b = Some m.
Proof.
  rewrite get_model_outcome. cbv zeta.
  destruct (rdb s !! make_redis_model_key model_id) as [blob|] eqn:Hc.
  - intros [= Hm <-]. exists blob. split; [done|]. by apply decoded_ok.
  - destruct (List.filter _ _) as [|first rest]; [done|].
    destruct (first !! "model") as [v|]; [|done].
    destruct (redis_text v) as [b|]; [|done].
    intros [= Hm <-]. exists b. split; [apply lookup_insert_eq|]. by apply decoded_ok.
Qed.

(** X21.  A prediction call that returns gives back the output of the
    resolved model on the payload as the caller passed it, unmodified by the
    conversion applied to what is saved. *)
Theorem predict_returns_the_model_output features payload model_id row_id proba s v s' :
  heap s !! features = Some payload →
  _predict self features model_id row_id proba s = (Ok v, s') →
  ∃ m s2,
    _get_model model_id (copy features s).2 = (Ok m, s2)
    ∧ v = if proba then model_predict_proba m payload else model_predict m payload.
Proof.
  intros Hfeat. unfold _predict.
  rewrite (bind_ok _ _ _ _ _ (copy_run _ _ _ Hfeat)). cbv beta.
  rewrite (copy_run _ _ _ Hfeat). cbn [snd].
  set (l := fresh (dom (heap s))).
  set (s1 := set_heap (<[l := payload]> (heap s)) s).
  assert (H1 : heap s1 !! l = Some payload) by apply lookup_insert_eq.
  destruct (is_none row_id && _); [discriminate|].
  intros E. apply bind_ok_inv in E as (m & s2 & Eg & E).
  exists m, s2. split; [exact Eg|].
  assert (H2 : heap s2 !! l = Some payload).
  { pose proof (keeps_lookup _ _ l payload s1 (keeps_get_model {[l]} model_id) H1) as K.
    by rewrite Eg in K. }
  apply bind_ok_inv in E as (rid & s3 & Er & E).
  assert (H3 : heap s3 !! l = Some payload).
  { match type of Er with ?mm s2 = _ =>
      assert (K : keeps {[l]} mm (λ _, True)) by keeps_walk;
      pose proof (keeps_lookup _ _ l payload s2 K H2) as K'; by rewrite Er in K'
    end. }
  apply bind_ok_inv in E as ([] & s4 & Ei & E).
  assert (H4 : heap s4 !! l = Some payload).
  { pose proof (keeps_lookup _ _ l payload s3
                  (keeps_insert self {[l]} l "live_features" rid model_id) H3) as K.
    by rewrite Ei in K. }
  apply bind_ok_inv in E as (prediction & s5 & Ev & E).
  assert (Hp : prediction = if proba then model_predict_proba m payload
                            else model_predict m payload).
  { unfold invoke in Ev. rewrite (bind_ok _ _ _ _ _ (load_run _ _ _ H4)) in Ev.
    by injection Ev as <- _. }
  cbv zeta in E.
  apply bind_ok_inv in E as (o & s6 & _ & E).
  apply bind_ok_inv in E as (pd & s7 & _ & E).
  apply bind_ok_inv in E as ([] & s8 & _ & E).
  injection E as <- _. exact Hp.
Qed.

(** X22.  A prediction call with [model_id=None] on a flat payload that
    has no [model_id] never returns a prediction and writes nothing to the
    durable store, whether or not a model could be resolved. *)
Theorem predict_without_model_id_never_writes features d row_id proba s :
  heap s !! features = Some (ODict d) →
  d !! "model_id" = None →
  let run := _predict self features VNone row_id proba s in
  (∃ e, run.1 = Raise e) ∧ mdb run.2 = mdb s.
Proof.
  intros Hfeat Hd run.
  assert (∃ e s', run = (Raise e, s') ∧ mdb s' = mdb s) as (e & s' & -> & Hs');
    [|split; [by exists e|exact Hs']].
  subst run. unfold _predict.
  rewrite (bind_ok _ _ _ _ _ (copy_run _ _ _ Hfeat)). cbv beta.
  set (l := fresh (dom (heap s))).
  set (s1 := set_heap (<[l := ODict d]> (heap s)) s).
  assert (H1 : heap s1 !! l = Some (ODict d)) by apply lookup_insert_eq.
  destruct (is_none row_id && _); [by eexists _, _|].
  unfold bind at 1.
  destruct (get_model_frame VNone s1) as (Hh & Hm & _).
  destruct (_get_model VNone s1) as [[m|e] s2] eqn:Eg; cbn [fst snd] in *;
    [|eexists _, _; split; [reflexivity|exact Hm]].
  assert (H2 : heap s2 !! l = Some (ODict d)) by (by rewrite Hh).
  unfold bind at 1.
  match goal with |- context [(if is_none row_id then ?a else ?b) s2] =>
    destruct ((if is_none row_id then a else b) s2) as [[rid|e] s3] eqn:Er
  end;
    (assert (s3 = s2) as ->
       by (revert Er; destruct (is_none row_id);
           [rewrite (bind_ok _ _ _ _ _ (load_run _ _ _ H2));
            destruct (obj_getitem _ _); simpl; by intros [= _ <-]
           |by intros [= _ <-]]));
    [|eexists _, _; split; [reflexivity|exact Hm]].
  unfold bind at 1.
  rewrite (insert_dict_outcome self l d "live_features" rid VNone s2 H2). cbv zeta.
  destruct (picked rid None) as [r|e]; [|eexists _, _; split; [reflexivity|exact Hm]].
  destruct (is_none (if is_none r then _ else r));
    [eexists _, _; split; [reflexivity|exact Hm]|].
  cbn [picked is_none obj_get].
  assert (Hno : (<["row_id" := if is_none r
                              then obj_get (ODict (stamped d (clock s2)))
                                     (default_row_id_field self)
                              else r]> (stamped d (clock s2)) : record) !! "model_id" = None).
  { unfold stamped. by rewrite !lookup_insert_ne, !lookup_delete_ne by done. }
  rewrite Hno. cbn [default is_none]. eexists _, _; split; [reflexivity|exact Hm].
Qed.

(** X23.  A prediction call without an explicit [row_id], on a flat payload
    that lacks the configured default row-id field, raises [KeyError] for
    that field once the model is resolved, and writes nothing to the durable
    store. *)
Theorem predict_missing_default_field_is_a_key_error features d c model_id proba m s :
  default_row_id_field self = Some c →
  heap s !! features = Some (ODict d) →
  d !! c = None →
  (_get_model model_id s).1 = Ok m →
  let run := _predict self features model_id VNone proba s in
  run.1 = Raise (KeyError c) ∧ mdb run.2 = mdb s.
Proof.
  intros Hdef Hfeat Hc Hget run.
  assert (∃ s', run = (Raise (KeyError c), s') ∧ mdb s' = mdb s) as (s' & -> & Hs');
    [|split; [done|exact Hs']].
  subst run. unfold _predict.
  rewrite (bind_ok _ _ _ _ _ (copy_run _ _ _ Hfeat)). cbv beta.
  set (l := fresh (dom (heap s))).
  set (s1 := set_heap (<[l := ODict d]> (heap s)) s).
  assert (H1 : heap s1 !! l = Some (ODict d)) by apply lookup_insert_eq.
  rewrite Hdef. cbn [is_none andb]. rewrite bool_decide_eq_false_2 by done.
  unfold bind at 1.
  destruct (get_model_frame model_id s1) as (Hh & Hm & _).
  rewrite <- (get_model_result_ext model_id s s1) in Hget by done.
  destruct (_get_model model_id s1) as [[m'|e] s2] eqn:Eg; cbn [fst snd] in *;
    [|discriminate].
  assert (H2 : heap s2 !! l = Some (ODict d)) by (by rewrite Hh).
  unfold bind at 1. rewrite (bind_ok _ _ _ _ _ (load_run _ _ _ H2)).
  simpl. rewrite Hc. simpl. eexists. split; [reflexivity|exact Hm].
Qed.
End PredictionResult.

(** X24.  The value saved for a prediction is never an array: an array
    output becomes a list of as many items, none of which is an array, and
    any other output is saved as it is. *)
Theorem pred_for_saving_unwraps_two_levels prediction :
  (∀ l, pred_for_saving prediction ≠ VArray l)
  ∧ (∀ items, prediction = VArray items →
       ∃ l, pred_for_saving prediction = VList l
            ∧ length l = length items
            ∧ ∀ x l', x ∈ l → x ≠ VArray l')
  ∧ ((∀ l, prediction ≠ VArray l) → pred_for_saving prediction = prediction).
Proof.
  split; [|split].
  - intros l. by destruct prediction.
  - intros items ->. simpl. eexists. split; [reflexivity|]. split.
    + by rewrite length_fmap.
    + intros x l' Hx. apply list_elem_of_fmap in Hx as (y & -> & _). by destruct y.
  - intros Hn. destruct prediction; try done. by destruct (Hn l).
Qed.

Lemma predict_returns_the_model_output_witness :
  let s := serving (ODict allen) in
  ∃ m s2,
    _get_model (VStr "titanic_1") (copy 1 s).2 = (Ok m, s2)
    ∧ VInt 1 = if false then model_predict_proba m (ODict allen)
               else model_predict m (ODict allen).
Proof.
  apply (predict_returns_the_model_output (H := toy) titanic 1 (ODict allen)
           (VStr "titanic_1") VNone false (serving (ODict allen)) (VInt 1)
           (_predict titanic 1 (VStr "titanic_1") VNone false (serving (ODict allen))).2).
  - vm_compute. reflexivity.
  - vm_compute. reflexivity.
Defined.

Lemma predict_without_model_id_never_writes_witness :
  let run := _predict titanic 1 VNone VNone false (serving (ODict allen)) in
  (∃ e, run.1 = Raise e) ∧ mdb run.2 = mdb (serving (ODict allen)).
Proof.
  apply (predict_without_model_id_never_writes (H := toy) titanic 1 allen VNone false
           (serving (ODict allen))).
  - vm_compute. reflexivity.
  - reflexivity.
Defined.

Lemma predict_missing_default_field_is_a_key_error_witness :
  let s := serving (ODict {[ "age" := VInt 29 ]}) in
  let run := _predict titanic 1 (VStr "titanic_1") VNone true s in
  run.1 = Raise (KeyError "name") ∧ mdb run.2 = mdb s.
Proof.
  apply (predict_missing_default_field_is_a_key_error (H := toy) titanic 1
           {[ "age" := VInt 29 ]} "name" (VStr "titanic_1") true true
           (serving (ODict {[ "age" := VInt 29 ]}))).
  - reflexivity.
  - vm_compute. reflexivity.
  - reflexivity.
  - vm_compute. reflexivity.
Defined.

(** ** The order of the steps of a prediction call *)

Lemma chunk_lengths_nonempty n : n ≠ 0 → chunk_lengths n ≠ [].
Proof. intros Hn. rewrite chunk_lengths_step by lia. done. Qed.

Section PredictionOrder.
Context `{Externals}.
Variable self : Concordia.

(** The events of a lookup: the cache is read first, and everything belongs
    to the resolution of the model. *)
Lemma get_model_trace model_id s :
  ∃ evs, trace (_get_model model_id s).2
         = trace s ++ EvCacheGet (make_redis_model_key model_id) :: evs
         ∧ in_step ResolveModel (EvCacheGet (make_redis_model_key model_id) :: evs).
Proof.
  rewrite get_model_outcome. cbv zeta.
  destruct (rdb s !! make_redis_model_key model_id).
  { exists []. split; [done|]. by repeat constructor. }
  destruct (List.filter _ _) as [|first rest].
  { exists [EvFind "model_info"]. simpl. rewrite <- app_assoc.
    split; [done|]. by repeat constructor. }
  destruct (first !! "model") as [v|].
  2:{ exists [EvFind "model_info"]. simpl. rewrite <- app_assoc.
      split; [done|]. by repeat constructor. }
  destruct (redis_text v).
  - eexists [EvFind "model_info"; EvCacheSet _; EvCacheGet _]. simpl.
    rewrite <- !app_assoc. split; [done|]. by repeat constructor.
  - exists [EvFind "model_info"]. simpl. rewrite <- app_assoc.
    split; [done|]. by repeat constructor.
Qed.

Lemma in_step_inserts vt st ns :
  (∀ n, step_of (EvInsert vt n) = Some st) → in_step st (EvInsert vt <$> ns).
Proof. intros Hst. apply Forall_fmap, Forall_forall. intros n _. apply Hst. Qed.

(** The stages that a prediction call has gone through, by outcome: it
    stopped before anything was written, or the features were written and
    the model invoked, and then the prediction was written or not at all. *)
Lemma predict_stages features o model_id row_id proba s :
  heap s !! features = Some o →
  is_none row_id && bool_decide (default_row_id_field self = None) = false →
  ∃ resolve r s',
    _predict self features model_id row_id proba s = (r, s')
    ∧ in_step ResolveModel resolve
    ∧ head resolve = Some (EvCacheGet (make_redis_model_key model_id))
    ∧ ((∃ e, r = Raise e) ∧ trace s' = trace s ++ resolve ∧ mdb s' = mdb s
       ∨ ∃ recs,
           collection s' "live_features" = collection s "live_features" ++ recs
           ∧ payload_rows o ≤ length recs
           ∧ (is_frame o = false → length recs = 1)
           ∧ ((∃ e, r = Raise e)
              ∧ trace s'
                = trace s ++ resolve
                  ++ (EvInsert "live_features" <$> chunk_lengths (length recs))
                  ++ [EvInvoke proba]
              ∨ ∃ v preds,
                  r = Ok v
                  ∧ collection s' "live_predictions"
                    = collection s "live_predictions" ++ preds
                  ∧ (is_frame o = false → length preds = 1)
                  ∧ trace s'
                    = trace s ++ resolve
                      ++ (EvInsert "live_features" <$> chunk_lengths (length recs))
                      ++ [EvInvoke proba]
                      ++ (EvInsert "live_predictions" <$> chunk_lengths (length preds)))).
Proof.
  intros Hfeat Hcond. unfold _predict.
  rewrite (bind_ok _ _ _ _ _ (copy_run _ _ _ Hfeat)). cbv beta. rewrite Hcond.
  set (l := fresh (dom (heap s))).
  set (s1 := set_heap (<[l := o]> (heap s)) s).
  assert (H1 : heap s1 !! l = Some o) by apply lookup_insert_eq.
  destruct (get_model_trace model_id s1) as (evs & Ht2 & Hres).
  destruct (get_model_frame model_id s1) as (Hh2 & Hm2 & _).
  exists (EvCacheGet (make_redis_model_key model_id) :: evs).
  destruct (_get_model model_id s1) as [[m|e] s2] eqn:Eg; cbn [fst snd] in *.
  2:{ rewrite (bind_raise _ _ _ _ _ Eg). eexists _, _. split; [reflexivity|].
      split; [exact Hres|]. split; [done|]. left.
      split; [by exists e|]. split; [exact Ht2|exact Hm2]. }
  rewrite (bind_ok _ _ _ _ _ Eg). cbv beta.
  assert (H2 : heap s2 !! l = Some o) by (by rewrite Hh2).
  match goal with |- context [bind (if is_none row_id then ?a else ?b)] =>
    destruct ((if is_none row_id then a else b) s2) as [[rid|e] s3] eqn:Er
  end;
    (assert (s3 = s2) as ->
       by (revert Er; destruct (is_none row_id);
           [rewrite (bind_ok _ _ _ _ _ (load_run _ _ _ H2));
            destruct (obj_getitem _ _); simpl; by intros [= _ <-]
           |by intros [= _ <-]])).
  2:{ rewrite (bind_raise _ _ _ _ _ Er). eexists _, _. split; [reflexivity|].
      split; [exact Hres|]. split; [done|]. left.
      split; [by exists e|]. split; [exact Ht2|exact Hm2]. }
  rewrite (bind_ok _ _ _ _ _ Er). cbv beta.
  destruct (insert_into_persistent_db self l "live_features" rid model_id s2)
    as [[[]|e] s4] eqn:Ei.
  2:{ rewrite (bind_raise _ _ _ _ _ Ei). eexists _, _. split; [reflexivity|].
      split; [exact Hres|]. split; [done|]. left.
      destruct (insert_fails_quietly self l "live_features" rid model_id s2 e s4 Ei)
        as (_ & Hm4 & Ht4).
      split; [by exists e|]. split; [by rewrite Ht4|by rewrite Hm4]. }
  rewrite (bind_ok _ _ _ _ _ Ei). cbv beta.
  destruct (insert_ok_shape self l o "live_features" rid model_id s2 s4 H2 Ei)
    as (recs & Hhere & Helse & _ & Ht4 & Hrows & Hone).
  assert (H4 : heap s4 !! l = Some o).
  { pose proof (keeps_lookup _ _ l o s2
                  (keeps_insert self {[l]} l "live_features" rid model_id) H2) as K.
    by rewrite Ei in K. }
  set (v := if proba then model_predict_proba m o else model_predict m o).
  set (s5 := log (EvInvoke proba) s4).
  assert (Ev : invoke m proba l s4 = (Ok v, s5)).
  { unfold invoke. by rewrite (bind_ok _ _ _ _ _ (load_run _ _ _ H4)). }
  rewrite (bind_ok _ _ _ _ _ Ev). cbv beta zeta.
  assert (H5 : heap s5 !! l = Some o) by exact H4.
  assert (Hc5 : collection s5 "live_features" = collection s "live_features" ++ recs).
  { change (collection s5 "live_features") with (collection s4 "live_features").
    rewrite Hhere. unfold collection. by rewrite Hm2. }
  assert (Ht5 : trace s5 = trace s ++ (EvCacheGet (make_redis_model_key model_id) :: evs)
                           ++ (EvInsert "live_features" <$> chunk_lengths (length recs))
                           ++ [EvInvoke proba]).
  { unfold s5. cbn [trace log]. rewrite Ht4, Ht2. change (trace s1) with (trace s).
    by rewrite <- !app_assoc. }
  rewrite (bind_ok _ _ _ _ _ (load_run _ _ _ H5)). cbv beta.
  match goal with |- context [bind (if is_frame o then ?a else ?b)] =>
    destruct ((if is_frame o then a else b) s5) as [[pd|e] s6] eqn:Ed
  end.
  2:{ assert (s6 = s5) as ->.
      { revert Ed. destruct (is_frame o); [|discriminate].
        unfold bind. destruct (frame_of_dict _); simpl; [discriminate|by intros [= _ <-]]. }
      rewrite (bind_raise _ _ _ _ _ Ed). eexists _, _. split; [reflexivity|].
      split; [exact Hres|]. split; [done|]. right. exists recs.
      split; [exact Hc5|]. split; [exact Hrows|]. split; [exact Hone|].
      left. split; [by exists e|exact Ht5]. }
  rewrite (bind_ok _ _ _ _ _ Ed). cbv beta.
  assert (∃ po, heap s6 !! pd = Some po ∧ is_frame po = is_frame o
                ∧ mdb s6 = mdb s5 ∧ trace s6 = trace s5) as (po & H6 & Hpo & Hm6 & Ht6).
  { revert Ed. destruct (is_frame o).
    - unfold bind. destruct (frame_of_dict _) as [pf|]; simpl; [|discriminate].
      intros [= <- <-]. exists (OFrame pf). split; [simpl; apply lookup_insert_eq|done].
    - intros [= <- <-]. eexists (ODict _). split; [simpl; apply lookup_insert_eq|done]. }
  destruct (insert_into_persistent_db self pd "live_predictions" rid model_id s6)
    as [[[]|e] s7] eqn:Ep.
  2:{ rewrite (bind_raise _ _ _ _ _ Ep). eexists _, _. split; [reflexivity|].
      split; [exact Hres|]. split; [done|]. right. exists recs.
      destruct (insert_fails_quietly self pd "live_predictions" rid model_id s6 e s7 Ep)
        as (_ & Hm7 & Ht7).
      split; [|split; [exact Hrows|split; [exact Hone|]]].
      - rewrite <- Hc5. unfold collection. by rewrite Hm7, Hm6.
      - left. split; [by exists e|]. by rewrite Ht7, Ht6. }
  rewrite (bind_ok _ _ _ _ _ Ep). cbv beta.
  destruct (insert_ok_shape self pd po "live_predictions" rid model_id s6 s7 H6 Ep)
    as (preds & Hphere & Hpelse & _ & Ht7 & _ & Hpone).
  eexists _, _. split; [reflexivity|].
  split; [exact Hres|]. split; [done|]. right. exists recs.
  split; [|split; [exact Hrows|split; [exact Hone|]]].
  - rewrite (Hpelse "live_features") by done. rewrite <- Hc5. unfold collection.
    by rewrite Hm6.
  - right. exists v, preds. split; [done|]. split; [|split].
    + rewrite Hphere. unfold collection. rewrite Hm6.
      change (mdb s5) with (mdb s4).
      change (default [] (mdb s4 !! "live_predictions"))
        with (collection s4 "live_predictions").
      rewrite (Helse "live_predictions") by done. unfold collection. by rewrite Hm2.
    + rewrite <- Hpo. exact Hpone.
    + rewrite Ht7, Ht6, Ht5. by rewrite <- !app_assoc.
Qed.

End PredictionOrder.



(** A call on a flat payload, event by event. *)
Example predict_trace_example :
  let s := serving (ODict allen) in
  let run := _predict titanic 1 (VStr "titanic_1") VNone false s in
  run.1 = Ok (VInt 1)
  ∧ trace run.2
    = trace s ++ [ EvCacheGet "_concordia_titanic_1_model";
                   EvInsert "live_features" 1;
                   EvInvoke false;
                   EvInsert "live_predictions" 1 ].
Proof. vm_compute. done. Qed.

(** ** What a prediction call logs *)

Lemma bson_value_unboxed v : bson_value v = true → unboxed v = v.
Proof. by destruct v. Qed.

Lemma bson_value_pred_for_saving v : bson_value v = true → pred_for_saving v = v.
Proof. by destruct v. Qed.

Lemma bson_document_stored_doc d t rid mid :
  bson_document (asscalar_items d) →
  bson_value (unboxed rid) = true → bson_value (unboxed mid) = true →
  bson_document (stored_doc d t rid mid).
Proof.
  intros Hd Hr Hm. unfold bson_document, stored_doc, asscalar_items in *.
  rewrite !fmap_insert, !fmap_delete.
  repeat apply map_Forall_insert_2; try done.
  by do 2 apply map_Forall_delete.
Qed.

Section PredictionLog.
Context `{Externals}.
Variable self : Concordia.

Lemma predict_dict_run features d (model_id row_id : value) (proba : bool) (m : Model) s :
  heap s !! features = Some (ODict d) →
  is_list row_id = false → is_none row_id = false →
  is_list model_id = false → is_none model_id = false →
  (_get_model model_id s).1 = Ok m →
  let v := if proba then model_predict_proba m (ODict d) else model_predict m (ODict d) in
  ∃ s', _predict self features model_id row_id proba s = (Ok v, s')
        ∧ collection s' "live_features"
          = collection s "live_features" ++ [stored_doc d (clock s) row_id model_id]
        ∧ collection s' "live_predictions"
          = collection s "live_predictions"
            ++ [stored_doc (prediction_doc v row_id model_id) (S (clock s)) row_id model_id]
        ∧ (∀ vt, vt ≠ "live_features" → vt ≠ "live_predictions" →
             collection s' vt = collection s vt)
        ∧ clock s' = S (S (clock s))
        ∧ (_get_model model_id s').1 = Ok m.
Proof.
  intros Hfeat Hlr Hnr Hlm Hnm Hget v. unfold _predict.
  rewrite (bind_ok _ _ _ _ _ (copy_run _ _ _ Hfeat)). cbv beta.
  set (l := fresh (dom (heap s))).
  set (s1 := set_heap (<[l := ODict d]> (heap s)) s).
  assert (H1 : heap s1 !! l = Some (ODict d)) by apply lookup_insert_eq.
  rewrite Hnr. cbn [andb].
  destruct (get_model_frame model_id s1) as (Hh & Hm & Hc).
  rewrite <- (get_model_result_ext model_id s s1) in Hget by done.
  destruct (_get_model model_id s1) as [r s2] eqn:Eg. cbn [fst snd] in *. subst r.
  destruct (get_model_cached_after model_id m s1 s2 Eg) as (b & Hb & Hload).
  assert (H2 : heap s2 !! l = Some (ODict d)) by (by rewrite Hh).
  rewrite (bind_ok _ _ _ _ _ Eg). cbv beta.
  erewrite bind_ok; [|reflexivity]. cbv beta.
  erewrite bind_ok; [|by apply insert_dict_run]. cbv beta.
  set (l3 := fresh (dom (heap s2))).
  assert (Hl3 : l ≠ l3) by (by apply (fresh_loc_new s2 l (ODict d))).
  set (fdoc := stored_doc d (clock s2) row_id model_id).
  unfold invoke.
  erewrite (bind_ok (bind (load l) _)).
  2:{ erewrite bind_ok; [|apply load_run; cbn [heap]; rewrite lookup_insert_ne by done;
                          exact H2].
      reflexivity. }
  cbv beta. fold v. flat_state.
  erewrite bind_ok;
    [|apply load_run; cbn [heap]; rewrite lookup_insert_ne by done; exact H2].
  cbv beta. cbn [is_frame].
  erewrite bind_ok; [|reflexivity]. cbv beta. flat_state.
  fold (prediction_doc v row_id model_id).
  erewrite bind_ok; [|apply insert_dict_run; [cbn [heap]; apply lookup_insert_eq|done..]].
  cbv beta. flat_state.
  eexists. split; [reflexivity|].
  unfold collection. cbn [mdb clock rdb]. subst fdoc. rewrite !Hm, !Hc.
  change (mdb s1) with (mdb s). change (clock s1) with (clock s).
  split; [by rewrite lookup_insert_ne, lookup_insert_eq|].
  split; [by rewrite lookup_insert_eq, lookup_insert_ne|].
  split; [intros vt H5 H6; by rewrite !lookup_insert_ne|].
  split; [done|].
  rewrite get_model_outcome. cbv zeta. cbn [rdb]. rewrite Hb. cbn [fst].
  by apply decoded_ok.
Qed.

Lemma bson_document_prediction_doc v t rid mid :
  bson_value v = true →
  bson_value (unboxed rid) = true → bson_value (unboxed mid) = true →
  bson_document (stored_doc (prediction_doc v rid mid) t rid mid).
Proof.
  intros Hv Hr Hm. apply bson_document_stored_doc; [|done..].
  unfold bson_document, prediction_doc, asscalar_items. simpl.
  rewrite !fmap_insert, fmap_empty.
  repeat apply map_Forall_insert_2; try done.
  split; [done|]. by destruct v.
Qed.

(** X25.  A prediction call on a flat payload, with an explicit [row_id]
    and a model that resolves, returns and appends exactly one document to
    [live_features] and one to [live_predictions], when the payload and the
    identifiers, their numpy scalars converted, are values that the driver
    encodes and the model gives a plain value (a number, text or a list of
    such values, not an array or a numpy scalar).  Both documents carry the
    identifiers of the call and are documents that the driver encodes; the
    first keeps the payload fields, the second holds the prediction as the
    model gave it; no other collection changes. *)
Theorem predict_logs_one_record_of_each_kind
    features d model_id row_id (proba : bool) (m : Model) s :
  heap s !! features = Some (ODict d) →
  is_list row_id = false → row_id ≠ VNone →
  is_list model_id = false → model_id ≠ VNone →
  (_get_model model_id s).1 = Ok m →
  bson_document (asscalar_items d) →
  bson_value (unboxed row_id) = true →
  bson_value (unboxed model_id) = true →
  let v := if proba then model_predict_proba m (ODict d) else model_predict m (ODict d) in
  bson_value v = true →
  ∃ s' features_doc saved_prediction,
    _predict self features model_id row_id proba s = (Ok v, s')
    ∧ collection s' "live_features" = collection s "live_features" ++ [features_doc]
    ∧ collection s' "live_predictions"
      = collection s "live_predictions" ++ [saved_prediction]
    ∧ (∀ vt, vt ≠ "live_features" → vt ≠ "live_predictions" →
         collection s' vt = collection s vt)
    ∧ bson_document features_doc ∧ bson_document saved_prediction
    ∧ (∀ k, k ∉ pipeline_keys → features_doc !! k = unboxed <$> d !! k)
    ∧ features_doc !! "row_id" = Some (unboxed row_id)
    ∧ features_doc !! "model_id" = Some (unboxed model_id)
    ∧ saved_prediction !! "prediction" = Some v
    ∧ saved_prediction !! "row_id" = Some (unboxed row_id)
    ∧ saved_prediction !! "model_id" = Some (unboxed model_id).
Proof.
  intros Hfeat Hlr Hnr Hlm Hnm Hget Hd Her Hem v Hv.
  destruct (predict_dict_run features d model_id row_id proba m s Hfeat Hlr
              (is_none_false _ Hnr) Hlm (is_none_false _ Hnm) Hget)
    as (s' & E & Hf & Hp & Ho & _ & _).
  eexists s', _, _. split; [exact E|]. split; [exact Hf|]. split; [exact Hp|].
  split; [exact Ho|].
  split; [by apply bson_document_stored_doc|]. split; [by apply bson_document_prediction_doc|].
  unfold stored_doc, prediction_doc.
  split.
  { intros k Hk. unfold pipeline_keys in Hk.
    assert (k ≠ "_id" ∧ k ≠ "_id_" ∧ k ≠ "_concordia_created_at"
            ∧ k ≠ "row_id" ∧ k ≠ "model_id") as (K1 & K2 & K3 & K4 & K5).
    { repeat split; intros ->; apply Hk; set_solver. }
    rewrite lookup_asscalar_items.
    by rewrite !lookup_insert_ne, !lookup_delete_ne by done. }
  rewrite !lookup_asscalar_items.
  rewrite !lookup_insert_eq.
  rewrite !(lookup_insert_ne _ "model_id" "row_id"), !lookup_insert_eq by done.
  rewrite !(lookup_insert_ne _ "model_id"), !(lookup_insert_ne _ "row_id") by done.
  rewrite !(lookup_insert_ne _ "_concordia_created_at") by done.
  rewrite !lookup_delete_ne by done.
  repeat split; try reflexivity.
  change (list_to_map _ !! "prediction") with (Some (pred_for_saving v)). simpl.
  by rewrite bson_value_pred_for_saving, bson_value_unboxed.
Qed.

(** X26.  Predictions are not deduplicated: two successive calls with the
    same flat payload and identifiers (values that the driver encodes, their
    numpy scalars converted) and a model that gives a plain value both
    return the same prediction and leave two [live_features] documents,
    equal up to their creation time, and two [live_predictions] documents
    that hold the prediction. *)
Theorem predict_twice_logs_twice features d model_id row_id (proba : bool) (m : Model) s :
  heap s !! features = Some (ODict d) →
  is_list row_id = false → row_id ≠ VNone →
  is_list model_id = false → model_id ≠ VNone →
  (_get_model model_id s).1 = Ok m →
  bson_document (asscalar_items d) →
  bson_value (unboxed row_id) = true →
  bson_value (unboxed model_id) = true →
  let v := if proba then model_predict_proba m (ODict d) else model_predict m (ODict d) in
  bson_value v = true →
  ∃ s1 s2,
    _predict self features model_id row_id proba s = (Ok v, s1)
    ∧ _predict self features model_id row_id proba s1 = (Ok v, s2)
    ∧ collection s2 "live_features"
      = collection s "live_features"
        ++ [stored_doc d (clock s) row_id model_id;
            stored_doc d (S (S (clock s))) row_id model_id]
    ∧ Forall bson_document [stored_doc d (clock s) row_id model_id;
                            stored_doc d (S (S (clock s))) row_id model_id]
    ∧ ∃ p1 p2, collection s2 "live_predictions"
               = collection s "live_predictions" ++ [p1; p2]
               ∧ bson_document p1 ∧ bson_document p2
               ∧ p1 !! "prediction" = Some v ∧ p2 !! "prediction" = Some v.
Proof.
  intros Hfeat Hlr Hnr Hlm Hnm Hget Hd Her Hem v Hv.
  destruct (predict_dict_run features d model_id row_id proba m s Hfeat Hlr
              (is_none_false _ Hnr) Hlm (is_none_false _ Hnm) Hget)
    as (s1 & E1 & Hf1 & Hp1 & _ & Hc1 & Hget1).
  assert (Hfeat1 : heap s1 !! features = Some (ODict d)).
  { pose proof (predict_keeps_heap self features model_id row_id proba s features
                  (ODict d) Hfeat) as K. by rewrite E1 in K. }
  destruct (predict_dict_run features d model_id row_id proba m s1 Hfeat1 Hlr
              (is_none_false _ Hnr) Hlm (is_none_false _ Hnm) Hget1)
    as (s2 & E2 & Hf2 & Hp2 & _ & _ & _).
  assert (Hpred : ∀ t, stored_doc (prediction_doc v row_id model_id) t row_id model_id
                       !! "prediction" = Some v).
  { intros t. unfold stored_doc. rewrite lookup_asscalar_items.
    rewrite !lookup_insert_ne, !lookup_delete_ne by done.
    change (prediction_doc v row_id model_id !! "prediction")
      with (Some (pred_for_saving v)). simpl.
    by rewrite bson_value_pred_for_saving, bson_value_unboxed. }
  exists s1, s2. split; [exact E1|]. split; [exact E2|]. split; [|split].
  - rewrite Hf2, Hf1, Hc1, <- app_assoc. done.
  - constructor; [by apply bson_document_stored_doc|].
    constructor; [by apply bson_document_stored_doc|constructor].
  - eexists _, _. split; [rewrite Hp2, Hp1, <- app_assoc; reflexivity|].
    split; [by apply bson_document_prediction_doc|].
    split; [by apply bson_document_prediction_doc|]. split; apply Hpred.
Qed.
End PredictionLog.

Lemma predict_logs_one_record_of_each_kind_witness :
  let s := serving (ODict allen) in
  ∃ s' features_doc saved_prediction,
    _predict titanic 1 (VStr "titanic_1") (VStr "r1") false s = (Ok (VInt 1), s')
    ∧ collection s' "live_features" = collection s "live_features" ++ [features_doc]
    ∧ collection s' "live_predictions"
      = collection s "live_predictions" ++ [saved_prediction]
    ∧ (∀ vt, vt ≠ "live_features" → vt ≠ "live_predictions" →
         collection s' vt = collection s vt)
    ∧ bson_document features_doc ∧ bson_document saved_prediction
    ∧ (∀ k, k ∉ pipeline_keys → features_doc !! k = unboxed <$> allen !! k)
    ∧ features_doc !! "row_id" = Some (unboxed (VStr "r1"))
    ∧ features_doc !! "model_id" = Some (unboxed (VStr "titanic_1"))
    ∧ saved_prediction !! "prediction" = Some (VInt 1)
    ∧ saved_prediction !! "row_id" = Some (unboxed (VStr "r1"))
    ∧ saved_prediction !! "model_id" = Some (unboxed (VStr "titanic_1")).
Proof.
  apply (predict_logs_one_record_of_each_kind (H := toy) titanic 1 allen
           (VStr "titanic_1") (VStr "r1") false true (serving (ODict allen))).
  - vm_compute. reflexivity.
  - reflexivity.
  - discriminate.
  - reflexivity.
  - discriminate.
  - vm_compute. reflexivity.
  - apply (bool_decide_unpack _). vm_compute. exact I.
  - reflexivity.
  - reflexivity.
  - reflexivity.
Defined.

Lemma predict_twice_logs_twice_witness :
  let s := serving (ODict allen) in
  ∃ s1 s2,
    _predict titanic 1 (VStr "titanic_1") (VStr "r1") false s = (Ok (VInt 1), s1)
    ∧ _predict titanic 1 (VStr "titanic_1") (VStr "r1") false s1 = (Ok (VInt 1), s2)
    ∧ collection s2 "live_features"
      = collection s "live_features"
        ++ [stored_doc allen (clock s) (VStr "r1") (VStr "titanic_1");
            stored_doc allen (S (S (clock s))) (VStr "r1") (VStr "titanic_1")]
    ∧ Forall bson_document
        [stored_doc allen (clock s) (VStr "r1") (VStr "titanic_1");
         stored_doc allen (S (S (clock s))) (VStr "r1") (VStr "titanic_1")]
    ∧ ∃ p1 p2, collection s2 "live_predictions"
               = collection s "live_predictions" ++ [p1; p2]
               ∧ bson_document p1 ∧ bson_document p2
               ∧ p1 !! "prediction" = Some (VInt 1) ∧ p2 !! "prediction" = Some (VInt 1).
Proof.
  apply (predict_twice_logs_twice (H := toy) titanic 1 allen
           (VStr "titanic_1") (VStr "r1") false true (serving (ODict allen))).
  - vm_compute. reflexivity.
  - reflexivity.
  - discriminate.
  - reflexivity.
  - discriminate.
  - vm_compute. reflexivity.
  - apply (bool_decide_unpack _). vm_compute. exact I.
  - reflexivity.
  - reflexivity.
  - reflexivity.
Defined.

(** ** Labels *)

Lemma stored_rows_present f t rid mid i row :
  rows f !! i = Some row →
  "row_id" ∈ columns f → "model_id" ∈ columns f →
  ∃ r, stored_rows f t rid mid !! i = Some r
       ∧ ∀ k, k ≠ "_id" → k ≠ "_id_" → k ≠ "_concordia_created_at" →
              r !! k = row !! k.
Proof.
  intros Hrow Hr Hm.
  destruct (rows_strip_ids_lookup f i row Hrow) as (row' & Hrow' & Hkeep).
  unfold stored_rows. cbv zeta. rewrite list_lookup_imap.
  unfold stamp at 2. cbn [rows]. rewrite list_lookup_fmap, Hrow'. simpl.
  eexists. split; [reflexivity|].
  rewrite resolve_row_present.
  - intros k K1 K2 K3. rewrite lookup_insert_ne by done. by apply Hkeep.
  - apply elem_of_add_column. left. by apply elem_of_columns_strip_ids.
  - apply elem_of_add_column. left. by apply elem_of_columns_strip_ids.
Qed.

Lemma cell_label_model_column mid n i :
  seq_items mid = None → i < n → cell (label_model_column mid n) i = mid.
Proof.
  intros Hs Hi. destruct mid; try done. unfold cell. simpl.
  by rewrite lookup_replicate_2.
Qed.

(** The table of labels that [add_label] builds for a sequence of row
    identifiers. *)
Lemma label_frame rid ids mcol label :
  seq_items rid = Some ids →
  aligned (length ids) mcol → aligned (length ids) label →
  ∃ f, frame_of_dict [("row_id", rid); ("model_id", mcol); ("label", label)] = Ok f
       ∧ columns f = ["row_id"; "model_id"; "label"]
       ∧ nrows f = length ids
       ∧ ∀ i, i < length ids →
           ∃ r, rows f !! i = Some r
                ∧ r !! "row_id" = ids !! i
                ∧ r !! "model_id" = Some (cell mcol i)
                ∧ r !! "label" = Some (cell label i).
Proof.
  intros Hids Hm Hl. unfold frame_of_dict.
  assert (∃ ns, frame_lengths [("row_id", rid); ("model_id", mcol); ("label", label)]
                       = length ids :: ns
                       ∧ forallb (Nat.eqb (length ids)) ns = true) as (ns & -> & ->).
  { unfold frame_lengths. simpl. rewrite Hids. simpl.
    destruct (seq_items mcol) as [lm|] eqn:Em, (seq_items label) as [ll|] eqn:El; simpl;
      eexists; (split; [reflexivity|]); simpl;
      try rewrite (Hm _ Em); try rewrite (Hl _ El); rewrite ?Nat.eqb_refl; done. }
  destruct (length ids) as [|n] eqn:Hn.
  { eexists. split; [reflexivity|]. repeat split. intros i Hi. lia. }
  rewrite <- Hn in *. clear n Hn.
  set (f0 := mkFrame [] (replicate (length ids) (∅ : record))).
  assert (Hn0 : nrows f0 = length ids) by (unfold nrows; simpl; by rewrite length_replicate).
  assert (Hr : aligned (length ids) rid).
  { intros l Hl'. rewrite Hids in Hl'. by injection Hl' as <-. }
  unfold frame_fill.
  rewrite (set_column_aligned f0 "row_id" rid) by (by rewrite Hn0).
  set (f1 := mkFrame _ _).
  assert (Hn1 : nrows f1 = length ids) by (unfold nrows, f1; simpl; by rewrite length_imap).
  rewrite (set_column_aligned f1 "model_id" mcol) by (by rewrite Hn1).
  set (f2 := mkFrame _ _).
  assert (Hn2 : nrows f2 = length ids) by (unfold nrows, f2; simpl; by rewrite length_imap).
  rewrite (set_column_aligned f2 "label" label) by (by rewrite Hn2).
  eexists. split; [reflexivity|]. split; [|split].
  - vm_compute. reflexivity.
  - unfold nrows. simpl. by rewrite !length_imap, length_replicate.
  - intros i Hi. simpl. rewrite !list_lookup_imap, lookup_replicate_2 by done. simpl.
    eexists. split; [reflexivity|].
    rewrite lookup_insert_ne, lookup_insert_ne, lookup_insert_eq by done.
    rewrite lookup_insert_ne, lookup_insert_eq by done.
    rewrite lookup_insert_eq. repeat split.
    unfold cell. rewrite Hids.
    destruct (lookup_lt_is_Some_2 ids i Hi) as [x ->]. done.
Qed.

Section Labels.
Context `{Externals}.
Variable self : Concordia.

(** X27.  [add_label] with a number or a string as [row_id], and a
    [model_id] that is neither a list nor [None], stores exactly one
    [live_labels] document holding the row identifier, the model identifier
    and the label, numpy scalars converted, stamped with the clock at the
    call. *)
Theorem add_label_stores_one_label row_id model_id label s :
  is_number_or_str row_id = true →
  is_list model_id = false → model_id ≠ VNone →
  ∃ doc s',
    add_label self row_id model_id label s = (Ok tt, s')
    ∧ collection s' "live_labels" = collection s "live_labels" ++ [doc]
    ∧ (∀ vt, vt ≠ "live_labels" → collection s' vt = collection s vt)
    ∧ doc !! "row_id" = Some (unboxed row_id)
    ∧ doc !! "model_id" = Some (unboxed model_id)
    ∧ doc !! "label" = Some (unboxed label)
    ∧ doc !! "_concordia_created_at" = Some (VTime (clock s)).
Proof.
  intros Hscalar Hlm Hnm. unfold add_label. cbv zeta. rewrite Hscalar. cbn [negb].
  erewrite bind_ok; [|reflexivity]. cbv beta.
  erewrite bind_ok; [|apply load_run; cbn [heap set_heap]; apply lookup_insert_eq].
  cbv beta.
  erewrite bind_ok; [|reflexivity]. cbv beta.
  erewrite bind_ok; [|reflexivity]. cbv beta.
  erewrite insert_dict_run;
    [|cbn [heap set_heap]; apply lookup_insert_eq|by destruct row_id|by destruct row_id
     |done|by apply is_none_false].
  norm_state. eexists. eexists. split; [reflexivity|]. split.
  { unfold collection. norm_state. by rewrite lookup_insert_eq. }
  split.
  { intros vt Hvt. unfold collection. norm_state. by rewrite lookup_insert_ne. }
  unfold stored_doc. rewrite !lookup_asscalar_items.
  rewrite lookup_insert_eq.
  rewrite (lookup_insert_ne _ "model_id" "row_id"), lookup_insert_eq by done.
  rewrite !(lookup_insert_ne _ "model_id"), !(lookup_insert_ne _ "row_id") by done.
  rewrite lookup_insert_eq, !(lookup_insert_ne _ "_concordia_created_at") by done.
  rewrite !lookup_delete_ne by done.
  repeat split; reflexivity.
Qed.

(** X28.  [add_label] with a sequence of row identifiers, one model
    identifier and a label or one label per row identifier stores one
    [live_labels] document per row identifier, in order: document [i] holds
    row identifier [i], the model identifier and label [i]. *)
Theorem add_label_stores_one_label_per_row_id row_id ids model_id label s :
  seq_items row_id = Some ids →
  seq_items model_id = None →
  aligned (length ids) label →
  ∃ recs s',
    add_label self row_id model_id label s = (Ok tt, s')
    ∧ collection s' "live_labels" = collection s "live_labels" ++ recs
    ∧ length recs = length ids
    ∧ ∀ i, i < length ids →
        ∃ r, recs !! i = Some r
             ∧ r !! "row_id" = ids !! i
             ∧ r !! "model_id" = Some model_id
             ∧ r !! "label" = Some (cell label i).
Proof.
  intros Hids Hmid Hlabel. unfold add_label. cbv zeta.
  assert (Hseq : is_number_or_str row_id = false) by (by destruct row_id).
  rewrite Hseq. cbn [negb].
  assert (Hcol : aligned (length ids) (label_model_column model_id (length ids))).
  { intros l. destruct model_id; try done. simpl. intros [= <-]. apply length_replicate. }
  destruct (label_frame row_id ids (label_model_column model_id (length ids)) label
              Hids Hcol Hlabel) as (f & Ef & Hcols & Hn & Hrows).
  assert (E1 : (let* label_doc :=
                  match model_id with
                  | VStr _ =>
                      match seq_items row_id with
                      | Some ids0 =>
                          ret [("row_id", row_id);
                               ("model_id", VList (replicate (length ids0) model_id));
                               ("label", label)]
                      | None => raise TypeError
                      end
                  | _ => ret [("row_id", row_id); ("model_id", model_id); ("label", label)]
                  end in
                let* df := lift (frame_of_dict label_doc) in alloc (OFrame df)) s
               = (Ok (fresh (dom (heap s))),
                  set_heap (<[fresh (dom (heap s)) := OFrame f]> (heap s)) s)).
  { assert (E0 : match model_id with
                 | VStr _ =>
                     match seq_items row_id with
                     | Some ids0 =>
                         ret [("row_id", row_id);
                              ("model_id", VList (replicate (length ids0) model_id));
                              ("label", label)]
                     | None => raise TypeError
                     end
                 | _ => ret [("row_id", row_id); ("model_id", model_id); ("label", label)]
                 end s
                 = (Ok [("row_id", row_id);
                        ("model_id", label_model_column model_id (length ids));
                        ("label", label)], s)).
    { rewrite Hids. by destruct model_id. }
    rewrite (bind_ok _ _ _ _ _ E0). cbv beta. rewrite Ef. reflexivity. }
  rewrite (bind_ok _ _ _ _ _ E1). cbv beta.
  set (l := fresh (dom (heap s))).
  set (s1 := set_heap (<[l := OFrame f]> (heap s)) s).
  assert (H1 : heap s1 !! l = Some (OFrame f)) by apply lookup_insert_eq.
  rewrite (bind_ok _ _ _ _ _ (load_run _ _ _ H1)). cbv beta.
  assert (Hrc : "row_id" ∈ columns f) by (rewrite Hcols; set_solver).
  assert (Hmc : "model_id" ∈ columns f) by (rewrite Hcols; set_solver).
  unfold obj_getitem. rewrite !bool_decide_eq_true_2 by done. cbn [lift].
  erewrite bind_ok; [|reflexivity]. cbv beta.
  erewrite bind_ok; [|reflexivity]. cbv beta.
  assert (Hres : identity_resolvable self f (get_column f "row_id") (get_column f "model_id"))
    by (split; by left).
  destruct (insert_frame_run self l f "live_labels" _ _ s1 H1 Hres) as (s' & E & I).
  exists (stored_rows f (clock s1) (get_column f "row_id") (get_column f "model_id")), s'.
  split; [exact E|]. split; [apply (ing_here _ _ _ _ I)|].
  split; [by rewrite length_stored_rows|].
  intros i Hi. destruct (Hrows i Hi) as (row & Hrow & Hrid & Hmodel & Hlab).
  destruct (stored_rows_present f (clock s1) (get_column f "row_id")
              (get_column f "model_id") i row Hrow Hrc Hmc) as (r & Hr & Hkeep).
  exists r. split; [exact Hr|].
  rewrite !Hkeep by done. split; [exact Hrid|]. split; [|exact Hlab].
  rewrite Hmodel. f_equal. by apply cell_label_model_column.
Qed.
End Labels.

Lemma add_label_stores_one_label_witness :
  ∃ doc s',
    add_label titanic (VStr "Allen") (VStr "titanic_1") (VNp 1) empty_state = (Ok tt, s')
    ∧ collection s' "live_labels" = collection empty_state "live_labels" ++ [doc]
    ∧ (∀ vt, vt ≠ "live_labels" → collection s' vt = collection empty_state vt)
    ∧ doc !! "row_id" = Some (unboxed (VStr "Allen"))
    ∧ doc !! "model_id" = Some (unboxed (VStr "titanic_1"))
    ∧ doc !! "label" = Some (unboxed (VNp 1))
    ∧ doc !! "_concordia_created_at" = Some (VTime (clock empty_state)).
Proof.
  apply (add_label_stores_one_label titanic (VStr "Allen") (VStr "titanic_1")
           (VNp 1) empty_state).
  - reflexivity.
  - reflexivity.
  - discriminate.
Defined.

Lemma add_label_stores_one_label_per_row_id_witness :
  ∃ recs s',
    add_label titanic (VList [VStr "Allen"; VStr "Braund"]) (VStr "titanic_1")
      (VList [VInt 1; VInt 0]) empty_state = (Ok tt, s')
    ∧ collection s' "live_labels" = collection empty_state "live_labels" ++ recs
    ∧ length recs = length [VStr "Allen"; VStr "Braund"]
    ∧ ∀ i, i < length [VStr "Allen"; VStr "Braund"] →
        ∃ r, recs !! i = Some r
             ∧ r !! "row_id" = [VStr "Allen"; VStr "Braund"] !! i
             ∧ r !! "model_id" = Some (VStr "titanic_1")
             ∧ r !! "label" = Some (cell (VList [VInt 1; VInt 0]) i).
Proof.
  apply (add_label_stores_one_label_per_row_id titanic
           (VList [VStr "Allen"; VStr "Braund"]) [VStr "Allen"; VStr "Braund"]
           (VStr "titanic_1") (VList [VInt 1; VInt 0]) empty_state).
  - reflexivity.
  - reflexivity.
  - intros l [= <-]. reflexivity.
Defined.

(** ** The durable store only grows *)

#[local] Instance append_only_rel : StoreRel append_only.
Proof.
  split.
  - intros s s' _ Hm _ vt. exists []. unfold collection. by rewrite Hm, app_nil_r.
  - intros s1 s2 s3 H1 H2 vt. destruct (H1 vt) as [r1 E1], (H2 vt) as [r2 E2].
    exists (r1 ++ r2). by rewrite E2, E1, app_assoc.
Qed.

Section AppendOnly.
Context `{Externals}.
Variable self : Concordia.

Lemma appends_store vt docs s s' :
  mdb s' = <[vt := collection s vt ++ docs]> (mdb s) → append_only s s'.
Proof.
  intros Hm vt'. unfold collection at 1. rewrite Hm.
  destruct (decide (vt' = vt)) as [->|Hne].
  - exists docs. by rewrite lookup_insert_eq.
  - exists []. rewrite lookup_insert_ne, app_nil_r by done. done.
Qed.

Lemma same_store_appends s s' : mdb s' = mdb s → append_only s s'.
Proof. intros Hm vt. exists []. unfold collection. by rewrite Hm, app_nil_r. Qed.

Lemma append_only_rdb_get key : respects append_only (rdb_get key).
Proof. intros s. by apply same_store_appends. Qed.

Lemma append_only_rdb_set key v : respects append_only (rdb_set key v).
Proof. intros s. destruct v; by apply same_store_appends. Qed.

Lemma append_only_find vt q : respects append_only (mdb_find vt q).
Proof. intros s. by apply same_store_appends. Qed.

Lemma append_only_insert_one vt d : respects append_only (mdb_insert_one vt d).
Proof. intros s. by apply (appends_store vt [d]). Qed.

Lemma append_only_insert_many vt ds : respects append_only (mdb_insert_many vt ds).
Proof.
  intros s. destruct ds as [|d ds]; [apply (rel_refl append_only)|].
  by apply (appends_store vt (d :: ds)).
Qed.

Lemma append_only_invoke model proba features :
  respects append_only (invoke model proba features).
Proof.
  unfold invoke. apply (respects_bind _); [apply (respects_load _)|].
  intros o s. by apply same_store_appends.
Qed.

#[local] Hint Resolve append_only_rdb_get append_only_rdb_set append_only_find
  append_only_insert_one append_only_insert_many append_only_invoke : respects.

Lemma append_only_insert_chunks fuel df vt i :
  respects append_only (insert_chunks fuel df vt i).
Proof.
  revert i. induction fuel as [|fuel IH]; intros i; simpl;
    destruct (negb (i <? nrows df)); respects_walk.
Qed.

Lemma append_only_insert val vt rid mid :
  respects append_only (insert_into_persistent_db self val vt rid mid).
Proof.
  unfold insert_into_persistent_db.
  do 5 (apply (respects_bind _); [respects_walk|]; intros ?).
  apply (respects_bind _); [respects_walk|]. intros o. destruct o.
  - apply (respects_bind _); [apply respects_check_row_id; apply _|]. intros ?.
    apply (respects_bind _); [apply respects_check_model_id; apply _|]. intros ?.
    respects_walk.
  - unfold _insert_df_into_db. cbv zeta.
    apply (respects_bind _); [apply respects_load_frame; apply _|]. intros f.
    apply (respects_bind _); [respects_walk|]. intros _.
    apply (respects_bind _); [respects_walk|]. intros _.
    apply (respects_bind _); [apply respects_load_frame; apply _|]. intros f'.
    apply append_only_insert_chunks.
Qed.

Lemma append_only_get_model model_id : respects append_only (_get_model model_id).
Proof.
  unfold _get_model, retrieve_from_persistent_db. cbv zeta. respects_walk.
Qed.

#[local] Hint Resolve append_only_insert append_only_get_model : respects.

Lemma append_only_predict features model_id row_id proba :
  respects append_only (_predict self features model_id row_id proba).
Proof. unfold _predict. cbv zeta. respects_walk. Qed.

Lemma append_only_add_model model model_id feature_names fi description :
  respects append_only (add_model self model model_id feature_names fi description).
Proof. unfold add_model. cbv zeta. respects_walk. Qed.

Lemma append_only_add_label row_id model_id label :
  respects append_only (add_label self row_id model_id label).
Proof. unfold add_label. cbv zeta. respects_walk. Qed.

(** X29.  The durable store only grows: whatever their arguments and
    outcome, [add_model], [_predict], [add_label] and
    [insert_into_persistent_db] leave every collection with the documents it
    held, in the same order, followed by those they added; [_get_model]
    leaves every collection as it was. *)
Theorem store_is_append_only s vt :
  (∀ model model_id feature_names fi description,
     ∃ recs, collection (add_model self model model_id feature_names fi description s).2 vt
             = collection s vt ++ recs)
  ∧ (∀ features model_id row_id proba,
       ∃ recs, collection (_predict self features model_id row_id proba s).2 vt
               = collection s vt ++ recs)
  ∧ (∀ row_id model_id label,
       ∃ recs, collection (add_label self row_id model_id label s).2 vt
               = collection s vt ++ recs)
  ∧ (∀ val val_type row_id model_id,
       ∃ recs, collection (insert_into_persistent_db self val val_type row_id model_id s).2 vt
               = collection s vt ++ recs)
  ∧ ∀ model_id, collection (_get_model model_id s).2 vt = collection s vt.
Proof.
  split; [|split; [|split; [|split]]].
  - intros. apply append_only_add_model.
  - intros. apply append_only_predict.
  - intros. apply append_only_add_label.
  - intros. apply append_only_insert.
  - intros model_id. unfold collection. by rewrite (get_model_reads_only model_id s).
Qed.

(** X30.  A table without a [model_id] column, inserted without a
    [model_id], is refused and nothing is stored; when the table has a
    [row_id] column the error is the [ValueError] about the missing
    [model_id]. *)
Theorem table_without_model_id_is_refused val f val_type row_id s :
  heap s !! val = Some (OFrame f) →
  "model_id" ∉ columns f →
  let run := insert_into_persistent_db self val val_type row_id VNone s in
  (∃ e, run.1 = Raise e)
  ∧ mdb run.2 = mdb s
  ∧ ("row_id" ∈ columns f → run.1 = Raise (ValueError MissingModelId)).
Proof.
  intros Hval Hcol run.
  assert (∃ e s', run = (Raise e, s')
                  ∧ ("row_id" ∈ columns f → e = ValueError MissingModelId))
    as (e & s' & Hrun & He).
  { subst run. unfold insert_into_persistent_db.
    rewrite (bind_ok _ _ _ _ _ (copy_run _ _ _ Hval)). cbv beta.
    set (l := fresh (dom (heap s))).
    erewrite bind_ok; [|apply del_if_present_run; simpl; apply lookup_insert_eq].
    rewrite strip_step_frame. cbv beta. norm_state.
    erewrite bind_ok; [|apply del_if_present_run; simpl; apply lookup_insert_eq].
    rewrite strip_step_frame. cbv beta. norm_state. fold (strip_ids f).
    erewrite bind_ok; [|reflexivity]. cbv beta. norm_state.
    erewrite bind_ok; [|eapply setitem_run; [simpl; apply lookup_insert_eq|reflexivity]].
    cbv beta. norm_state.
    erewrite bind_ok; [|apply load_run; simpl; apply lookup_insert_eq]. cbv beta iota.
    fold (stamp (clock s) (strip_ids f)).
    set (f3 := stamp (clock s) (strip_ids f)).
    match goal with |- context [_insert_df_into_db _ _ _ _ _ ?st] => set (s3 := st) end.
    assert (H3 : heap s3 !! l = Some (OFrame f3)) by (simpl; apply lookup_insert_eq).
    assert (Hm3 : "model_id" ∉ columns f3).
    { unfold f3. simpl. rewrite elem_of_add_column, elem_of_columns_strip_ids.
      intros [(? & _)|?]; done. }
    unfold _insert_df_into_db.
    rewrite (bind_ok _ _ _ _ _ (load_frame_run _ _ _ H3)). cbv beta zeta.
    rewrite (bool_decide_eq_false_2 _ Hm3). cbn [negb is_none].
    unfold bind at 1.
    destruct (decide ("row_id" ∈ columns f)) as [Hr|Hr].
    - assert (Hr3 : "row_id" ∈ columns f3).
      { unfold f3. simpl. apply elem_of_add_column. left.
        by apply elem_of_columns_strip_ids. }
      rewrite (bool_decide_eq_true_2 _ Hr3). cbn [negb ret].
      by eexists _, _.
    - match goal with |- context [(if ?c then ?a else ?b) s3] =>
        destruct ((if c then a else b) s3) as [[[]|e1] s4]
      end; eexists _, _; (split; [reflexivity|done]). }
  subst run. rewrite Hrun. cbn [fst snd]. split; [by exists e|]. split.
  - by destruct (insert_fails_quietly self val val_type row_id VNone s e s' Hrun) as (_ & ? & _).
  - intros Hr. by rewrite (He Hr).
Qed.
End AppendOnly.

Lemma table_without_model_id_is_refused_witness :
  let run := insert_into_persistent_db titanic 0 "training_features" (VStr "r") VNone
               (with_objects [OFrame passengers]) in
  (∃ e, run.1 = Raise e)
  ∧ mdb run.2 = mdb (with_objects [OFrame passengers])
  ∧ ("row_id" ∈ columns passengers → run.1 = Raise (ValueError MissingModelId)).
Proof.
  apply (table_without_model_id_is_refused titanic 0 passengers
           "training_features" (VStr "r") (with_objects [OFrame passengers])).
  - reflexivity.
  - apply (bool_decide_unpack _). vm_compute. exact I.
Defined.
